(** * heebiejeebies: reactive XML templates

    A shallow embedding of the template pipeline of the repository
    (Record.js, Signal.js and the xml.js variants) together with the
    properties its specification states about it.

    JavaScript strings are modelled as [string] (one [ascii] per code
    unit, read as Latin-1; a key computed with [toUpperCase] as the list
    of its code units), numbers as doubles, arrays as lists (with [option]
    cells where the code leaves holes with [delete]), a [Map] as an
    association list in insertion order, a [Set] as a duplicate-free list
    in insertion order. *)

From Stdlib Require Import List String Ascii Bool Arith Lia ZArith.
From Stdlib Require Import DecimalString DecimalNat SpecFloat.
Import ListNotations.
Open Scope string_scope.
Set Warnings "-register-all".

(* ------------------------------------------------------------------ *)
(** ** String primitives of the host language *)

Module JsString.

Definition chars (s : string) : list ascii := list_ascii_of_string s.
Definition str (l : list ascii) : string := string_of_list_ascii l.

(** White space as recognised by [String.prototype.trim] and by the
    regular expression class [\s], restricted to Latin-1 code units. *)
Definition isSpace (c : ascii) : bool :=
  let n := nat_of_ascii c in
  existsb (Nat.eqb n) [9; 10; 11; 12; 13; 32; 160].

Fixpoint dropWhile {A} (p : A -> bool) (l : list A) : list A :=
  match l with
  | [] => []
  | x :: r => if p x then dropWhile p r else l
  end.

Definition trimStart (l : list ascii) : list ascii := dropWhile isSpace l.
Definition trimEnd (l : list ascii) : list ascii :=
  rev (dropWhile isSpace (rev l)).
(** [s.trim()] *)
Definition trim (l : list ascii) : list ascii := trimEnd (trimStart l).

(** The double quote character. *)
Definition dquote : ascii := ascii_of_nat 34.

Definition isQuote (c : ascii) : bool :=
  Ascii.eqb c "'"%char || Ascii.eqb c dquote.

(** [s.replace(re, empty)] where [re] is a single or double quote
    anchored at the end of the input: drops one quote character standing
    at the very end of the string. *)
Definition stripTrailingQuote (l : list ascii) : list ascii :=
  match rev l with
  | c :: r => if isQuote c then rev r else l
  | [] => l
  end.

(** [s.split(re)] for a regular expression [re] that matches exactly the
    non-empty runs of characters satisfying [sep] when [greedy], and
    exactly one such character otherwise.  [cur] is the piece being
    collected (reversed), [inSep] tells whether the previous character
    belonged to a separator run. *)
Fixpoint splitGo (sep : ascii -> bool) (greedy : bool)
         (cur : list ascii) (inSep : bool) (l : list ascii)
  : list (list ascii) :=
  match l with
  | [] => [rev cur]
  | c :: r =>
      if sep c then
        if greedy && inSep then splitGo sep greedy [] true r
        else rev cur :: splitGo sep greedy [] true r
      else splitGo sep greedy (c :: cur) false r
  end.

(** [s.split(/\s+/)] *)
Definition splitSpaces (l : list ascii) : list (list ascii) :=
  splitGo isSpace true [] false l.

Definition isBracket (c : ascii) : bool :=
  Ascii.eqb c "<"%char || Ascii.eqb c ">"%char.

(** [s.split(/[^<>]/)] *)
Definition splitNonBrackets (l : list ascii) : list (list ascii) :=
  splitGo (fun c => negb (isBracket c)) false [] false l.

(** [arr.pop()] / [arr.at(-1)]: the last element, if any. *)
Definition lastOpt {A} (l : list A) : option A :=
  match rev l with
  | x :: _ => Some x
  | [] => None
  end.

(** [s.endsWith("=")] *)
Definition endsWithEq (l : list ascii) : bool :=
  match rev l with
  | c :: _ => Ascii.eqb c "="%char
  | [] => false
  end.

(** [s.substr(0, s.length - 1)] *)
Definition dropLast (l : list ascii) : list ascii := removelast l.

(** The code units of a string, as numbers.  The strings of a template
    are Latin-1; the capital of a Latin-1 letter need not be, so the
    result of [toUpperCase] is kept as a list of code units. *)
Definition units (l : list ascii) : list nat := map nat_of_ascii l.

(** [c.toUpperCase()] for one Latin-1 code unit: the letters a-z and the
    accented letters from 224 to 254 (without the division sign, 247) move
    down by 32; the sharp s (223) becomes two capital S; the micro sign
    (181) becomes the Greek capital mu (U+039C) and the y with diaeresis
    (255) its capital (U+0178); every other code unit is its own
    capital. *)
Definition upper (c : ascii) : list nat :=
  let n := nat_of_ascii c in
  if (Nat.leb 97 n && Nat.leb n 122)
     || (Nat.leb 224 n && Nat.leb n 254 && negb (Nat.eqb n 247))
  then [n - 32]
  else if Nat.eqb n 223 then [83; 83]
  else if Nat.eqb n 181 then [924]
  else if Nat.eqb n 255 then [376]
  else [n].

(** [s.charAt(0).toUpperCase() + s.slice(1)] *)
Definition capitalize (l : list ascii) : list nat :=
  match l with
  | [] => []
  | c :: r => (upper c ++ units r)%list
  end.

(** [s.startsWith("::")] *)
Definition startsWithColons (s : string) : bool :=
  match s with
  | String a (String b _) => Ascii.eqb a ":"%char && Ascii.eqb b ":"%char
  | _ => false
  end.

(** [s.includes("%")] *)
Definition includesPercent (s : string) : bool :=
  existsb (fun c => Ascii.eqb c "%"%char) (chars s).

End JsString.

(* ------------------------------------------------------------------ *)
(** ** Record.js: the context decoder *)

(** A property key computed at run time: its code units.  A key written
    as a string literal stands for the code units of the literal. *)
Definition Key := list nat.
Definition keyOf (s : string) : Key := JsString.units (JsString.chars s).
Coercion keyOf : string >-> Key.

Fixpoint sameKey (a b : Key) : bool :=
  match a, b with
  | [], [] => true
  | x :: a', y :: b' => Nat.eqb x y && sameKey a' b'
  | _, _ => false
  end.

(** The object literal returned by [decodeAttribute]; the key computed at
    run time (["is" + capitalizedName + "Attribute"]) is kept with the
    name. *)
Inductive Placement :=
| AttributeValueAssignment (attributeName : string) (roleFlag : Key)
| AttributeDomain
| ElementDomain.

Definition roleFlagOf (attributeName : list ascii) : Key :=
  (keyOf "is" ++ JsString.capitalize attributeName ++ keyOf "Attribute")%list.

Definition normalizedCharacterTokens (htmlStr : string) : list ascii :=
  match JsString.lastOpt
          (JsString.splitSpaces
             (JsString.stripTrailingQuote
                (JsString.trim (JsString.chars htmlStr)))) with
  | Some t => t
  | None => []
  end.

Definition bracketCycle (htmlStr : string) : list (list ascii) :=
  filter (fun token => negb (Nat.eqb (List.length token) 0))
         (JsString.splitNonBrackets (JsString.trim (JsString.chars htmlStr))).

Definition decodeAttribute (htmlStr : string) : Placement :=
  let tokens := normalizedCharacterTokens htmlStr in
  if JsString.endsWithEq tokens then
    let attributeName := JsString.dropLast tokens in
    AttributeValueAssignment (JsString.str attributeName)
                             (roleFlagOf attributeName)
  else
    match JsString.lastOpt (bracketCycle htmlStr) with
    | Some ["<"%char] => AttributeDomain
    | _ => ElementDomain
    end.

(** The segment with every character other than the two angle brackets
    dropped (the reading of step 3 of the decoder in the specification). *)
Definition retainedBrackets (htmlStr : string) : list ascii :=
  filter JsString.isBracket (JsString.chars htmlStr).

(* ------------------------------------------------------------------ *)
(** ** Numbers: doubles, [parseFloat], [Number] and [isNaN] on strings,
       [String] on numbers *)

(** A number is an IEEE 754 double (binary64), given by its sign,
    mantissa and exponent: precision 53, infinities at exponent 1024. *)
Definition Number := spec_float.
Definition NaN : Number := S754_nan.

Module JsNumber.
#[local] Open Scope list_scope.

Definition inRange (lo hi : nat) (c : ascii) : bool :=
  let n := nat_of_ascii c in Nat.leb lo n && Nat.leb n hi.

Definition isDigit (c : ascii) : bool := inRange 48 57 c.
Definition isOctalDigit (c : ascii) : bool := inRange 48 55 c.
Definition isBinaryDigit (c : ascii) : bool := inRange 48 49 c.
Definition isHexDigit (c : ascii) : bool :=
  isDigit c || inRange 97 102 c || inRange 65 70 c.

(** The longest prefix of characters satisfying [p], and the rest. *)
Fixpoint span (p : ascii -> bool) (l : list ascii) : list ascii * list ascii :=
  match l with
  | [] => ([], [])
  | c :: r => if p c then let '(a, b) := span p r in (c :: a, b) else ([], l)
  end.

Definition isSign (c : ascii) : bool :=
  Ascii.eqb c "+"%char || Ascii.eqb c "-"%char.

Fixpoint stripPrefix (p l : list ascii) : option (list ascii) :=
  match p, l with
  | [], _ => Some l
  | a :: p', b :: l' => if Ascii.eqb a b then stripPrefix p' l' else None
  | _ :: _, [] => None
  end.

(** An exponent part at the head of [l], if there is one: [e] or [E], an
    optional sign, at least one digit. *)
Definition exponentPart (l : list ascii) : list ascii * list ascii :=
  match l with
  | e :: r =>
      if Ascii.eqb e "e"%char || Ascii.eqb e "E"%char then
        let '(sg, r1) := match r with
                         | c :: r' => if isSign c then ([c], r') else ([], r)
                         | [] => ([], r)
                         end in
        let '(ds, r2) := span isDigit r1 in
        match ds with
        | [] => ([], l)
        | _ => (e :: sg ++ ds, r2)
        end
      else ([], l)
  | [] => ([], l)
  end.

(** The longest prefix of [l] that is an unsigned decimal literal
    ([Infinity], digits with an optional fraction and exponent, or a
    fraction starting with the dot), and the rest. *)
Definition unsignedDecimalPrefix (l : list ascii)
  : option (list ascii * list ascii) :=
  match stripPrefix (JsString.chars "Infinity") l with
  | Some r => Some (JsString.chars "Infinity", r)
  | None =>
      let '(ds1, r1) := span isDigit l in
      let mantissa :=
        match r1 with
        | dot :: r2 =>
            if Ascii.eqb dot "."%char then
              let '(ds2, r3) := span isDigit r2 in
              match ds1, ds2 with
              | [], [] => None
              | _, _ => Some (ds1 ++ dot :: ds2, r3)
              end
            else match ds1 with [] => None | _ => Some (ds1, r1) end
        | [] => match ds1 with [] => None | _ => Some (ds1, r1) end
        end in
      match mantissa with
      | None => None
      | Some (m, r) => let '(e, r') := exponentPart r in Some (m ++ e, r')
      end
  end.

(** The longest prefix that is a decimal literal with an optional sign. *)
Definition decimalPrefix (l : list ascii) : option (list ascii * list ascii) :=
  match l with
  | c :: r =>
      if isSign c then
        match unsignedDecimalPrefix r with
        | Some (lit, rest) => Some (c :: lit, rest)
        | None => None
        end
      else unsignedDecimalPrefix l
  | [] => None
  end.

(** The value of a digit: [0]-[9], [a]-[z] and [A]-[Z] from ten on. *)
Definition digitValue (c : ascii) : Z :=
  let n := nat_of_ascii c in
  Z.of_nat (if Nat.leb 97 n then n - 87 else if Nat.leb 65 n then n - 55 else n - 48).

(** The integer written with the digits [ds] in base [base]. *)
Definition digitsValue (base : Z) (ds : list ascii) : Z :=
  fold_left (fun acc c => (base * acc + digitValue c)%Z) ds 0%Z.

(** The double nearest to [m * 10 ^ e10], ties to even, signed zero for
    [m = 0]: the rounding of a mathematical value to a Number. *)
Definition roundDecimal (negative : bool) (m e10 : Z) : Number :=
  match m with
  | Zpos p =>
      if (0 <=? e10)%Z
      then binary_round 53 1024 negative (p * Z.to_pos (10 ^ e10)) 0
      else SFdiv 53 1024 (S754_finite negative p 0)
                         (S754_finite false (Z.to_pos (10 ^ (- e10))) 0)
  | _ => S754_zero negative
  end.

(** The exponent written by an exponent part ([e], optional sign,
    digits); 0 for the empty part. *)
Definition exponentValue (l : list ascii) : Z :=
  match l with
  | _ :: c :: r =>
      if isSign c
      then (if Ascii.eqb c "-"%char then - digitsValue 10 r else digitsValue 10 r)%Z
      else digitsValue 10 (c :: r)
  | _ => 0%Z
  end.

(** The Number denoted by a decimal literal (StrDecimalLiteral). *)
Definition literalValue (lit : list ascii) : Number :=
  let '(negative, body) :=
    match lit with
    | c :: r => if isSign c then (Ascii.eqb c "-"%char, r) else (false, lit)
    | [] => (false, lit)
    end in
  match stripPrefix (JsString.chars "Infinity") body with
  | Some _ => S754_infinity negative
  | None =>
      let '(ds1, r1) := span isDigit body in
      let '(ds2, r2) :=
        match r1 with
        | dot :: r => if Ascii.eqb dot "."%char then span isDigit r else ([], r1)
        | [] => ([], r1)
        end in
      match ds1 ++ ds2 with
      | [] => NaN
      | ds => roundDecimal negative (digitsValue 10 ds)
                (exponentValue (fst (exponentPart r2)) - Z.of_nat (List.length ds2))
      end
  end.

(** [parseFloat(s)]: leading white space is skipped, then the longest
    decimal literal is read and rounded to a double; [NaN] when there is
    none. *)
Definition parseFloat (s : string) : Number :=
  match decimalPrefix (JsString.trimStart (JsString.chars s)) with
  | Some (lit, _) => literalValue lit
  | None => NaN
  end.

(** [0x], [0o] and [0b] integer literals. *)
Definition isNonDecimalInteger (l : list ascii) : bool :=
  match l with
  | z :: x :: (d :: _) as ds =>
      Ascii.eqb z "0"%char &&
      ((  (Ascii.eqb x "x"%char || Ascii.eqb x "X"%char) && forallb isHexDigit ds)
       || ((Ascii.eqb x "o"%char || Ascii.eqb x "O"%char) && forallb isOctalDigit ds)
       || ((Ascii.eqb x "b"%char || Ascii.eqb x "B"%char) && forallb isBinaryDigit ds))
  | _ => false
  end.

(** [isNaN(s)] on a string: the string is converted with [Number(s)],
    which gives 0 for an empty or blank string, the value of a numeric
    literal surrounded by white space, and [NaN] for anything else. *)
Definition isNaN (s : string) : bool :=
  match JsString.trim (JsString.chars s) with
  | [] => false
  | t =>
      negb (match decimalPrefix t with
            | Some (_, []) => true
            | _ => false
            end
            || isNonDecimalInteger t)
  end.

(** [Number(s)] on a string: 0 for an empty or blank string, the value of
    a decimal literal or of a [0x], [0o] or [0b] integer literal surrounded
    by white space, and [NaN] for anything else. *)
Definition toNumber (s : string) : Number :=
  match JsString.trim (JsString.chars s) with
  | [] => S754_zero false
  | t =>
      match decimalPrefix t with
      | Some (lit, []) => literalValue lit
      | _ =>
          if isNonDecimalInteger t then
            let base :=
              match t with
              | _ :: x :: _ =>
                  if Ascii.eqb x "x"%char || Ascii.eqb x "X"%char then 16%Z
                  else if Ascii.eqb x "o"%char || Ascii.eqb x "O"%char then 8%Z
                  else 2%Z
              | _ => 10%Z
              end in
            roundDecimal false (digitsValue base (skipn 2 t)) 0
          else NaN
      end
  end.

(** The integer a number is, when it is one. *)
Definition integerOf (x : Number) : option Z :=
  match x with
  | S754_zero _ => Some 0%Z
  | S754_finite negative m e =>
      if (0 <=? e)%Z then Some (cond_Zopp negative (Zpos m * 2 ^ e))
      else if (Zpos m mod 2 ^ (- e) =? 0)%Z
           then Some (cond_Zopp negative (Zpos m / 2 ^ (- e)))
           else None
  | _ => None
  end.

(** *** [Number::toString] *)

Definition digitsOf (z : Z) : string := NilEmpty.string_of_uint (N.to_uint (Z.to_N z)).
Fixpoint zeros (n : nat) : string :=
  match n with O => "" | S k => String "0" (zeros k) end.

(** The decimal exponent [n] of a positive rational [num / den]:
    [10 ^ (n - 1) <= num / den < 10 ^ n]. *)
Fixpoint exponentUp (fuel : nat) (num den n : Z) : Z :=
  match fuel with
  | O => n
  | S f => if (num <? den * 10 ^ n)%Z then n else exponentUp f num den (n + 1)
  end.
Fixpoint exponentDown (fuel : nat) (num den n : Z) : Z :=
  match fuel with
  | O => n
  | S f => if (den <=? num * 10 ^ (1 - n))%Z then n else exponentDown f num den (n - 1)
  end.
Definition decimalExponent (num den : Z) : Z :=
  if (den <=? num)%Z then exponentUp 400 num den 1 else exponentDown 400 num den 0.

(** The digits [s] and the exponent [n] of the shortest decimal that
    reads back as the double [v = m * 2 ^ e]: [k] digits, tried for
    [k] from [1] on; of two candidates the nearer one, the even one on a
    tie. *)
Definition candidate (v : Number) (num den n : Z) (k : nat) : option (Z * Z) :=
  let q := (n - Z.of_nat k)%Z in
  let a := (if 0 <=? q then num else num * 10 ^ (- q))%Z in
  let b := (if 0 <=? q then den * 10 ^ q else den)%Z in
  let lo := (a / b)%Z in
  let hi := (lo + 1)%Z in
  let okLo := SFeqb (roundDecimal false lo q) v in
  let okHi := SFeqb (roundDecimal false hi q) v in
  let pick (s : Z) :=
    if (s =? 10 ^ Z.of_nat k)%Z then Some (10 ^ (Z.of_nat k - 1), n + 1)%Z
    else Some (s, n) in
  match okLo, okHi with
  | true, true =>
      match (2 * (a mod b) ?= b)%Z with
      | Lt => pick lo
      | Gt => pick hi
      | Eq => if Z.even lo then pick lo else pick hi
      end
  | true, false => pick lo
  | false, true => pick hi
  | false, false => None
  end.

Fixpoint shortest (v : Number) (num den n : Z) (k fuel : nat) : option (Z * Z) :=
  match fuel with
  | O => None
  | S f =>
      match candidate v num den n k with
      | Some r => Some r
      | None => shortest v num den n (S k) f
      end
  end.

Definition formatDigits (s n : Z) : string :=
  let d := digitsOf s in
  let k := String.length d in
  let kz := Z.of_nat k in
  if ((kz <=? n) && (n <=? 21))%Z then d ++ zeros (Z.to_nat (n - kz))
  else if ((0 <? n) && (n <=? 21))%Z
  then String.substring 0 (Z.to_nat n) d ++ "." ++ String.substring (Z.to_nat n) (k - Z.to_nat n) d
  else if ((-6 <? n) && (n <=? 0))%Z then "0." ++ zeros (Z.to_nat (- n)) ++ d
  else
    let e := (n - 1)%Z in
    (if Nat.eqb k 1 then d
     else String.substring 0 1 d ++ "." ++ String.substring 1 (k - 1) d)
    ++ "e" ++ (if (e <? 0)%Z then "-" else "+") ++ digitsOf (Z.abs e).

Definition toString (x : Number) : string :=
  match x with
  | S754_nan => "NaN"
  | S754_zero _ => "0"
  | S754_infinity s => if s then "-Infinity" else "Infinity"
  | S754_finite sign m e =>
      let num := (if 0 <=? e then Zpos m * 2 ^ e else Zpos m)%Z in
      let den := (if 0 <=? e then 1 else 2 ^ (- e))%Z in
      let n := decimalExponent num den in
      match shortest (S754_finite false m e) num den n 1 17 with
      | Some (s, n') => (if sign then "-" else "") ++ formatDigits s n'
      | None => "NaN"
      end
  end.


End JsNumber.

(** The number written as the decimal literal [literal]. *)
Definition Decimal (literal : string) : Number :=
  JsNumber.literalValue (JsString.chars literal).

(* ------------------------------------------------------------------ *)
(** ** Values of the host language *)

(** Objects that the code mutates or compares by identity (signals, tree
    nodes, maps, functions) are references into the stores of [World]
    below.  The result of a template invocation is the plain object
    [{root, unsubscribe, context}], with a node, a function and a map. *)
Inductive Value :=
| VUndefined
| VNull
| VBoolean (b : bool)
| VNumber (n : Number)
| VString (s : string)
| VFunction (fn : nat)
| VArray (items : list Value)
| VObject (entries : list (string * Value))
| VSignal (ref : nat)
| VNode (ref : nat)
| VMap (ref : nat).

Definition isUndefined (v : Value) : bool :=
  match v with VUndefined => true | _ => false end.

(** [v != null]: neither [null] nor [undefined]. *)
Definition notNullish (v : Value) : bool :=
  match v with VUndefined | VNull => false | _ => true end.

(** [Record.prototype.type] *)
Definition typeName (v : Value) : string :=
  match v with
  | VNull => "null"
  | VUndefined => "undefined"
  | VBoolean _ => "boolean"
  | VNumber _ => "number"
  | VString _ => "string"
  | VFunction _ => "function"
  | VArray _ => "Array"
  | VObject _ => "Object"
  | VSignal _ => "Signal"
  | VNode _ => "XMLNode"   (* the tree builder's node class; never tested for *)
  | VMap _ => "Map"
  end.

(** An unsubscribe handle stored on a record: the closure returned by
    [Signal.prototype.subscribe], that is, the signal and the subscriber it
    deletes. *)
Record Handle := mkHandle { hSignal : nat; hSubscriber : nat }.

(** Record.js, [class Record]. *)
Record RecordT := mkRecord {
  rId : string;
  content : Value;
  unsubscribe : list Handle;
  placement : option Placement
}.

(** The class fields [isTemplateVariable = true] and
    [isTemplateChunk = false]: no key assigned by the constructor can
    replace them (the decoder's keys are [attributeName],
    [isAttributeValueAssignment], [isAttributeDomain], [isElementDomain] and
    one ending in [Attribute]). *)
Definition isTemplateVariable (_ : RecordT) : bool := true.
Definition isTemplateChunk (_ : RecordT) : bool := false.

(** [new Record(id, content, intelligence)] with a string: the decoder's
    result is assigned onto the fresh record. *)
Definition newRecordDecoded (id : string) (c : Value) (intelligence : string)
  : RecordT :=
  mkRecord id c [] (Some (decodeAttribute intelligence)).

(** [new Record(id, content, intelligence)] with an object of flags. *)
Definition newRecordWith (id : string) (c : Value) (intelligence : Placement)
  : RecordT :=
  mkRecord id c [] (Some intelligence).

(** [new Record(id, content)] *)
Definition newRecord (id : string) (c : Value) : RecordT :=
  mkRecord id c [] None.

Definition isAttributeValueAssignment (r : RecordT) : bool :=
  match placement r with Some (AttributeValueAssignment _ _) => true | _ => false end.
Definition isAttributeDomain (r : RecordT) : bool :=
  match placement r with Some AttributeDomain => true | _ => false end.
Definition isElementDomain (r : RecordT) : bool :=
  match placement r with Some ElementDomain => true | _ => false end.
Definition isObjectType (r : RecordT) : bool :=
  String.eqb (typeName (content r)) "Object".

(* ------------------------------------------------------------------ *)
(** ** The record database: a [Map] from id to record *)

Module JsMap.
Section WithValue.
Context {V : Type}.
Definition t := list (string * V).

Fixpoint get (m : t) (k : string) : option V :=
  match m with
  | [] => None
  | (k', v) :: r => if String.eqb k' k then Some v else get r k
  end.

(** [m.set(k, v)]: an existing key keeps its place, a new one goes last. *)
Fixpoint set (m : t) (k : string) (v : V) : t :=
  match m with
  | [] => [(k, v)]
  | (k', v') :: r =>
    if String.eqb k' k then (k', v) :: r else (k', v') :: set r k v
  end.

Definition values (m : t) : list V := map snd m.
Definition keys (m : t) : list string := map fst m.
End WithValue.
Arguments t : clear implicits.
End JsMap.

Definition Database := JsMap.t RecordT.

(* ------------------------------------------------------------------ *)
(** ** xml.js: the marker stream builder *)

(** [String(index)] for an array index. *)
Definition indexString (index : nat) : string :=
  NilEmpty.string_of_uint (Nat.to_uint index).

(** ["::" + index] *)
Definition slotId (index : nat) : string := "::" ++ indexString index.
Arguments slotId : simpl never.

Inductive StreamEntry :=
| Chunk (text : string)        (* { isTemplateChunk: true, content } *)
| Reference (id : string).     (* { isReference: true, id } *)

(** [values[index]]: reading past the end of an array gives [undefined]. *)
Definition valueAt (values : list Value) (index : nat) : Value :=
  nth index values VUndefined.

(** The body of the loop of [createStream], for the remaining [strings]
    starting at [index]. *)
Fixpoint createStreamFrom (index : nat) (context : Database)
         (strings : list string) (values : list Value)
  : list StreamEntry * Database :=
  match strings with
  | [] => ([], context)
  | string :: rest =>
      let c := valueAt values index in
      if isUndefined c then
        let '(stream, context') := createStreamFrom (S index) context rest values in
        (Chunk string :: stream, context')
      else
        let recordId := slotId index in
        let context1 := JsMap.set context recordId (newRecordDecoded recordId c string) in
        let '(stream, context') := createStreamFrom (S index) context1 rest values in
        (Chunk string :: Reference recordId :: stream, context')
  end.

Definition createStream (context : Database) (strings : list string)
           (values : list Value) : list StreamEntry * Database :=
  createStreamFrom 0 context strings values.

(** What [createIntermediateHtml] pushes on [result], tagged with the branch
    that pushed it. *)
Inductive Piece :=
| Raw (text : string)
| AttributeValueMarker (id : string)
| AttributeDomainMarker (id : string)
| ElementMarker (id : string).

Definition pieceText (p : Piece) : string :=
  match p with
  | Raw text => text
  | AttributeValueMarker id => id
  | AttributeDomainMarker id =>
      id ++ "=" ++ String JsString.dquote (String JsString.dquote "")
  | ElementMarker id => "<!--" ++ id ++ "-->"
  end.

Definition isMarker (p : Piece) : bool :=
  match p with Raw _ => false | _ => true end.

Definition markerId (p : Piece) : option string :=
  match p with
  | Raw _ => None
  | AttributeValueMarker id | AttributeDomainMarker id | ElementMarker id => Some id
  end.

(** One round of the loop of [createIntermediateHtml]: the pieces pushed
    for [entry] (at most one), or [None] when destructuring the dereferenced
    fragment throws because the id is not in the database. *)
Definition intermediatePieces (context : Database) (entry : StreamEntry)
  : option (list Piece) :=
  match entry with
  | Chunk text => Some [Raw text]
  | Reference id =>
      match JsMap.get context id with
      | None => None
      | Some fragment =>
          (* [isTemplateChunk fragment] is false for a record *)
          Some (if isTemplateVariable fragment && isAttributeValueAssignment fragment
                     then [AttributeValueMarker id]
                else if isTemplateVariable fragment && isAttributeDomain fragment
                     then [AttributeDomainMarker id]
                else if isTemplateVariable fragment && isElementDomain fragment
                     then [ElementMarker id]
                else [])
      end
  end.

Fixpoint createIntermediatePieces (stream : list StreamEntry) (context : Database)
  : option (list Piece) :=
  match stream with
  | [] => Some []
  | entry :: rest =>
      match intermediatePieces context entry, createIntermediatePieces rest context with
      | Some ps, Some qs => Some (ps ++ qs)%list
      | _, _ => None
      end
  end.

(** [createIntermediateHtml]: the pieces joined with the empty separator. *)
Definition createIntermediateHtml (stream : list StreamEntry) (context : Database)
  : option string :=
  option_map (fun ps => String.concat "" (map pieceText ps))
             (createIntermediatePieces stream context).

Definition exampleValues : list Value :=
  [VObject [("color", VString "red")]; VNumber (Decimal "200"); VUndefined; VString "x"].
Definition exampleStrings : list string :=
  ["<Panel "; " width=" ++ String JsString.dquote ""; String JsString.dquote "" ++ ">"; "<b>"; "</b></Panel>"].

(* ------------------------------------------------------------------ *)
(** ** Operators of the host language used by the code *)

(** [looseEq a b] is [a == b]; [stringOf v] is [String(v)];
    [globalBinding x] is the value of the identifier [x] in the global
    scope, if it is bound there; [classes v] is the set of class tokens
    that the global function [classes] returns for [v], on a host whose
    global scope binds that name to a function (the class binding calls
    it, and no file of the sources defines or imports it). *)
Class Host := {
  looseEq : Value -> Value -> bool;
  stringOf : Value -> string;
  classes : Value -> list string;
  globalBinding : string -> option Value
}.

(* ------------------------------------------------------------------ *)
(** ** Signal.js *)

(** A [Set] of function objects, kept in insertion order; functions are
    compared by identity, which is a number here. *)
Module JsSet.
Definition t := list nat.
Definition has (s : t) (k : nat) : bool := existsb (Nat.eqb k) s.
(** [s.add(k)] *)
Definition add (s : t) (k : nat) : t := if has s k then s else (s ++ [k])%list.
(** [s.delete(k)] *)
Definition delete (s : t) (k : nat) : t :=
  filter (fun x => negb (Nat.eqb x k)) s.
End JsSet.

Module Signal.

(** The private fields [#id], [#value], [#subscribers] and the public
    field [v] (written by the constructor only). *)
Record t := mk {
  id : string;
  value : Value;
  v : Value;
  subscribers : JsSet.t
}.

(** A call [subscriber(arg)] made by the signal.  The body of a
    subscriber is not part of Signal.js: a call is recorded as an event,
    in the order the calls are made. *)
Definition Call : Type := nat * Value.

(** [new Signal(value, {id})] *)
Definition new (i : string) (value0 : Value) : t := mk i value0 value0 [].

(** [notify()] *)
Definition notify (s : t) : list Call :=
  map (fun subscriber => (subscriber, value s)) (subscribers s).

(** [set value(newValue)] *)
Definition setValue `{Host} (s : t) (newValue : Value) : t * list Call :=
  if looseEq newValue (value s) then (s, [])
  else
    let s' := mk (id s) newValue (v s) (subscribers s) in
    (s', notify s').

(** [subscribe(subscriber)]: the signal afterwards and the calls made.
    The function returned by the code is [unsubscribe] below applied to
    the same subscriber. *)
Definition subscribe (s : t) (subscriber : nat) : t * list Call :=
  (mk (id s) (value s) (v s) (JsSet.add (subscribers s) subscriber),
   if notNullish (value s) then [(subscriber, value s)] else []).

(** The closure [() => this.#subscribers.delete(subscriber)]. *)
Definition unsubscribe (s : t) (subscriber : nat) : t :=
  mk (id s) (value s) (v s) (JsSet.delete (subscribers s) subscriber).

(** The subscribers called by a list of calls. *)
Definition receivers (calls : list Call) : list nat := map fst calls.

End Signal.

(** A host on which examples are evaluated.  Its signals are the ones a
    fresh id counter makes (the signal at index [ref] has the id
    [id<ref+1>]), and its function number [n] is declared as
    [function f<n>() {}], which is also its source text.  An array or a
    plain object written as a value is a new object every time. *)

(** [String(a)]: [Number::toString] on a number, the elements joined with
    commas on an array (nothing for [null] and [undefined]), the id on a
    signal ([Symbol.toPrimitive]), the source text on a function. *)
Fixpoint sampleStringOf (a : Value) : string :=
  match a with
  | VString x => x
  | VNumber x => JsNumber.toString x
  | VNull => "null"
  | VUndefined => "undefined"
  | VBoolean true => "true"
  | VBoolean false => "false"
  | VArray items =>
      String.concat ","
        (map (fun item => match item with
                          | VNull | VUndefined => ""
                          | _ => sampleStringOf item
                          end) items)
  | VSignal ref => "id" ++ indexString (S ref)
  | VFunction n => "function f" ++ indexString n ++ "() {}"
  | VMap _ => "[object Map]"
  | VObject _ | VNode _ => "[object Object]"
  end.

Definition isObject (a : Value) : bool :=
  match a with
  | VFunction _ | VArray _ | VObject _ | VSignal _ | VNode _ | VMap _ => true
  | _ => false
  end.

(** [ToPrimitive(a)]: every object of the sample host converts to its
    string. *)
Definition toPrimitive (a : Value) : Value :=
  if isObject a then VString (sampleStringOf a) else a.

(** [ToNumber] of a boolean. *)
Definition boolNumber (b : bool) : Number :=
  if b then Decimal "1" else S754_zero false.

(** [==] between two primitive values of which at most one is [null] or
    [undefined]: equal numbers (NaN equals nothing, the two zeros are
    equal), equal strings, equal booleans; a string compared with a number
    is converted with [Number], and so is a boolean. *)
Definition primitiveEq (a b : Value) : bool :=
  match a, b with
  | VNumber x, VNumber y => SFeqb x y
  | VString x, VString y => String.eqb x y
  | VBoolean x, VBoolean y => Bool.eqb x y
  | VNumber x, VString y | VString y, VNumber x => SFeqb x (JsNumber.toNumber y)
  | VBoolean x, VNumber y | VNumber y, VBoolean x => SFeqb (boolNumber x) y
  | VBoolean x, VString y | VString y, VBoolean x =>
      SFeqb (boolNumber x) (JsNumber.toNumber y)
  | _, _ => false
  end.

(** [a == b]: [null] and [undefined] equal each other and nothing else;
    two objects are equal when they are the same object; an object
    compared with a primitive value is converted first. *)
Definition sampleLooseEq (a b : Value) : bool :=
  match a, b with
  | (VUndefined | VNull), (VUndefined | VNull) => true
  | (VUndefined | VNull), _ | _, (VUndefined | VNull) => false
  | VFunction x, VFunction y => Nat.eqb x y
  | VSignal x, VSignal y => Nat.eqb x y
  | VNode x, VNode y => Nat.eqb x y
  | VMap x, VMap y => Nat.eqb x y
  | _, _ =>
      if isObject a && isObject b then false
      else primitiveEq (toPrimitive a) (toPrimitive b)
  end.

(** The global scope of the sample host binds none of the identifiers the
    sources read from it. *)
Definition sampleHost : Host :=
  {| looseEq := sampleLooseEq;
     stringOf := sampleStringOf;
     classes := fun a => match a with VString x => [x] | _ => [] end;
     globalBinding := fun _ => None |}.

(** *** What the two loops compute, index by index

    [slotRecord], [streamOf], [recordsOf] and [piecesOf] describe the
    stream, the database entries and the pieces contributed by the literal
    segments from [index] on; the properties below relate them to the
    loops of [createStream] and [createIntermediateHtml]. *)

Definition slotRecord (values : list Value) (index : nat) (string : string)
  : RecordT :=
  newRecordDecoded (slotId index) (valueAt values index) string.

Definition slotMarker (index : nat) (string : string) : Piece :=
  match decodeAttribute string with
  | AttributeValueAssignment _ _ => AttributeValueMarker (slotId index)
  | AttributeDomain => AttributeDomainMarker (slotId index)
  | ElementDomain => ElementMarker (slotId index)
  end.

Fixpoint streamOf (index : nat) (strings : list string) (values : list Value)
  : list StreamEntry :=
  match strings with
  | [] => []
  | string :: rest =>
      Chunk string
      :: (if isUndefined (valueAt values index) then []
          else [Reference (slotId index)])
      ++ streamOf (S index) rest values
  end%list.

Fixpoint recordsOf (index : nat) (strings : list string) (values : list Value)
  : Database :=
  match strings with
  | [] => []
  | string :: rest =>
      (if isUndefined (valueAt values index) then []
       else [(slotId index, slotRecord values index string)])
      ++ recordsOf (S index) rest values
  end%list.

Fixpoint piecesOf (index : nat) (strings : list string) (values : list Value)
  : list Piece :=
  match strings with
  | [] => []
  | string :: rest =>
      Raw string
      :: (if isUndefined (valueAt values index) then []
          else [slotMarker index string])
      ++ piecesOf (S index) rest values
  end%list.

(** The number of indices below [n], from [index] on, at which a value is
    defined. *)
Fixpoint definedFrom (index n : nat) (values : list Value) : nat :=
  match n with
  | 0 => 0
  | S m => (if isUndefined (valueAt values index) then 0 else 1)
           + definedFrom (S index) m values
  end.

(** The marker of slot [index] as it stands in the markup, by the answer
    of the decoder for the literal segment before it: the bare id in an
    attribute value, the id followed by an equals sign and two double
    quotes in an open tag, a comment holding the id in element content. *)
Definition markerTextOf (index : nat) (segment : string) : string :=
  match decodeAttribute segment with
  | AttributeValueAssignment _ _ => slotId index
  | AttributeDomain =>
      slotId index ++ "=" ++ String JsString.dquote (String JsString.dquote "")
  | ElementDomain => "<!--" ++ slotId index ++ "-->"
  end.

(** The markup for the literal segments from [index] on: every segment
    verbatim, followed by the marker of its slot when the value there is
    defined. *)
Fixpoint markupOf (index : nat) (strings : list string) (values : list Value)
  : string :=
  match strings with
  | [] => ""
  | segment :: rest =>
      segment
      ++ (if isUndefined (valueAt values index) then ""
          else markerTextOf index segment)
      ++ markupOf (S index) rest values
  end.

Definition markerCount (pieces : list Piece) : nat :=
  List.length (filter isMarker pieces).

Definition hasMarkerId (id : string) (p : Piece) : bool :=
  match markerId p with
  | Some id' => String.eqb id' id
  | None => false
  end.

Definition markersWithId (id : string) (pieces : list Piece) : nat :=
  List.length (filter (hasMarkerId id) pieces).

(** xml.js, [parseElementAttributeValue]. *)
Definition parseElementAttributeValue (value : Value) : Value :=
  match value with
  | VString s =>
      if JsString.includesPercent s then
        VObject [("value", VNumber (JsNumber.parseFloat s)); ("unit", VString "%")]
      else if negb (JsNumber.isNaN s) then VNumber (JsNumber.parseFloat s)
      else value
  | _ => value
  end.

(* ------------------------------------------------------------------ *)
(** ** The tree and the stores *)

Record Attribute := mkAttribute { name : string; value : Value }.

(** Modelled from the spec: the tree builder (XMLParser.js) is not among
    the sources.  Its tree has element nodes with an ordered, mutable
    attribute list and children, and comment nodes with literal text; a
    node object has an identity, [nid].  A cell of the attribute array is
    [None] once the code has applied [delete] to it. *)
Inductive Node :=
| Element (nid : nat) (tag : string) (attributes : list (option Attribute))
          (children : list Node)
| Comment (nid : nat) (text : string)
| Text (nid : nat) (text : string).

(** The signals created so far (a reference is a position in the list) and
    the module-level counter [id] of [generateId]. *)
Record World := mkWorld {
  signals : list Signal.t;
  nextId : nat
}.

(** The state of a freshly loaded module: [let id = 1]. *)
Definition initialWorld : World := mkWorld [] 1.

(** ['id' + n] *)
Definition counterId (n : nat) : string := "id" ++ indexString n.
Arguments counterId : simpl never.

(** [generateId()]: ['id' + id++] *)
Definition generateId (w : World) : string * World :=
  (counterId (nextId w), mkWorld (signals w) (S (nextId w))).

(** [new Signal(value)]: the reference of the new signal, its id, and the
    world afterwards. *)
Definition newSignal (w : World) (value0 : Value) : nat * string * World :=
  let '(i, w1) := generateId w in
  (List.length (signals w1), i,
   mkWorld (signals w1 ++ [Signal.new i value0])%list (nextId w1)).

(* ------------------------------------------------------------------ *)
(** ** xml.js: attribute interpolation with spread expansion *)

(** An element of [newAttributes]: [{ after, name, value }]. *)
Record Pending := mkPending {
  after : nat;
  pendingName : string;
  pendingValue : Value
}.

(** What the loop over the attributes of one node reads and writes. *)
Record Scan := mkScan {
  scanWorld : World;
  scanDatabase : Database;
  scanAttributes : list (option Attribute);
  newAttributes : list Pending
}.

(** [Object.entries(v)] of a plain object, in enumeration order. *)
Definition objectEntries (v : Value) : list (string * Value) :=
  match v with
  | VObject entries => entries
  | _ => []
  end.

(** [a[index] = x] for an index inside the array. *)
Fixpoint setCell {A} (index : nat) (x : A) (l : list A) : list A :=
  match l, index with
  | [], _ => []
  | _ :: r, 0 => x :: r
  | y :: r, S i => y :: setCell i x r
  end.

(** [a.splice(start, 0, x)]: insertion before position [start], at the end
    when [start] is past it. *)
Fixpoint spliceIn {A} (start : nat) (x : A) (l : list A) : list A :=
  match start, l with
  | 0, _ => x :: l
  | S _, [] => [x]
  | S i, y :: r => y :: spliceIn i x r
  end.

(** The branch [if (isPlainAttribute)]. *)
Definition upgradePlain (st : Scan) (index : nat) (attribute : Attribute) : Scan :=
  let parsed := parseElementAttributeValue (value attribute) in
  let '(ref, signalId, w) := newSignal (scanWorld st) parsed in
  mkScan w
         (JsMap.set (scanDatabase st) signalId (newRecord signalId (VSignal ref)))
         (setCell index (Some (mkAttribute (name attribute) (VSignal ref)))
                  (scanAttributes st))
         (newAttributes st).

(** The loop over [Object.entries(packet.content)] of the spread branch;
    [localIndex] starts at 1. *)
Fixpoint expandEntries (spreadName : string) (index localIndex : nat)
         (entries : list (string * Value)) (st : Scan) : Scan :=
  match entries with
  | [] => st
  | (attributeName, c) :: rest =>
      let '(ref, _, w) := newSignal (scanWorld st) c in
      let recordId := spreadName ++ "-" ++ attributeName in
      let intelligence :=
        AttributeValueAssignment attributeName
                                 (roleFlagOf (JsString.chars attributeName)) in
      let attributePayload := newRecordWith recordId c intelligence in
      expandEntries spreadName index (S localIndex) rest
        (mkScan w
                (JsMap.set (scanDatabase st) recordId attributePayload)
                (scanAttributes st)
                (newAttributes st
                 ++ [mkPending (index + localIndex) attributeName (VSignal ref)])%list)
  end.

(** The branch [if (isSpreadReference)]. *)
Definition expandSpread (st : Scan) (index : nat) (attribute : Attribute) : Scan :=
  let st1 :=
    match JsMap.get (scanDatabase st) (name attribute) with
    | Some packet =>
        if isObjectType packet
        then expandEntries (name attribute) index 1 (objectEntries (content packet)) st
        else st
    | None => st
    end in
  mkScan (scanWorld st1) (scanDatabase st1)
         (setCell index None (scanAttributes st1))   (* delete node.attributes[index] *)
         (newAttributes st1).

(** One round of [for (const [index, attribute] of node.attributes.entries())]. *)
Definition scanAttribute (st : Scan) (index : nat) (attribute : Attribute) : Scan :=
  let isPlainAttribute := negb (JsString.startsWithColons (name attribute)) in
  let isSpreadReference := JsString.startsWithColons (name attribute) in
  let st1 := if isPlainAttribute then upgradePlain st index attribute else st in
  if isSpreadReference then expandSpread st1 index attribute else st1.

Fixpoint scanFrom (index : nat) (attributes : list Attribute) (st : Scan) : Scan :=
  match attributes with
  | [] => st
  | attribute :: rest => scanFrom (S index) rest (scanAttribute st index attribute)
  end.

(** The second loop: [node.attributes.splice(after, 0, {name, value})]. *)
Fixpoint applySplices (pending : list Pending) (attributes : list (option Attribute))
  : list (option Attribute) :=
  match pending with
  | [] => attributes
  | p :: rest =>
      applySplices rest
        (spliceIn (after p) (Some (mkAttribute (pendingName p) (pendingValue p)))
                  attributes)
  end.

(** The callback passed to [root.walk] by [interpolateAttributes], on a
    node whose attribute array is [attributes] (as the builder leaves it,
    without holes). *)
Definition interpolateNodeAttributes (w : World) (database : Database)
           (attributes : list Attribute)
  : World * Database * list (option Attribute) :=
  let st := scanFrom 0 attributes (mkScan w database (map Some attributes) []) in
  (scanWorld st, scanDatabase st, applySplices (newAttributes st) (scanAttributes st)).

(** *** A node with one spread marker: what the two loops leave behind

    [upgradeFrom base attributes] are the cells of plain attributes once
    each holds the signal made for it, the first one the signal [base];
    [pendingFrom] and [spreadFrom] are the staged and the spliced
    attributes of the fields of a spread value. *)
Fixpoint upgradeFrom (base : nat) (attributes : list Attribute)
  : list (option Attribute) :=
  match attributes with
  | [] => []
  | a :: rest => Some (mkAttribute (name a) (VSignal base)) :: upgradeFrom (S base) rest
  end.



Definition isPlain (a : Attribute) : Prop :=
  JsString.startsWithColons (name a) = false.

(** *** The reading of the specification: a numeric string becomes a
    number, a numeric string followed by a percent sign a value/unit pair,
    any other string stays a string. *)

Definition isNumericString (s : string) : bool :=
  match JsString.trim (JsString.chars s) with
  | [] => false
  | _ => negb (JsNumber.isNaN s)
  end.

Definition parseAsSpecified (s : string) : Value :=
  if isNumericString s then VNumber (JsNumber.parseFloat s)
  else
    match rev (JsString.chars s) with
    | c :: r =>
        if Ascii.eqb c "%"%char && isNumericString (JsString.str (rev r))
        then VObject [("value", VNumber (JsNumber.parseFloat (JsString.str (rev r))));
                      ("unit", VString "%")]
        else VString s
    | [] => VString s
    end.

(** *** What a stretch of the attribute loop leaves alone

    [preserves lo hi st st'] holds of the states before and after the
    rounds for the indices from [lo] up to (excluding) [hi]: signals are
    only appended, the counter only grows, records filed under ids the
    counter has already given out stay as they are, and so do the attribute
    cells outside the stretch. *)
Definition preserves (lo hi : nat) (st st' : Scan) : Prop :=
  (exists extra,
     signals (scanWorld st') = (signals (scanWorld st) ++ extra)%list) /\
  nextId (scanWorld st) <= nextId (scanWorld st') /\
  (forall m, m < nextId (scanWorld st) ->
     JsMap.get (scanDatabase st') (counterId m)
     = JsMap.get (scanDatabase st) (counterId m)) /\
  (forall j, j < lo \/ hi <= j ->
     nth_error (scanAttributes st') j = nth_error (scanAttributes st) j) /\
  List.length (scanAttributes st') = List.length (scanAttributes st).

(* ------------------------------------------------------------------ *)
(** ** Outcomes of code that may throw *)

Inductive JsError :=
| ReferenceError (identifier : string)   (* [identifier] is not defined *)
| TypeError                              (* a property of undefined, a call of a non-function *)
| Error (message : string).              (* [throw new Error(message)] *)

Inductive Outcome (A : Type) :=
| Returned (a : A)
| Thrown (e : JsError).
Arguments Returned {A} a.
Arguments Thrown {A} e.

Definition bind {A B} (o : Outcome A) (k : A -> Outcome B) : Outcome B :=
  match o with
  | Returned a => k a
  | Thrown e => Thrown e
  end.

Notation "x <- o ;; k" := (bind o (fun x => k))
  (at level 61, o at next level, right associativity).
Notation "' p <- o ;; k" := (bind o (fun x => let p := x in k))
  (at level 61, p pattern, o at next level, right associativity).

(* ------------------------------------------------------------------ *)
(** ** Operations of the tree builder's nodes *)

Definition nodeId (n : Node) : nat :=
  match n with
  | Element i _ _ _ | Comment i _ | Text i _ => i
  end.

(** Modelled from the spec: the children accessor. *)
Definition childrenOf (n : Node) : list Node :=
  match n with
  | Element _ _ _ cs => cs
  | _ => []
  end.

(** The identities of a node and of everything below it, in document
    order. *)
Fixpoint treeIds (n : Node) : list nat :=
  match n with
  | Element i _ _ cs => i :: flat_map treeIds cs
  | Comment i _ | Text i _ => [i]
  end.

(** Modelled from the spec: [root.findType(1, predicate)], the lookup of
    marker-bearing nodes by a predicate over their literal text: the
    comment nodes below [root] whose text satisfies the predicate, in
    document order, each given by its identity and its text. *)
Fixpoint findComments (predicate : string -> bool) (n : Node) : list (nat * string) :=
  match n with
  | Element _ _ _ cs => flat_map (findComments predicate) cs
  | Comment i text => if predicate text then [(i, text)] else []
  | Text _ _ => []
  end.

(** Modelled from the spec: sibling insertion, [target.after(...nodes)],
    inside the tree [n]: the nodes are placed, in order, right after the
    node whose identity is [target]. *)
Fixpoint insertAfter (target : nat) (nodes : list Node) (n : Node) : Node :=
  match n with
  | Element i t a cs =>
      Element i t a
        (flat_map (fun c => if Nat.eqb (nodeId c) target
                            then (c :: nodes)%list
                            else [insertAfter target nodes c]) cs)
  | _ => n
  end.

(** Modelled from the spec: self-removal, [target.remove()], inside the
    tree [n]. *)
Fixpoint removeNode (target : nat) (n : Node) : Node :=
  match n with
  | Element i t a cs =>
      Element i t a
        (flat_map (fun c => if Nat.eqb (nodeId c) target
                            then []
                            else [removeNode target c]) cs)
  | _ => n
  end.

(* ------------------------------------------------------------------ *)
(** ** xml.js: node interpolation *)

(** The objects a nested template result refers to: its record database
    (a [Map], emptied by the parent) and its root node. *)
Record Heap := mkHeap {
  maps : list Database;
  roots : list Node
}.

(** [o.key] on a value: the entry of a plain object, [undefined] when there
    is none. *)
Definition property (v : Value) (key : string) : Value :=
  match JsMap.get (objectEntries v) key with
  | Some x => x
  | None => VUndefined
  end.

(** [remoteContext.forEach((value, key) => database.set(key, value))] *)
Definition mergeInto (database remoteContext : Database) : Database :=
  fold_left (fun db kv => JsMap.set db (fst kv) (snd kv)) remoteContext database.

(** The body of [if (record) { ... }] in [interpolateNodes]: the database
    and the heap afterwards and the nodes pushed on [nodesToImport].
    Destructuring [null] or [undefined] throws, and so do [forEach] on
    something that is not a map and [children] of something that is not a
    node. *)
Definition importRecord (h : Heap) (database : Database) (record : RecordT)
  : Outcome (Database * Heap * list Node) :=
  if notNullish (content record) then
    match property (content record) "context", property (content record) "root" with
    | VMap m, rootValue =>
        match nth_error (maps h) m with
        | Some remoteContext =>
            let database' := mergeInto database remoteContext in
            let h' := mkHeap (setCell m [] (maps h)) (roots h) in  (* remoteContext.clear() *)
            match rootValue with
            | VNode r =>
                match nth_error (roots h) r with
                | Some root => Returned (database', h', childrenOf root)
                | None => Thrown TypeError
                end
            | _ => Thrown TypeError
            end
        | None => Thrown TypeError
        end
    | _, _ => Thrown TypeError
    end
  else Thrown TypeError.

(** What one round of the loop over [commentNodes] computes apart from the
    tree: the lookup of the marker's record and the import. *)
Definition importFor (h : Heap) (database : Database) (text : string)
  : Outcome (Database * Heap * list Node) :=
  match JsMap.get database text with
  | Some record => importRecord h database record
  | None => Returned (database, h, [])
  end.

(** The state of [interpolateNodes]: the database, the heap, the tree, and
    the markers for which [console.warn] was called. *)
Record NodesState := mkNodesState {
  nsDatabase : Database;
  nsHeap : Heap;
  nsRoot : Node;
  nsWarnings : list nat
}.

(** One round of [for (const commentNode of commentNodes)]. *)
Definition importMarker (st : NodesState) (commentNode : nat * string)
  : Outcome NodesState :=
  '(database', h', nodesToImport) <-
     importFor (nsHeap st) (nsDatabase st) (snd commentNode) ;;
  Returned
    (if Nat.ltb 0 (List.length nodesToImport)
     then mkNodesState database' h'
                       (insertAfter (fst commentNode) nodesToImport (nsRoot st))
                       (nsWarnings st)
     else mkNodesState database' h' (nsRoot st)
                       (nsWarnings st ++ [fst commentNode])%list).

Fixpoint importMarkers (commentNodes : list (nat * string)) (st : NodesState)
  : Outcome NodesState :=
  match commentNodes with
  | [] => Returned st
  | commentNode :: rest => st' <- importMarker st commentNode ;; importMarkers rest st'
  end.

(** [for (const node of nodesToRemove) node.remove()] *)
Definition removeMarkers (nodesToRemove : list nat) (root : Node) : Node :=
  fold_left (fun tree target => removeNode target tree) nodesToRemove root.

(** [interpolateNodes(root, database)] *)
Definition interpolateNodes (h : Heap) (database : Database) (root : Node)
  : Outcome NodesState :=
  let commentNodes := findComments JsString.startsWithColons root in
  match commentNodes with
  | [] => Returned (mkNodesState database h root [])
  | _ =>
      st <- importMarkers commentNodes (mkNodesState database h root []) ;;
      Returned (mkNodesState (nsDatabase st) (nsHeap st)
                             (removeMarkers (map fst commentNodes) (nsRoot st))
                             (nsWarnings st))
  end.

(** *** What node interpolation computes, marker by marker

    [importPlan] is the loop over the markers without the tree: the
    database and the heap at the end, and for every marker the nodes to
    import.  [replaceMarkers] puts, in one pass over the tree, the planned
    nodes in the place of every marker. *)

Fixpoint importPlan (commentNodes : list (nat * string)) (h : Heap)
         (database : Database)
  : Outcome (Database * Heap * list (nat * list Node)) :=
  match commentNodes with
  | [] => Returned (database, h, [])
  | commentNode :: rest =>
      '(database1, h1, nodes) <- importFor h database (snd commentNode) ;;
      '(database2, h2, plan) <- importPlan rest h1 database1 ;;
      Returned (database2, h2, (fst commentNode, nodes) :: plan)
  end.

Fixpoint planFor (plan : list (nat * list Node)) (target : nat)
  : option (list Node) :=
  match plan with
  | [] => None
  | (i, nodes) :: rest => if Nat.eqb i target then Some nodes else planFor rest target
  end.

Fixpoint replaceMarkers (plan : list (nat * list Node)) (n : Node) : Node :=
  match n with
  | Element i t a cs =>
      Element i t a
        (flat_map (fun c => match planFor plan (nodeId c) with
                            | Some nodes => nodes
                            | None => [replaceMarkers plan c]
                            end) cs)
  | _ => n
  end.

(** The markers of a plan that import nothing: the ones warned about. *)
Definition emptyImports (plan : list (nat * list Node)) : list nat :=
  map fst (filter (fun p => negb (Nat.ltb 0 (List.length (snd p)))) plan).

(** A node and everything below it, in document order. *)
Fixpoint nodesOf (n : Node) : list Node :=
  match n with
  | Element _ _ _ cs => n :: flat_map nodesOf cs
  | _ => [n]
  end.

(** The forest versions of the tree operations. *)
Definition insertAfterForest (target : nat) (nodes : list Node) (l : list Node)
  : list Node :=
  flat_map (fun c => if Nat.eqb (nodeId c) target
                     then (c :: nodes)%list
                     else [insertAfter target nodes c]) l.

Definition removeForest (target : nat) (l : list Node) : list Node :=
  flat_map (fun c => if Nat.eqb (nodeId c) target then [] else [removeNode target c]) l.

Definition replaceForest (plan : list (nat * list Node)) (l : list Node)
  : list Node :=
  flat_map (fun c => match planFor plan (nodeId c) with
                     | Some nodes => nodes
                     | None => [replaceMarkers plan c]
                     end) l.

(** The insertions of a whole plan, in its order, on a tree and on a
    forest. *)
Definition insertPlanned (p : nat * list Node) (tree : Node) : Node :=
  if Nat.ltb 0 (List.length (snd p)) then insertAfter (fst p) (snd p) tree else tree.

Definition insertPlannedForest (p : nat * list Node) (l : list Node) : list Node :=
  if Nat.ltb 0 (List.length (snd p)) then insertAfterForest (fst p) (snd p) l else l.

(** The insertions of a plan and the removals of its markers, on a tree
    and on forests. *)
Definition insertAll (plan : list (nat * list Node)) (tree : Node) : Node :=
  fold_left (fun tree p => insertPlanned p tree) plan tree.
Definition insertAllForest (plan : list (nat * list Node)) (l : list Node)
  : list Node :=
  fold_left (fun l p => insertPlannedForest p l) plan l.
Definition removeAllForest (targets : list nat) (l : list Node) : list Node :=
  fold_left (fun l target => removeForest target l) targets l.

(** Every node of the forest whose identity is among [targets] is a
    comment. *)
Definition markersAreComments (targets : list nat) (l : list Node) : Prop :=
  forall c, In c (flat_map nodesOf l) -> In (nodeId c) targets ->
            exists text, c = Comment (nodeId c) text.

(** Induction on trees, with the hypothesis for every child. *)
Fixpoint Node_forall_ind (P : Node -> Prop)
         (HE : forall i t a cs, Forall P cs -> P (Element i t a cs))
         (HC : forall i text, P (Comment i text))
         (HT : forall i text, P (Text i text))
         (n : Node) : P n :=
  match n with
  | Element i t a cs =>
      HE i t a cs
         ((fix go (l : list Node) : Forall P l :=
             match l with
             | [] => Forall_nil P
             | c :: r => Forall_cons c (Node_forall_ind P HE HC HT c) (go r)
             end) cs)
  | Comment i text => HC i text
  | Text i text => HT i text
  end.

(** *** A parent template with one content marker

    The nested result has two top-level children and one database entry;
    the parent tree holds the marker [::0] inside an element. *)
Definition nestedRootExample : Node :=
  Element 10 "root" []
          [Element 11 "Text" [] []; Element 12 "Label" [] [Text 13 "hello"]].

Definition nestedDatabaseExample : Database :=
  [("id1", newRecord "id1" (VSignal 0))].

Definition heapExample : Heap :=
  mkHeap [nestedDatabaseExample] [nestedRootExample].

Definition templateResultExample : Value :=
  VObject [("root", VNode 0); ("unsubscribe", VFunction 0); ("context", VMap 0)].

Definition parentDatabaseExample : Database :=
  [("::0", newRecordDecoded "::0" templateResultExample "<VGroup>")].

Definition parentRootExample : Node :=
  Element 0 "root" []
          [Element 1 "VGroup" [] [Text 2 "a"; Comment 3 "::0"; Text 4 "b"]].

(** *** Two content markers, the first nested result with a slot [::1] of
    its own

    The parent template holds the results of the two nested templates
    [<b x=${1} y=${2}/>] and [<c/>] in element content.  The database of
    the first result has the records [::0] and [::1] of its own two values
    and the records of the two signals made for the attributes [x] and
    [y]; the parent holds the two results under [::0] and [::1]. *)
Definition collidingHeapExample : Heap :=
  mkHeap
    [[("::0", newRecordDecoded "::0" (VNumber (Decimal "1")) "<b x=");
      ("::1", newRecordDecoded "::1" (VNumber (Decimal "2")) " y=");
      ("id1", newRecord "id1" (VSignal 0));
      ("id2", newRecord "id2" (VSignal 1))];
     []]
    [Element 10 "root" []
       [Element 11 "b" [Some (mkAttribute "x" (VSignal 0));
                        Some (mkAttribute "y" (VSignal 1))] []];
     Element 20 "root" [] [Element 21 "c" [] []]].

Definition collidingDatabaseExample : Database :=
  [("::0", newRecordDecoded "::0"
             (VObject [("root", VNode 0); ("unsubscribe", VFunction 0);
                       ("context", VMap 0)]) "<a>");
   ("::1", newRecordDecoded "::1"
             (VObject [("root", VNode 1); ("unsubscribe", VFunction 0);
                       ("context", VMap 1)]) "")].

Definition collidingRootExample : Node :=
  Element 0 "root" [] [Element 1 "a" [] [Comment 2 "::0"; Comment 3 "::1"]].

(* ------------------------------------------------------------------ *)
(** ** Identifiers and scopes *)

(** The bindings of module level in the sources: none of the files binds
    [graph] or [classes]. *)
Definition moduleScope : list (string * Value) :=
  [("parser", VObject []); ("xml", VFunction 0); ("createStream", VFunction 1);
   ("createIntermediateHtml", VFunction 2); ("parseElementAttributeValue", VFunction 3);
   ("interpolateAttributes", VFunction 4); ("interpolateNodes", VFunction 5);
   ("interpolateNodes3", VFunction 6); ("Signal", VFunction 7); ("Record", VFunction 8);
   ("XMLParser", VFunction 9); ("id", VNumber (Decimal "1")); ("generateId", VFunction 10);
   ("interpolateAttributes2", VFunction 11);
   ("interpolateAttributesPlainProcessor", VFunction 12);
   ("interpolateAttributesDomlikeProcessor", VFunction 13);
   ("decodeAttribute", VFunction 14)].

(** The value of an identifier: the innermost binding, then the global
    scope; an unbound identifier throws. *)
Definition resolve `{Host} (scope : list (string * Value)) (identifier : string)
  : Outcome Value :=
  match JsMap.get scope identifier with
  | Some x => Returned x
  | None =>
      match globalBinding identifier with
      | Some x => Returned x
      | None => Thrown (ReferenceError identifier)
      end
  end.

(* ------------------------------------------------------------------ *)
(** ** xml.js: attribute interpolation with live bindings
       ([interpolateAttributes2]) *)

(** Modelled from the spec: the live surface of a node of the tree
    builder, as [interpolateAttributes2] uses it: the attribute array, the
    attributes set with [setAttribute], the style surface, the class list,
    the properties assigned on the node object, and [user_currentState]. *)
Record LiveNode := mkLiveNode {
  liveId : nat;
  liveCells : list (option Attribute);
  liveAttributes : list (string * string);
  liveStyle : list (string * Value);
  liveClassList : list string;
  liveProperties : list (string * Value);
  user_currentState : list string
}.

(** The arrow functions the engine subscribes, with what they capture. *)
Inductive Closure :=
| StyleObserver (node : nat) (recordId : string)          (* (styleObj) => ... *)
| StylePropertyObserver (node : nat) (cssProperty : string)  (* (value) => node.style[cssProperty] = value *)
| ClassObserver (node : nat)                              (* (value) => ... classList ... *)
| AttributeObserver (node : nat) (attributeName : string).  (* (value) => setAttribute / removeAttribute *)

(** The state the engine works on while it visits one node: the signals,
    the function objects created so far (a function's identity is its
    position), the database, and the node. *)
Record Binding := mkBinding {
  bSignals : list Signal.t;
  bClosures : list Closure;
  bFirstFunction : nat;   (* identities below this one belong to the caller *)
  bDatabase : Database;
  bNode : LiveNode
}.

Definition withNode (st : Binding) (n : LiveNode) : Binding :=
  mkBinding (bSignals st) (bClosures st) (bFirstFunction st) (bDatabase st) n.

Definition withDatabase (st : Binding) (db : Database) : Binding :=
  mkBinding (bSignals st) (bClosures st) (bFirstFunction st) db (bNode st).

(** [node.setAttribute(name, text)] *)
Definition setAttribute (n : LiveNode) (key text : string) : LiveNode :=
  mkLiveNode (liveId n) (liveCells n) (JsMap.set (liveAttributes n) key text)
             (liveStyle n) (liveClassList n) (liveProperties n) (user_currentState n).

(** [node.removeAttribute(name)] *)
Definition removeAttribute (n : LiveNode) (key : string) : LiveNode :=
  mkLiveNode (liveId n) (liveCells n)
             (filter (fun kv => negb (String.eqb (fst kv) key)) (liveAttributes n))
             (liveStyle n) (liveClassList n) (liveProperties n) (user_currentState n).

(** [node.style[cssProperty] = value] *)
Definition setStyle (n : LiveNode) (cssProperty : string) (x : Value) : LiveNode :=
  mkLiveNode (liveId n) (liveCells n) (liveAttributes n)
             (JsMap.set (liveStyle n) cssProperty x)
             (liveClassList n) (liveProperties n) (user_currentState n).

(** [node[key] = value] *)
Definition setProperty (n : LiveNode) (key : string) (x : Value) : LiveNode :=
  mkLiveNode (liveId n) (liveCells n) (liveAttributes n) (liveStyle n)
             (liveClassList n) (JsMap.set (liveProperties n) key x)
             (user_currentState n).

Definition hasToken (tokens : list string) (token : string) : bool :=
  existsb (String.eqb token) tokens.

(** [node.classList.add(...tokens)] *)
Definition classListAdd (n : LiveNode) (tokens : list string) : LiveNode :=
  mkLiveNode (liveId n) (liveCells n) (liveAttributes n) (liveStyle n)
             (fold_left (fun l token => if hasToken l token then l else l ++ [token])%list
                        tokens (liveClassList n))
             (liveProperties n) (user_currentState n).

(** [node.classList.remove(...tokens)] *)
Definition classListRemove (n : LiveNode) (tokens : list string) : LiveNode :=
  mkLiveNode (liveId n) (liveCells n) (liveAttributes n) (liveStyle n)
             (filter (fun token => negb (hasToken tokens token)) (liveClassList n))
             (liveProperties n) (user_currentState n).

(** [node.user_currentState = tokens] *)
Definition setCurrentState (n : LiveNode) (tokens : list string) : LiveNode :=
  mkLiveNode (liveId n) (liveCells n) (liveAttributes n) (liveStyle n)
             (liveClassList n) (liveProperties n) tokens.

Definition setCells (n : LiveNode) (cells : list (option Attribute)) : LiveNode :=
  mkLiveNode (liveId n) cells (liveAttributes n) (liveStyle n)
             (liveClassList n) (liveProperties n) (user_currentState n).

(** [record.unsubscribe.push(handle)] on the record filed under [recordId]. *)
Definition pushUnsubscribe (st : Binding) (recordId : string) (handle : Handle)
  : Binding :=
  match JsMap.get (bDatabase st) recordId with
  | Some r =>
      withDatabase st
        (JsMap.set (bDatabase st) recordId
                   (mkRecord (rId r) (content r) (unsubscribe r ++ [handle])%list
                             (placement r)))
  | None => st
  end.

(** [signal.subscribe(closure)] for a closure the engine has just created:
    the closure gets a fresh identity; it is called at once, by [run], when
    the value is neither null nor undefined; then it is added to the
    subscribers.  The result is the handle returned by [subscribe]. *)
Definition subscribeClosure (st : Binding) (ref : nat) (closure : Closure)
           (run : Value -> Binding -> Binding) : Binding * Handle :=
  let fn := bFirstFunction st + List.length (bClosures st) in
  let st0 := mkBinding (bSignals st) (bClosures st ++ [closure])%list
                       (bFirstFunction st) (bDatabase st) (bNode st) in
  match nth_error (bSignals st0) ref with
  | Some s =>
      let st1 := if notNullish (Signal.value s) then run (Signal.value s) st0 else st0 in
      let signals' :=
        match nth_error (bSignals st1) ref with
        | Some s1 => setCell ref (fst (Signal.subscribe s1 fn)) (bSignals st1)
        | None => bSignals st1
        end in
      (mkBinding signals' (bClosures st1) (bFirstFunction st1) (bDatabase st1) (bNode st1),
       mkHandle ref fn)
  | None => (st0, mkHandle ref fn)
  end.

(** The body of the closure subscribed by the generic signal branch. *)
Definition runAttributeObserver `{Host} (attributeName : string) (x : Value)
           (st : Binding) : Binding :=
  if notNullish x
  then withNode st (setAttribute (bNode st) attributeName (stringOf x))
  else withNode st (removeAttribute (bNode st) attributeName).

(** The body of the closure subscribed to a signal inside a style object. *)
Definition runStylePropertyObserver (cssProperty : string) (x : Value)
           (st : Binding) : Binding :=
  withNode st (setStyle (bNode st) cssProperty x).

(** [x && typeof x === 'object'] *)
Definition isObjectValue (x : Value) : bool :=
  match x with
  | VObject _ | VArray _ | VSignal _ | VNode _ | VMap _ => true
  | _ => false
  end.

(** [Object.entries(x)] for the values a style signal may emit: the entries
    of a plain object, the indexed elements of an array. *)
Definition entriesOf (x : Value) : list (string * Value) :=
  match x with
  | VObject entries => entries
  | VArray items => combine (map indexString (seq 0 (List.length items))) items
  | _ => []
  end.

(** The loop over the entries of an emitted style object; a signal is the
    only value taken to have a [subscribe] method. *)
Fixpoint applyStyleEntries (node : nat) (recordId : string)
         (entries : list (string * Value)) (st : Binding) : Binding :=
  match entries with
  | [] => st
  | (cssProperty, cssValue) :: rest =>
      let st' :=
        match cssValue with
        | VSignal ref =>
            let '(st1, nestedUnsubscribe) :=
              subscribeClosure st ref (StylePropertyObserver node cssProperty)
                               (runStylePropertyObserver cssProperty) in
            pushUnsubscribe st1 recordId nestedUnsubscribe
        | _ => withNode st (setStyle (bNode st) cssProperty cssValue)
        end in
      applyStyleEntries node recordId rest st'
  end.

(** The body of the closure subscribed by the reactive style branch. *)
Definition runStyleObserver (node : nat) (recordId : string) (styleObj : Value)
           (st : Binding) : Binding :=
  if isObjectValue styleObj
  then applyStyleEntries node recordId (entriesOf styleObj) st
  else st.

(** How a step of the engine ends: normally, or with an error thrown; in
    both cases with the state it leaves. *)
Inductive Bound :=
| BindOk (st : Binding)
| BindThrown (e : JsError) (st : Binding).

(** [signal.subscribe(closure)] for a closure whose body can throw: an
    error thrown by the immediate call leaves [subscribe] before the
    closure is added to the subscribers, and no handle is returned. *)
Definition subscribeObserver (st : Binding) (ref : nat) (closure : Closure)
           (run : Value -> Binding -> Bound) : Binding * Handle + JsError * Binding :=
  let fn := bFirstFunction st + List.length (bClosures st) in
  let st0 := mkBinding (bSignals st) (bClosures st ++ [closure])%list
                       (bFirstFunction st) (bDatabase st) (bNode st) in
  match nth_error (bSignals st0) ref with
  | Some s =>
      match (if notNullish (Signal.value s) then run (Signal.value s) st0
             else BindOk st0) with
      | BindThrown e st1 => inr (e, st1)
      | BindOk st1 =>
          let signals' :=
            match nth_error (bSignals st1) ref with
            | Some s1 => setCell ref (fst (Signal.subscribe s1 fn)) (bSignals st1)
            | None => bSignals st1
            end in
          inl (mkBinding signals' (bClosures st1) (bFirstFunction st1) (bDatabase st1)
                         (bNode st1),
               mkHandle ref fn)
      end
  | None => inl (st0, mkHandle ref fn)
  end.

(** The body of the closure subscribed to a signal of a class array.  Its
    first statement calls [classes], an identifier that neither the
    enclosing functions (they bind [value], [item], [record],
    [attributeName], [attributesToProcess], [node], [root] and [database])
    nor the module bind: it is read from the global scope, and the call
    throws when nothing is bound there or what is bound is no function.
    [classes], of the host, says what such a global function returns. *)
Definition runClassObserver `{Host} (x : Value) (st : Binding) : Bound :=
  match resolve moduleScope "classes" with
  | Thrown e => BindThrown e st
  | Returned (VFunction _) =>
      let expectedState := classes x in
      let currentState := user_currentState (bNode st) in
      let toRemove :=
        filter (fun token => negb (hasToken expectedState token)) currentState in
      let toAdd :=
        filter (fun token => negb (hasToken currentState token)) expectedState in
      BindOk
        (withNode st
           (setCurrentState (classListAdd (classListRemove (bNode st) toRemove) toAdd)
                            expectedState))
  | Returned _ => BindThrown TypeError st
  end.

(** An element of [attributesToProcess]. *)
Record ToProcess := mkToProcess {
  attributeName : string;
  attributePayload : RecordT
}.

(** [record.isStyleAttribute], [record.isClassAttribute]: the flag named
    after the attribute, assigned by the constructor. *)
Definition hasRole (r : RecordT) (flag : string) : bool :=
  match placement r with
  | Some (AttributeValueAssignment _ roleFlag) => sameKey roleFlag flag
  | _ => false
  end.
Definition isStyleAttribute (r : RecordT) : bool := hasRole r "isStyleAttribute".
Definition isClassAttribute (r : RecordT) : bool := hasRole r "isClassAttribute".
Definition hasType (r : RecordT) (t : string) : bool :=
  String.eqb (typeName (content r)) t.

(** The message of the error thrown for a missing record. *)
Definition notFoundMessage (recordId : string) : string :=
  "Record id " ++ String JsString.dquote recordId
  ++ String JsString.dquote " was not found in the database.".

Inductive Collected :=
| CollectOk (st : Binding) (attributesToProcess : list ToProcess)
| CollectThrown (e : JsError) (st : Binding).

(** The loop over [Object.entries(packet.content)] of the spread branch. *)
Fixpoint collectEntries (spreadName : string) (entries : list (string * Value))
         (st : Binding) (pending : list ToProcess) : Binding * list ToProcess :=
  match entries with
  | [] => (st, pending)
  | (field, c) :: rest =>
      let recordId := spreadName ++ "-" ++ field in
      let intelligence :=
        AttributeValueAssignment field (roleFlagOf (JsString.chars field)) in
      let payload := newRecordWith recordId c intelligence in
      collectEntries spreadName rest
        (withDatabase st (JsMap.set (bDatabase st) recordId payload))
        (pending ++ [mkToProcess field payload])%list
  end.

(** [delete node.attributes[node.attributes.indexOf(attribute)]], for the
    attribute met at [index]. *)
Definition deleteCell (st : Binding) (index : nat) : Binding :=
  withNode st (setCells (bNode st) (setCell index None (liveCells (bNode st)))).

(** The callback of [node.attributes.forEach], for the attribute at
    [index]. *)
Definition collectAttribute (st : Binding) (pending : list ToProcess)
           (index : nat) (attribute : Attribute) : Collected :=
  let '(st1, pending1) :=
    if JsString.startsWithColons (name attribute) then
      let '(st', pending') :=
        match JsMap.get (bDatabase st) (name attribute) with
        | Some packet =>
            if isObjectType packet
            then collectEntries (name attribute) (objectEntries (content packet))
                                st pending
            else (st, pending)
        | None => (st, pending)
        end in
      (deleteCell st' index, pending')
    else (st, pending) in
  match value attribute with
  | VString text =>
      if JsString.startsWithColons text then
        match JsMap.get (bDatabase st1) text with
        | None => CollectThrown (Error (notFoundMessage text)) st1
        | Some payload =>
            CollectOk (deleteCell st1 index)
                      (pending1 ++ [mkToProcess (name attribute) payload])%list
        end
      else CollectOk st1 pending1
  | _ => CollectThrown TypeError st1   (* [attribute.value.startsWith] is not a function *)
  end.

(** [forEach] over the cells of the attribute array from [index] on; a
    hole is skipped. *)
Fixpoint collectFrom (index : nat) (cells : list (option Attribute))
         (st : Binding) (pending : list ToProcess) : Collected :=
  match cells with
  | [] => CollectOk st pending
  | None :: rest => collectFrom (S index) rest st pending
  | Some attribute :: rest =>
      match collectAttribute st pending index attribute with
      | CollectOk st' pending' => collectFrom (S index) rest st' pending'
      | CollectThrown e st' => CollectThrown e st'
      end
  end.

(** The loop over the items of a class array; an error thrown while an
    item is subscribed ends it. *)
Fixpoint bindClassItems `{Host} (recordId : string) (items : list Value)
         (st : Binding) : Bound :=
  match items with
  | [] => BindOk st
  | item :: rest =>
      match item with
      | VSignal ref =>
          match subscribeObserver st ref (ClassObserver (liveId (bNode st)))
                                  runClassObserver with
          | inl (st1, handle) =>
              bindClassItems recordId rest (pushUnsubscribe st1 recordId handle)
          | inr (e, st1) => BindThrown e st1
          end
      | _ =>
          bindClassItems recordId rest
            (withNode st (classListAdd (bNode st) [stringOf item]))
      end
  end.

Fixpoint assignHandlers (entries : list (string * Value)) (n : LiveNode) : LiveNode :=
  match entries with
  | [] => n
  | (eventName, eventHandler) :: rest =>
      assignHandlers rest
        (match eventHandler with
         | VFunction _ => setProperty n eventName eventHandler
         | _ => n
         end)
  end.

Definition arrayItems (v : Value) : list Value :=
  match v with VArray items => items | _ => [] end.

(** One round of [for (const {attributeName, attributePayload: record} of
    attributesToProcess)]: the dispatch on the type of the content and on
    the role of the attribute. *)
Definition processAttribute `{Host} (st : Binding) (p : ToProcess) : Bound :=
  let record := attributePayload p in
  let node := liveId (bNode st) in
  if hasType record "Signal" && isStyleAttribute record then
    match content record with
    | VSignal ref =>
        let '(st1, handle) :=
          subscribeClosure st ref (StyleObserver node (rId record))
                           (runStyleObserver node (rId record)) in
        BindOk (pushUnsubscribe st1 (rId record) handle)
    | _ => BindOk st
    end
  else if isClassAttribute record && hasType record "Array" then
    bindClassItems (rId record) (arrayItems (content record))
                   (withNode st (setCurrentState (bNode st) []))
  else if hasType record "Signal" then
    match content record with
    | VSignal ref =>
        let '(st1, handle) :=
          subscribeClosure st ref (AttributeObserver node (attributeName p))
                           (runAttributeObserver (attributeName p)) in
        BindOk (pushUnsubscribe st1 (rId record) handle)
    | _ => BindOk st
    end
  else if isObjectType record && isStyleAttribute record then
    BindOk (withNode st (fold_left (fun n kv => setStyle n (fst kv) (snd kv))
                                   (objectEntries (content record)) (bNode st)))
  else if isObjectType record then
    BindOk (withNode st (assignHandlers (objectEntries (content record)) (bNode st)))
  else if hasType record "function" then
    BindOk (withNode st (setProperty (bNode st) (attributeName p) (content record)))
  else if hasType record "string" || hasType record "number" then
    BindOk (withNode st (setAttribute (bNode st) (attributeName p)
                                      (stringOf (content record))))
  else if notNullish (content record) then
    BindOk (withNode st (setAttribute (bNode st) (attributeName p)
                                      (stringOf (content record))))
  else BindOk st.

(** [for (const {attributeName, attributePayload: record} of
    attributesToProcess)]: an error thrown in a round ends the loop. *)
Fixpoint processAll `{Host} (attributesToProcess : list ToProcess) (st : Binding)
  : Bound :=
  match attributesToProcess with
  | [] => BindOk st
  | p :: rest =>
      match processAttribute st p with
      | BindOk st' => processAll rest st'
      | BindThrown e st' => BindThrown e st'
      end
  end.

(** What the nodes share while the tree is walked. *)
Record Shared := mkShared {
  shSignals : list Signal.t;
  shClosures : list Closure;
  shFirstFunction : nat;
  shDatabase : Database
}.

Definition enter (sh : Shared) (n : LiveNode) : Binding :=
  mkBinding (shSignals sh) (shClosures sh) (shFirstFunction sh) (shDatabase sh) n.
Definition leave (st : Binding) : Shared :=
  mkShared (bSignals st) (bClosures st) (bFirstFunction st) (bDatabase st).

(** How the walk ends: with every node visited, or with an error thrown
    out of the callback; in both cases the nodes are given as the walk
    left them. *)
Inductive WalkResult :=
| Finished (sh : Shared) (nodes : list LiveNode)
| Aborted (e : JsError) (sh : Shared) (nodes : list LiveNode).

(** The callback passed to [root.walk] by [interpolateAttributes2]. *)
Definition interpolateNode2 `{Host} (sh : Shared) (n : LiveNode)
  : JsError * Shared * LiveNode + Shared * LiveNode :=
  match collectFrom 0 (liveCells n) (enter sh n) [] with
  | CollectThrown e st => inl (e, leave st, bNode st)
  | CollectOk st attributesToProcess =>
      match processAll attributesToProcess st with
      | BindOk st' => inr (leave st', bNode st')
      | BindThrown e st' => inl (e, leave st', bNode st')
      end
  end.

(** Modelled from the spec: [root.walk(callback)] visits the element nodes
    in document order; [nodes] is that sequence.  An error thrown by the
    callback ends the walk. *)
Fixpoint interpolateAttributes2 `{Host} (sh : Shared) (nodes : list LiveNode)
  : WalkResult :=
  match nodes with
  | [] => Finished sh []
  | n :: rest =>
      match interpolateNode2 sh n with
      | inl (e, sh', n') => Aborted e sh' (n' :: rest)
      | inr (sh', n') =>
          match interpolateAttributes2 sh' rest with
          | Finished sh'' rest' => Finished sh'' (n' :: rest')
          | Aborted e sh'' rest' => Aborted e sh'' (n' :: rest')
          end
      end
  end.

(** *** What the collection of the marker attributes of a node leaves alone

    While the attributes of node [n] are collected, starting from the
    shared state [sh], nothing but the attribute array and the database
    changes; the database only gains records, and none under a slot id. *)
Definition collecting (sh : Shared) (n : LiveNode) (st : Binding) : Prop :=
  bSignals st = shSignals sh /\
  bClosures st = shClosures sh /\
  bFirstFunction st = shFirstFunction sh /\
  liveId (bNode st) = liveId n /\
  liveAttributes (bNode st) = liveAttributes n /\
  liveStyle (bNode st) = liveStyle n /\
  liveClassList (bNode st) = liveClassList n /\
  liveProperties (bNode st) = liveProperties n /\
  user_currentState (bNode st) = user_currentState n /\
  (forall key, JsMap.get (shDatabase sh) key <> None ->
               JsMap.get (bDatabase st) key <> None) /\
  (forall k, JsMap.get (bDatabase st) (slotId k)
             = JsMap.get (shDatabase sh) (slotId k)).

(** *** Three nodes, the second with a marker whose record is missing

    [<a color="::0">], [<b width="::7">], [<c height="5">], with a signal
    holding [red] on file under [::0] and nothing under [::7]. *)
Definition sharedExample : Shared :=
  mkShared [Signal.new "id1" (VString "red")] [] 100
           [("::0", newRecordDecoded "::0" (VSignal 0)
                      ("<a color=" ++ String JsString.dquote ""))].

Definition liveNodesExample : list LiveNode :=
  [mkLiveNode 0 [Some (mkAttribute "color" (VString "::0"))] [] [] [] [] [];
   mkLiveNode 1 [Some (mkAttribute "width" (VString "::7"))] [] [] [] [] [];
   mkLiveNode 2 [Some (mkAttribute "height" (VString "5"))] [] [] [] [] []].

(* ------------------------------------------------------------------ *)
(** ** xml.js: the public entry point *)

(** The attribute array as the loop of [interpolateAttributes] needs it:
    reading [attribute.name] of a hole throws. *)
Fixpoint denseCells (cells : list (option Attribute)) : option (list Attribute) :=
  match cells with
  | [] => Some []
  | None :: _ => None
  | Some a :: rest => option_map (cons a) (denseCells rest)
  end.

(** [interpolateAttributes(root, database)]: the callback on every element
    met by [root.walk], in document order. *)
Fixpoint interpolateAttributes (w : World) (database : Database) (n : Node)
  : Outcome (World * Database * Node) :=
  match n with
  | Element i t cells cs =>
      match denseCells cells with
      | None => Thrown TypeError
      | Some attributes =>
          let '(w1, database1, cells') :=
            interpolateNodeAttributes w database attributes in
          '(w2, database2, cs') <-
            (fix walkChildren (w : World) (database : Database) (l : list Node)
               : Outcome (World * Database * list Node) :=
               match l with
               | [] => Returned (w, database, [])
               | c :: r =>
                   '(w', database', c') <- interpolateAttributes w database c ;;
                   '(w'', database'', r') <- walkChildren w' database' r ;;
                   Returned (w'', database'', c' :: r')
               end) w1 database1 cs ;;
          Returned (w2, database2, Element i t cells' cs')
      end
  | _ => Returned (w, database, n)
  end.

(** A stream entry as the object it is. *)
Definition entryValue (e : StreamEntry) : Value :=
  match e with
  | Chunk text => VObject [("isTemplateChunk", VBoolean true); ("content", VString text)]
  | Reference id => VObject [("isReference", VBoolean true); ("id", VString id)]
  end.

(** The bindings visible from the body of the arrow function [unsubscribe]
    created in [xml]: the parameters and constants of [xml], then the
    bindings of the module.  [context] is the record database of the
    invocation, kept at [contextRef] in the heap; functions and classes are
    function objects. *)
Definition closureScope (strings : list string) (values : list Value)
           (contextRef : nat) (stream : list StreamEntry) (html : string)
           (rootRef : nat) : list (string * Value) :=
  [("strings", VArray (map VString strings));
   ("values", VArray values);
   ("context", VMap contextRef);
   ("stream", VArray (map entryValue stream));
   ("xml", VString html);
   ("root", VNode rootRef);
   ("unsubscribe", VFunction 0);
   ("parser", VObject []);
   ("createStream", VFunction 1);
   ("createIntermediateHtml", VFunction 2);
   ("parseElementAttributeValue", VFunction 3);
   ("interpolateAttributes", VFunction 4);
   ("interpolateNodes", VFunction 5);
   ("interpolateNodes3", VFunction 6);
   ("Signal", VFunction 7);
   ("Record", VFunction 8);
   ("XMLParser", VFunction 9)].

(** Calling an unsubscribe handle: [this.#subscribers.delete(subscriber)]. *)
Definition callHandle (signals : list Signal.t) (handle : Handle) : list Signal.t :=
  match nth_error signals (hSignal handle) with
  | Some s => setCell (hSignal handle) (Signal.unsubscribe s (hSubscriber handle)) signals
  | None => signals
  end.

(** The subscribers that the handles of [hs] delete from the signal at
    [ref]. *)
Definition handlesFor (ref : nat) (hs : list Handle) : list nat :=
  map hSubscriber (filter (fun h => Nat.eqb (hSignal h) ref) hs).

(** The chain [[...].filter(...).filter(...).map(...).flat()] over the
    records of a database. *)
Definition handlesOf (database : Database) : list Handle :=
  flat_map unsubscribe
    (filter (fun record => Nat.ltb 0 (List.length (unsubscribe record)))
       (filter isTemplateVariable (JsMap.values database))).

(** The body of the arrow function [unsubscribe] of [xml], run in the
    scope it was created in: the signals afterwards. *)
Definition runUnsubscribe `{Host} (scope : list (string * Value))
           (h : Heap) (signals : list Signal.t) : Outcome (list Signal.t) :=
  database <- resolve scope "database" ;;
  match database with
  | VMap m =>
      match nth_error (maps h) m with
      | Some records => Returned (fold_left callHandle (handlesOf records) signals)
      | None => Thrown TypeError
      end
  | _ => Thrown TypeError   (* [database.values] is not a function *)
  end.

(** The object returned by [xml], with the stores it refers to: the root
    is [VNode rootRef], the database [VMap contextRef], and [unsubscribe]
    is the arrow function, given by the scope it closes over. *)
Record XmlResult := mkXmlResult {
  xmlWorld : World;
  xmlHeap : Heap;
  rootRef : nat;
  contextRef : nat;
  unsubscribeScope : list (string * Value)
}.

(** [xml({raw: strings}, ...values)], with the tree builder [parse] (not
    among the sources) as a parameter. *)
Definition xml (parse : string -> Node) (w : World) (h : Heap)
           (strings : list string) (values : list Value) : Outcome XmlResult :=
  let '(stream, context) := createStream [] strings values in
  match createIntermediateHtml stream context with
  | None => Thrown TypeError
  | Some html =>
      let root := parse html in
      '(w1, context1, root1) <- interpolateAttributes w context root ;;
      st <- interpolateNodes h context1 root1 ;;
      let h2 := nsHeap st in
      let contextRef := List.length (maps h2) in
      let rootRef := List.length (roots h2) in
      Returned (mkXmlResult w1
                  (mkHeap (maps h2 ++ [nsDatabase st]) (roots h2 ++ [nsRoot st]))%list
                  rootRef contextRef
                  (closureScope strings values contextRef stream html rootRef))
  end.

(** *** The template [<P ${{a: 1, b: 2}} t="<" ${{c: 3}}>]

    Both values land in the open tag (the second literal segment has the
    bracket of [t="<"] as its last bracket), so the element gets two
    spread markers with the attribute [t] between them. *)
Definition twoSpreadStrings : list string :=
  ["<P ";
   " t=" ++ String JsString.dquote ("<" ++ String JsString.dquote " ");
   ">"].

Definition twoSpreadValues : list Value :=
  [VObject [("a", VNumber (Decimal "1")); ("b", VNumber (Decimal "2"))];
   VObject [("c", VNumber (Decimal "3"))]].

(** The attribute array of the element [P] of that markup. *)
Definition twoSpreadAttributes : list Attribute :=
  [mkAttribute "::0" (VString ""); mkAttribute "t" (VString "<");
   mkAttribute "::1" (VString "")].

(** The tree of the markup [<a></a>]. *)
Definition emptyElementTree (html : string) : Node :=
  Element 0 "root" [] [Element 1 "a" [] []].

(* ------------------------------------------------------------------ *)
(** ** Signal.js: disposal *)

(** What [collect] is handed: functions, and arrays of such values nested
    at will. *)
Inductive Disposable :=
| DFunction (fn : nat)
| DArray (items : list Disposable).

(** [[input].flat(Infinity)] *)
Fixpoint flatten (d : Disposable) : list nat :=
  match d with
  | DFunction fn => [fn]
  | DArray items => flat_map flatten items
  end.

(** A signal with its private set [#disposables]. *)
Record Disposing := mkDisposing {
  dSignal : Signal.t;
  dDisposables : JsSet.t
}.

(** [collect(...input)] *)
Definition collect (st : Disposing) (input : list Disposable) : Disposing :=
  mkDisposing (dSignal st)
              (fold_left JsSet.add (flat_map flatten input) (dDisposables st)).

(** [clear()]: the signal afterwards, the disposables called (each without
    argument, in the order of the set), and how the method ends:
    [graph.remove(this.#id)] is reached last, and calling a method that is
    not there throws. *)
Definition clear `{Host} (st : Disposing) : Disposing * list nat * Outcome unit :=
  let s := dSignal st in
  (mkDisposing (Signal.mk (Signal.id s) (Signal.value s) (Signal.v s) []) [],
   dDisposables st,
   graph <- resolve moduleScope "graph" ;;
   match property graph "remove" with
   | VFunction _ => Returned tt
   | _ => Thrown TypeError
   end).

(** [appendsSignals w w'] : [w'] is [w] with signals appended whose ids are
    the next values of the counter, in order, and which have no subscriber
    yet. *)
Definition appendsSignals (w w' : World) : Prop :=
  exists news,
    signals w' = (signals w ++ news)%list /\
    map Signal.id news = map counterId (seq (nextId w) (List.length news)) /\
    nextId w' = nextId w + List.length news /\
    Forall (fun s => Signal.subscribers s = []) news.

(** The walk over the children of an element, as [interpolateAttributes]
    does it. *)
Fixpoint walkChildren (w : World) (database : Database) (l : list Node)
  : Outcome (World * Database * list Node) :=
  match l with
  | [] => Returned (w, database, [])
  | c :: r =>
      '(w', database', c') <- interpolateAttributes w database c ;;
      '(w'', database'', r') <- walkChildren w' database' r ;;
      Returned (w'', database'', c' :: r')
  end.

(** The attribute array of a node has no hole. *)
Definition hasNoHole (n : Node) : Prop :=
  match n with
  | Element _ _ cells _ => denseCells cells <> None
  | _ => True
  end.

(** An attribute that is no marker: neither its name nor its value, a
    string, starts with two colons. *)
Definition plainAttribute (a : Attribute) : Prop :=
  JsString.startsWithColons (name a) = false /\
  exists text, value a = VString text /\ JsString.startsWithColons text = false.

Definition plainCells (cells : list (option Attribute)) : Prop :=
  forall a, In (Some a) cells -> plainAttribute a.




(* ------------------------------------------------------------------ *)
(** * Properties *)

Open Scope list_scope.

(** ** The context decoder on the documented examples *)

Example decode_class :
  decodeAttribute ("class=" ++ String JsString.dquote "")%string
  = AttributeValueAssignment "class" "isClassAttribute".
Proof. reflexivity. Qed.
Example decode_open : decodeAttribute "<div " = AttributeDomain.
Proof. reflexivity. Qed.
Example decode_closed : decodeAttribute "<div>" = ElementDomain.
Proof. reflexivity. Qed.

(** ** Signal.js: the reactive value *)

Section SignalProperties.
Context `{Host}.

Lemma delete_not_has (s : JsSet.t) (k : nat) :
  JsSet.has (JsSet.delete s k) k = false.
Proof.
  unfold JsSet.has, JsSet.delete.
  induction s as [|x s IH]; simpl; [reflexivity|].
  destruct (Nat.eqb x k) eqn:E; simpl; [exact IH|].
  rewrite Nat.eqb_sym, E. exact IH.
Qed.

Lemma delete_has_other (s : JsSet.t) (k j : nat) :
  j <> k -> JsSet.has (JsSet.delete s k) j = JsSet.has s j.
Proof.
  intros Hjk. unfold JsSet.has, JsSet.delete.
  induction s as [|x s IH]; simpl; [reflexivity|].
  destruct (Nat.eqb x k) eqn:E; simpl.
  - apply Nat.eqb_eq in E. subst x.
    destruct (Nat.eqb j k) eqn:E'; [apply Nat.eqb_eq in E'; contradiction|].
    exact IH.
  - now rewrite IH.
Qed.

Lemma delete_absent (s : JsSet.t) (k : nat) :
  JsSet.has s k = false -> JsSet.delete s k = s.
Proof.
  unfold JsSet.has, JsSet.delete.
  induction s as [|x s IH]; simpl; [reflexivity|].
  intros Hn. apply orb_false_iff in Hn as [Hx Hs].
  rewrite Nat.eqb_sym, Hx. simpl. now rewrite IH.
Qed.

Lemma delete_not_In (s : JsSet.t) (k : nat) : ~ In k (JsSet.delete s k).
Proof.
  unfold JsSet.delete. intros Hin. apply filter_In in Hin as [_ Hk].
  now rewrite Nat.eqb_refl in Hk.
Qed.

Lemma add_has (s : JsSet.t) (k : nat) : JsSet.has (JsSet.add s k) k = true.
Proof.
  unfold JsSet.add. destruct (JsSet.has s k) eqn:E; [exact E|].
  unfold JsSet.has. rewrite existsb_app. simpl.
  now rewrite Nat.eqb_refl, orb_true_r.
Qed.

Lemma add_delete (s : JsSet.t) (k : nat) :
  JsSet.delete (JsSet.add s k) k = JsSet.delete s k.
Proof.
  unfold JsSet.add. destruct (JsSet.has s k); [reflexivity|].
  unfold JsSet.delete. rewrite filter_app. simpl.
  now rewrite Nat.eqb_refl, app_nil_r.
Qed.

(** C5: an assignment of a value loosely equal to the current one changes
    nothing and calls nobody; any other assignment stores the new value
    and calls every subscriber once, in registration order, with it. *)
Theorem setValue_change_only (s : Signal.t) (newValue : Value) :
  (looseEq newValue (Signal.value s) = true ->
     Signal.setValue s newValue = (s, [])) /\
  (looseEq newValue (Signal.value s) = false ->
     Signal.value (fst (Signal.setValue s newValue)) = newValue /\
     Signal.subscribers (fst (Signal.setValue s newValue)) = Signal.subscribers s /\
     snd (Signal.setValue s newValue)
     = map (fun subscriber => (subscriber, newValue)) (Signal.subscribers s)).
Proof.
  unfold Signal.setValue. split; intros E; rewrite E; simpl; auto.
Qed.

(** C6: [subscribe] calls the new subscriber at once with the current
    value exactly when that value is neither null nor undefined, and
    registers it; the returned handle removes that subscriber and no
    other, keeps the order of the rest, and the removed subscriber is
    called by no later assignment. *)
Theorem subscribe_then_unsubscribe (s : Signal.t) (subscriber : nat) :
  let s1 := fst (Signal.subscribe s subscriber) in
  let calls := snd (Signal.subscribe s subscriber) in
  let s2 := Signal.unsubscribe s1 subscriber in
  (notNullish (Signal.value s) = true -> calls = [(subscriber, Signal.value s)]) /\
  (notNullish (Signal.value s) = false -> calls = []) /\
  Signal.value s1 = Signal.value s /\
  JsSet.has (Signal.subscribers s1) subscriber = true /\
  (forall other, other <> subscriber ->
     JsSet.has (Signal.subscribers s1) other = JsSet.has (Signal.subscribers s) other) /\
  JsSet.has (Signal.subscribers s2) subscriber = false /\
  (forall other, other <> subscriber ->
     JsSet.has (Signal.subscribers s2) other = JsSet.has (Signal.subscribers s1) other) /\
  Signal.subscribers s2
  = filter (fun x => negb (Nat.eqb x subscriber)) (Signal.subscribers s1) /\
  (forall newValue,
     ~ In subscriber (Signal.receivers (snd (Signal.setValue s2 newValue)))).
Proof.
  simpl. repeat split.
  - intros E. now rewrite E.
  - intros E. now rewrite E.
  - apply add_has.
  - intros other Ho. unfold JsSet.add.
    destruct (JsSet.has (Signal.subscribers s) subscriber); [reflexivity|].
    unfold JsSet.has. rewrite existsb_app. simpl.
    destruct (Nat.eqb other subscriber) eqn:E;
      [apply Nat.eqb_eq in E; contradiction|].
    now rewrite !orb_false_r.
  - apply delete_not_has.
  - intros other Ho. now apply delete_has_other.
  - intros newValue. unfold Signal.setValue, Signal.receivers, Signal.notify.
    destruct (looseEq newValue _); simpl; [tauto|].
    rewrite map_map. simpl. rewrite map_id. apply delete_not_In.
Qed.

(** C10: the first call of an unsubscribe handle removes its subscriber;
    any number of further calls leave the signal as it is. *)
Theorem unsubscribe_idempotent (s : Signal.t) (subscriber : nat) :
  let s1 := Signal.unsubscribe s subscriber in
  JsSet.has (Signal.subscribers s1) subscriber = false /\
  (forall other, other <> subscriber ->
     JsSet.has (Signal.subscribers s1) other = JsSet.has (Signal.subscribers s) other) /\
  Signal.unsubscribe s1 subscriber = s1 /\
  (forall n, Nat.iter n (fun x => Signal.unsubscribe x subscriber) s1 = s1).
Proof.
  simpl.
  assert (Hidem : Signal.unsubscribe (Signal.unsubscribe s subscriber) subscriber
                  = Signal.unsubscribe s subscriber).
  { unfold Signal.unsubscribe. simpl. f_equal.
    apply delete_absent, delete_not_has. }
  repeat split.
  - apply delete_not_has.
  - intros other Ho. now apply delete_has_other.
  - exact Hidem.
  - induction n as [|n IH]; simpl; [reflexivity|].
    rewrite IH. exact Hidem.
Qed.

End SignalProperties.

(** The change-only rule on a signal holding 5 with two subscribers:
    assigning 5 again calls nobody, assigning 6 calls both in order. *)
Lemma setValue_change_only_witness :
  let s := Signal.mk "id1" (VNumber (Decimal "5")) (VNumber (Decimal "5")) [7; 3] in
  Signal.setValue (H := sampleHost) s (VNumber (Decimal "5")) = (s, []) /\
  snd (Signal.setValue (H := sampleHost) s (VNumber (Decimal "6")))
  = [(7, VNumber (Decimal "6")); (3, VNumber (Decimal "6"))].
Proof.
  simpl. split.
  - apply (proj1 (setValue_change_only (H := sampleHost)
                    (Signal.mk "id1" (VNumber (Decimal "5")) (VNumber (Decimal "5")) [7; 3])
                    (VNumber (Decimal "5")))).
    reflexivity.
  - apply (proj2 (setValue_change_only (H := sampleHost)
                    (Signal.mk "id1" (VNumber (Decimal "5")) (VNumber (Decimal "5")) [7; 3])
                    (VNumber (Decimal "6")))).
    reflexivity.
Defined.

(** Subscribing to a signal holding 5 calls the subscriber with 5;
    subscribing to one holding null calls nobody. *)
Lemma subscribe_then_unsubscribe_witness :
  snd (Signal.subscribe (Signal.new "id1" (VNumber (Decimal "5"))) 1)
  = [(1, VNumber (Decimal "5"))] /\
  snd (Signal.subscribe (Signal.new "id2" VNull) 1) = [].
Proof.
  split.
  - apply (proj1 (subscribe_then_unsubscribe (H := sampleHost)
                    (Signal.new "id1" (VNumber (Decimal "5"))) 1)).
    reflexivity.
  - apply (proj1 (proj2 (subscribe_then_unsubscribe (H := sampleHost)
                            (Signal.new "id2" VNull) 1))).
    reflexivity.
Defined.

(** ** The context decoder: runs of adjacent brackets *)

(** C4: on the segment [<a><b ] the last token does not end with [=] and
    the last bracket of the segment is [<] (the tag [b] is still open),
    yet the decoder answers element-domain: [split] leaves the adjacent
    brackets [><] in one token, which is not the one-character string the
    decoder compares with. *)
Theorem decodeAttribute_adjacent_brackets :
  JsString.endsWithEq (normalizedCharacterTokens "<a><b ") = false /\
  JsString.lastOpt (retainedBrackets "<a><b ") = Some "<"%char /\
  bracketCycle "<a><b " = [["<"%char]; [">"%char; "<"%char]] /\
  decodeAttribute "<a><b " = ElementDomain.
Proof. repeat split. Qed.

(** ** The marker stream builder *)

Section StreamProperties.

Lemma indexString_inj (i j : nat) : indexString i = indexString j -> i = j.
Proof.
  unfold indexString. intros E.
  assert (E' : Nat.to_uint i = Nat.to_uint j).
  { apply (f_equal NilEmpty.uint_of_string) in E.
    rewrite !NilEmpty.usu in E. now injection E. }
  apply (f_equal Nat.of_uint) in E'.
  now rewrite !DecimalNat.Unsigned.of_to in E'.
Qed.

Lemma slotId_inj (i j : nat) : slotId i = slotId j -> i = j.
Proof.
  unfold slotId. simpl. intros E. injection E as E. now apply indexString_inj.
Qed.

Lemma slotId_eqb (i j : nat) : String.eqb (slotId i) (slotId j) = Nat.eqb i j.
Proof.
  destruct (Nat.eqb i j) eqn:E.
  - apply Nat.eqb_eq in E. subst. apply String.eqb_refl.
  - apply String.eqb_neq. intros E'. apply slotId_inj in E'.
    apply Nat.eqb_neq in E. contradiction.
Qed.

Lemma indexString_eqb (i j : nat) :
  String.eqb (indexString i) (indexString j) = Nat.eqb i j.
Proof.
  destruct (Nat.eqb i j) eqn:E.
  - apply Nat.eqb_eq in E. subst. apply String.eqb_refl.
  - apply String.eqb_neq. intros E'. apply indexString_inj in E'.
    apply Nat.eqb_neq in E. contradiction.
Qed.

Ltac slot_eqb := rewrite ?slotId_eqb, ?indexString_eqb.

(** Replaces a test [a =? b] between distinct indices by [false]. *)
Ltac distinct_indices :=
  match goal with
  | |- context [Nat.eqb ?a ?b] =>
      replace (Nat.eqb a b) with false by (symmetry; apply Nat.eqb_neq; lia)
  end.

Lemma get_app {V} (m1 m2 : JsMap.t V) (k : string) :
  JsMap.get (m1 ++ m2) k
  = match JsMap.get m1 k with Some x => Some x | None => JsMap.get m2 k end.
Proof.
  induction m1 as [|[k' x] m1 IH]; simpl; [reflexivity|].
  destruct (String.eqb k' k); [reflexivity|exact IH].
Qed.

Lemma set_absent {V} (m : JsMap.t V) (k : string) (x : V) :
  JsMap.get m k = None -> JsMap.set m k x = (m ++ [(k, x)])%list.
Proof.
  induction m as [|[k' y] m IH]; simpl; [reflexivity|].
  destruct (String.eqb k' k); [discriminate|].
  intros E. now rewrite IH.
Qed.

Variable values : list Value.

(** The entries contributed from [index] on have ids of slots at or
    after [index]. *)
Lemma recordsOf_get_before (strings : list string) (index i : nat) :
  i < index -> JsMap.get (recordsOf index strings values) (slotId i) = None.
Proof.
  revert index. induction strings as [|s rest IH]; intros index Hlt; simpl;
    [reflexivity|].
  rewrite get_app.
  destruct (isUndefined (valueAt values index)); simpl.
  - apply IH. lia.
  - slot_eqb.
    distinct_indices.
    apply IH. lia.
Qed.

Lemma recordsOf_get (strings : list string) (index i : nat) :
  i < List.length strings ->
  JsMap.get (recordsOf index strings values) (slotId (index + i))
  = if isUndefined (valueAt values (index + i)) then None
    else Some (slotRecord values (index + i) (nth i strings "")).
Proof.
  revert index i. induction strings as [|s rest IH]; intros index i Hlt;
    simpl in Hlt; [lia|].
  cbn [recordsOf]. rewrite get_app. destruct i as [|i].
  - rewrite Nat.add_0_r.
    destruct (isUndefined (valueAt values index)) eqn:E; simpl.
    + apply recordsOf_get_before. lia.
    + now rewrite String.eqb_refl.
  - replace (index + S i) with (S index + i) by lia.
    destruct (isUndefined (valueAt values index)); cbn [JsMap.get app];
      [|slot_eqb; distinct_indices]; apply IH; lia.
Qed.

(** The loop of [createStream], started on a database that holds no slot
    id at or after [index], appends the records of the defined values. *)
Lemma createStreamFrom_spec (strings : list string) (index : nat)
      (context : Database) :
  (forall j, index <= j -> JsMap.get context (slotId j) = None) ->
  createStreamFrom index context strings values
  = (streamOf index strings values,
     (context ++ recordsOf index strings values)%list).
Proof.
  revert index context.
  induction strings as [|s rest IH]; intros index context Hfresh; simpl.
  - now rewrite app_nil_r.
  - destruct (isUndefined (valueAt values index)) eqn:E.
    + rewrite IH; [reflexivity|]. intros j Hj. apply Hfresh. lia.
    + rewrite set_absent by (apply Hfresh; lia).
      rewrite IH.
      * simpl. now rewrite <- app_assoc.
      * intros j Hj. rewrite get_app, Hfresh by lia. simpl.
        slot_eqb.
        distinct_indices.
        reflexivity.
Qed.

Lemma definedFrom_length_records (strings : list string) (index : nat) :
  List.length (recordsOf index strings values)
  = definedFrom index (List.length strings) values.
Proof.
  revert index. induction strings as [|s rest IH]; intros index; simpl;
    [reflexivity|].
  rewrite length_app, IH.
  now destruct (isUndefined (valueAt values index)).
Qed.

Lemma slotMarker_isMarker (index : nat) (s : string) :
  isMarker (slotMarker index s) = true.
Proof. unfold slotMarker. now destruct (decodeAttribute s). Qed.

Lemma slotMarker_id (index : nat) (s : string) :
  markerId (slotMarker index s) = Some (slotId index).
Proof. unfold slotMarker. now destruct (decodeAttribute s). Qed.

Lemma piecesOf_markerCount (strings : list string) (index : nat) :
  markerCount (piecesOf index strings values)
  = definedFrom index (List.length strings) values.
Proof.
  unfold markerCount. revert index.
  induction strings as [|s rest IH]; intros index; simpl; [reflexivity|].
  rewrite filter_app, length_app, IH.
  destruct (isUndefined (valueAt values index)); simpl; [reflexivity|].
  now rewrite slotMarker_isMarker.
Qed.

Lemma piecesOf_before (strings : list string) (index i : nat) :
  i < index -> markersWithId (slotId i) (piecesOf index strings values) = 0.
Proof.
  unfold markersWithId. revert index.
  induction strings as [|s rest IH]; intros index Hlt; simpl; [reflexivity|].
  rewrite filter_app, length_app, IH by lia.
  destruct (isUndefined (valueAt values index)); simpl; [reflexivity|].
  unfold hasMarkerId. rewrite slotMarker_id; slot_eqb.
  distinct_indices. reflexivity.
Qed.

Lemma piecesOf_markersWithId (strings : list string) (index i : nat) :
  i < List.length strings ->
  markersWithId (slotId (index + i)) (piecesOf index strings values)
  = if isUndefined (valueAt values (index + i)) then 0 else 1.
Proof.
  revert index i. induction strings as [|s rest IH]; intros index i Hlt;
    simpl in Hlt; [lia|].
  unfold markersWithId in *. cbn [piecesOf].
  change (Raw s :: ?l) with ([Raw s] ++ l).
  rewrite !filter_app, !length_app. cbn [filter hasMarkerId markerId List.length].
  destruct i as [|i].
  - rewrite Nat.add_0_r.
    pose proof (piecesOf_before rest (S index) index (Nat.lt_succ_diag_r _)) as Hb.
    unfold markersWithId in Hb. rewrite Hb.
    destruct (isUndefined (valueAt values index)); simpl; [reflexivity|].
    unfold hasMarkerId. rewrite slotMarker_id, String.eqb_refl. reflexivity.
  - replace (index + S i) with (S index + i) by lia.
    rewrite IH by lia.
    destruct (isUndefined (valueAt values index)); simpl; [reflexivity|].
    unfold hasMarkerId. rewrite slotMarker_id; slot_eqb.
    distinct_indices. reflexivity.
Qed.

Lemma piecesOf_literals (strings : list string) (index : nat) :
  map pieceText (filter (fun p => negb (isMarker p)) (piecesOf index strings values))
  = strings.
Proof.
  revert index. induction strings as [|s rest IH]; intros index; simpl;
    [reflexivity|].
  rewrite filter_app, map_app, IH.
  destruct (isUndefined (valueAt values index)); simpl; [reflexivity|].
  now rewrite slotMarker_isMarker.
Qed.

Lemma intermediatePieces_slot (context : Database) (index : nat) (s : string) :
  JsMap.get context (slotId index) = Some (slotRecord values index s) ->
  intermediatePieces context (Reference (slotId index))
  = Some [slotMarker index s].
Proof.
  intros E. unfold intermediatePieces. rewrite E.
  unfold slotMarker, isAttributeValueAssignment, isAttributeDomain,
    isElementDomain, isTemplateVariable, slotRecord, newRecordDecoded.
  cbn [placement]. now destruct (decodeAttribute s).
Qed.

(** The loop of [createIntermediateHtml] on the stream of [createStream]
    never meets a missing record and pushes one marker per reference. *)
Lemma createIntermediatePieces_spec (strings : list string) (index : nat)
      (context : Database) :
  (forall i, i < List.length strings ->
     JsMap.get context (slotId (index + i))
     = if isUndefined (valueAt values (index + i)) then None
       else Some (slotRecord values (index + i) (nth i strings ""%string))) ->
  createIntermediatePieces (streamOf index strings values) context
  = Some (piecesOf index strings values).
Proof.
  revert index. induction strings as [|s rest IH]; intros index Hget;
    [reflexivity|].
  assert (Hrest : createIntermediatePieces (streamOf (S index) rest values) context
                  = Some (piecesOf (S index) rest values)).
  { apply IH. intros i Hi. specialize (Hget (S i)).
    replace (index + S i) with (S index + i) in Hget by lia.
    apply Hget. simpl. lia. }
  specialize (Hget 0 (Nat.lt_0_succ _)). rewrite Nat.add_0_r in Hget.
  cbn [streamOf piecesOf nth] in *.
  destruct (isUndefined (valueAt values index)).
  - cbn [app createIntermediatePieces intermediatePieces]. now rewrite Hrest.
  - cbn [app createIntermediatePieces].
    rewrite (intermediatePieces_slot context index s Hget), Hrest.
    reflexivity.
Qed.

End StreamProperties.

Lemma concat_empty_cons (x : string) (l : list string) :
  String.concat "" (x :: l) = (x ++ String.concat "" l)%string.
Proof.
  destruct l as [|y l]; cbn [String.concat]; [|reflexivity].
  induction x as [|c x IH]; cbn; [reflexivity|]. now rewrite <- IH.
Qed.

Lemma append_assoc (a b c : string) :
  ((a ++ b) ++ c = a ++ b ++ c)%string.
Proof. induction a as [|x a IH]; cbn; [reflexivity|]. now rewrite IH. Qed.

(** The pieces joined are the markup: the text of every marker is the
    text of its slot. *)
Lemma piecesOf_markup (values : list Value) (strings : list string) (index : nat) :
  String.concat "" (map pieceText (piecesOf index strings values))
  = markupOf index strings values.
Proof.
  revert index. induction strings as [|s rest IH]; intros index;
    cbn [piecesOf markupOf map]; [reflexivity|].
  rewrite concat_empty_cons. cbn [pieceText]. f_equal.
  destruct (isUndefined (valueAt values index)); cbn [app map].
  - apply IH.
  - rewrite concat_empty_cons, IH. f_equal.
    unfold slotMarker, markerTextOf. now destruct (decodeAttribute s).
Qed.

(** C3: on a fresh database, [createStream] followed by
    [createIntermediateHtml] succeeds; the markup is the literal segments,
    verbatim and in order, each followed by the marker of its slot when the
    value there is defined and by nothing when it is undefined, the marker
    being the text that holds the id [::i] in the form the decoder's answer
    for [S[i]] asks for; the number of markers and the number of records
    both equal the number of indices with a defined value; and index [i]
    has exactly one marker and one record, of id [::i], holding [V[i]] and
    the decoder's answer for [S[i]], when [V[i]] is defined, and neither
    marker nor record when it is undefined. *)
Theorem createStream_one_marker_per_defined_value
        (strings : list string) (values : list Value) :
  let stream := fst (createStream [] strings values) in
  let context := snd (createStream [] strings values) in
  exists pieces,
    createIntermediatePieces stream context = Some pieces /\
    createIntermediateHtml stream context
    = Some (String.concat "" (map pieceText pieces)) /\
    createIntermediateHtml stream context = Some (markupOf 0 strings values) /\
    map pieceText (filter (fun p => negb (isMarker p)) pieces) = strings /\
    markerCount pieces = definedFrom 0 (List.length strings) values /\
    List.length context = definedFrom 0 (List.length strings) values /\
    forall i, i < List.length strings ->
      if isUndefined (valueAt values i)
      then markersWithId (slotId i) pieces = 0 /\
           JsMap.get context (slotId i) = None
      else markersWithId (slotId i) pieces = 1 /\
           JsMap.get context (slotId i)
           = Some (mkRecord (slotId i) (valueAt values i) []
                            (Some (decodeAttribute (nth i strings ""%string)))).
Proof.
  unfold createStream.
  rewrite (createStreamFrom_spec values strings 0 []) by reflexivity.
  cbn [fst snd app].
  assert (Hpieces : createIntermediatePieces (streamOf 0 strings values)
                      (recordsOf 0 strings values)
                    = Some (piecesOf 0 strings values)).
  { apply createIntermediatePieces_spec. intros i Hi.
    now apply (recordsOf_get values strings 0 i). }
  exists (piecesOf 0 strings values). repeat split.
  - exact Hpieces.
  - unfold createIntermediateHtml. now rewrite Hpieces.
  - unfold createIntermediateHtml. rewrite Hpieces. cbn [option_map].
    now rewrite piecesOf_markup.
  - apply piecesOf_literals.
  - apply piecesOf_markerCount.
  - apply definedFrom_length_records.
  - intros i Hi.
    pose proof (piecesOf_markersWithId values strings 0 i Hi) as Hm.
    pose proof (recordsOf_get values strings 0 i Hi) as Hr.
    cbn [Nat.add] in *.
    destruct (isUndefined (valueAt values i)); split; assumption.
Qed.

(** The stream of the template
    [<Panel ${{color:'red'}} width="${200}"${undefined}><b>${'x'}</b></Panel>]. *)
Example createStream_example :
  let '(stream, context) := createStream [] exampleStrings exampleValues in
  createIntermediatePieces stream context
  = Some [Raw "<Panel "; AttributeDomainMarker "::0";
          Raw (" width=" ++ String JsString.dquote ""); AttributeValueMarker "::1";
          Raw (String JsString.dquote "" ++ ">"); Raw "<b>"; ElementMarker "::3";
          Raw "</b></Panel>"]%string
  /\ JsMap.keys context = ["::0"; "::1"; "::3"]%string.
Proof. split; reflexivity. Qed.

(** ** Attribute interpolation: plain attributes *)

Section AttributeUpgrade.

Lemma counterId_inj (n m : nat) : counterId n = counterId m -> n = m.
Proof.
  unfold counterId. simpl. intros E. injection E as E. now apply indexString_inj.
Qed.

Lemma spread_id_not_counterId (spreadName field : string) (n : nat) :
  JsString.startsWithColons spreadName = true ->
  (spreadName ++ "-" ++ field)%string <> counterId n.
Proof.
  unfold counterId. destruct spreadName as [|a [|b r]]; simpl; try discriminate.
  intros Hc E. injection E as Ea _. subst a. discriminate.
Qed.

Lemma get_set_same {V} (m : JsMap.t V) (k : string) (x : V) :
  JsMap.get (JsMap.set m k x) k = Some x.
Proof.
  induction m as [|[k' y] m IH]; simpl.
  - now rewrite String.eqb_refl.
  - destruct (String.eqb k' k) eqn:E; simpl; rewrite E; [reflexivity|exact IH].
Qed.

Lemma get_set_other {V} (m : JsMap.t V) (k k' : string) (x : V) :
  k <> k' -> JsMap.get (JsMap.set m k x) k' = JsMap.get m k'.
Proof.
  intros Hk. induction m as [|[k0 y] m IH]; simpl.
  - apply String.eqb_neq in Hk. now rewrite Hk.
  - destruct (String.eqb k0 k) eqn:E; simpl.
    + apply String.eqb_eq in E. subst k0.
      apply String.eqb_neq in Hk. now rewrite Hk.
    + destruct (String.eqb k0 k'); [reflexivity|exact IH].
Qed.

Lemma length_setCell {A} (index : nat) (x : A) (l : list A) :
  List.length (setCell index x l) = List.length l.
Proof.
  revert index. induction l as [|y l IH]; intros [|i]; simpl; auto.
Qed.

Lemma nth_error_setCell_same {A} (index : nat) (x : A) (l : list A) :
  index < List.length l -> nth_error (setCell index x l) index = Some x.
Proof.
  revert index. induction l as [|y l IH]; intros [|i] Hlt; simpl in *;
    try lia; [reflexivity|]. apply IH. lia.
Qed.

Lemma nth_error_setCell_other {A} (index j : nat) (x : A) (l : list A) :
  j <> index -> nth_error (setCell index x l) j = nth_error l j.
Proof.
  revert index j. induction l as [|y l IH]; intros [|i] [|j] Hne; simpl;
    try reflexivity; try contradiction. apply IH. lia.
Qed.

Lemma preserves_refl (lo hi : nat) (st : Scan) : preserves lo hi st st.
Proof.
  repeat split; auto. exists []. now rewrite app_nil_r.
Qed.

Lemma preserves_trans (lo mid hi : nat) (a b c : Scan) :
  lo <= mid -> mid <= hi ->
  preserves lo mid a b -> preserves mid hi b c -> preserves lo hi a c.
Proof.
  intros Hlm Hmh (Hs1 & Hn1 & Hd1 & Hc1 & Hl1) (Hs2 & Hn2 & Hd2 & Hc2 & Hl2).
  repeat split.
  - destruct Hs1 as [e1 E1], Hs2 as [e2 E2]. exists (e1 ++ e2).
    now rewrite E2, E1, app_assoc.
  - lia.
  - intros m Hm. rewrite Hd2 by lia. now apply Hd1.
  - intros j Hj. rewrite Hc2 by lia. apply Hc1. lia.
  - congruence.
Qed.

Lemma preserves_widen (lo hi lo' hi' : nat) (a b : Scan) :
  lo' <= lo -> hi <= hi' -> preserves lo hi a b -> preserves lo' hi' a b.
Proof.
  intros Hlo Hhi (Hs & Hn & Hd & Hc & Hl). repeat split; auto.
  intros j Hj. apply Hc. lia.
Qed.

Lemma upgradePlain_preserves (st : Scan) (index : nat) (attribute : Attribute) :
  preserves index (S index) st (upgradePlain st index attribute).
Proof.
  unfold upgradePlain, newSignal, generateId. cbn.
  repeat split; cbn.
  - eexists. reflexivity.
  - lia.
  - intros m Hm. apply get_set_other. intros E. apply counterId_inj in E. lia.
  - intros j Hj. apply nth_error_setCell_other. lia.
  - apply length_setCell.
Qed.

Lemma expandEntries_preserves (spreadName : string) (index localIndex : nat)
      (entries : list (string * Value)) (st : Scan) (lo hi : nat) :
  JsString.startsWithColons spreadName = true ->
  preserves lo hi st (expandEntries spreadName index localIndex entries st) /\
  scanAttributes (expandEntries spreadName index localIndex entries st)
  = scanAttributes st.
Proof.
  intros Hc. revert localIndex st.
  induction entries as [|[field c] rest IH]; intros localIndex st.
  - split; [apply preserves_refl|reflexivity].
  - cbn [expandEntries]. unfold newSignal, generateId. cbn.
    match goal with
    | |- preserves _ _ _ (expandEntries _ _ _ _ ?st1) /\ _ =>
        destruct (IH (S localIndex) st1) as [(Hs & Hn & Hd & Hcell & Hl) Hattrs]
    end.
    cbn in *. split; [|exact Hattrs].
    repeat split.
    + destruct Hs as [e E]. rewrite E, <- app_assoc. eexists. reflexivity.
    + lia.
    + intros m Hm. rewrite Hd by lia.
      apply get_set_other. now apply spread_id_not_counterId.
    + exact Hcell.
    + exact Hl.
Qed.

Lemma expandSpread_preserves (st : Scan) (index : nat) (attribute : Attribute) :
  JsString.startsWithColons (name attribute) = true ->
  preserves index (S index) st (expandSpread st index attribute).
Proof.
  intros Hc. unfold expandSpread.
  set (st1 := match JsMap.get (scanDatabase st) (name attribute) with
              | Some packet => _
              | None => st
              end).
  assert (H1 : preserves index (S index) st st1 /\ scanAttributes st1 = scanAttributes st).
  { subst st1. destruct (JsMap.get (scanDatabase st) (name attribute)) as [packet|].
    - destruct (isObjectType packet).
      + now apply expandEntries_preserves.
      + split; [apply preserves_refl|reflexivity].
    - split; [apply preserves_refl|reflexivity]. }
  destruct H1 as [(Hs & Hn & Hd & Hcell & Hl) Hattrs].
  repeat split; cbn; auto.
  - intros j Hj. rewrite nth_error_setCell_other by lia. now apply Hcell.
  - now rewrite length_setCell.
Qed.

Lemma scanAttribute_preserves (st : Scan) (index : nat) (attribute : Attribute) :
  preserves index (S index) st (scanAttribute st index attribute).
Proof.
  unfold scanAttribute.
  destruct (JsString.startsWithColons (name attribute)) eqn:Hc; cbn [negb].
  - now apply expandSpread_preserves.
  - apply upgradePlain_preserves.
Qed.

Lemma scanFrom_preserves (attributes : list Attribute) (index : nat) (st : Scan) :
  preserves index (index + List.length attributes) st (scanFrom index attributes st).
Proof.
  revert index st. induction attributes as [|a rest IH]; intros index st.
  - apply preserves_refl.
  - cbn [scanFrom List.length].
    apply (preserves_trans index (S index) _ st (scanAttribute st index a)).
    + lia.
    + lia.
    + apply scanAttribute_preserves.
    + replace (index + S (List.length rest)) with (S index + List.length rest) by lia.
      apply IH.
Qed.

Lemma scanFrom_app (pre post : list Attribute) (index : nat) (st : Scan) :
  scanFrom index (pre ++ post) st
  = scanFrom (index + List.length pre) post (scanFrom index pre st).
Proof.
  revert index st. induction pre as [|a pre IH]; intros index st; cbn.
  - now rewrite Nat.add_0_r.
  - rewrite IH. f_equal. lia.
Qed.

Lemma In_spliceIn {A} (start : nat) (x y : A) (l : list A) :
  In y l -> In y (spliceIn start x l).
Proof.
  revert start. induction l as [|z l IH]; intros [|i] Hin; simpl in *; auto.
  destruct Hin as [->|Hin]; auto.
Qed.

Lemma In_applySplices (pending : list Pending) (y : option Attribute)
      (l : list (option Attribute)) :
  In y l -> In y (applySplices pending l).
Proof.
  revert l. induction pending as [|p rest IH]; intros l Hin; cbn; auto.
  apply IH. now apply In_spliceIn.
Qed.

End AttributeUpgrade.

Section UpgradedCells.











End UpgradedCells.




(** Numeric strings, and numeric strings followed by a percent sign, are
    parsed as the specification says. *)
Example parse_examples :
  map (fun s => parseElementAttributeValue (VString s))
      ["200"; "12.5"; " 42 "; "-1e3"; "50%"; "Foo"; "12px"]%string
  = [VNumber (Decimal "200"); VNumber (Decimal "12.5"); VNumber (Decimal "42");
     VNumber (Decimal "-1e3");
     VObject [("value", VNumber (Decimal "50")); ("unit", VString "%")];
     VString "Foo"; VString "12px"]%string
  /\ map parseAsSpecified ["200"; "12.5"; " 42 "; "-1e3"; "50%"; "Foo"; "12px"]%string
     = map (fun s => parseElementAttributeValue (VString s))
           ["200"; "12.5"; " 42 "; "-1e3"; "50%"; "Foo"; "12px"]%string.
Proof. split; reflexivity. Qed.

(** ** Node interpolation *)

Section NodeImport.

Lemma flat_map_singletons {A} (f : A -> list A) (l : list A) :
  Forall (fun c => f c = [c]) l -> flat_map f l = l.
Proof.
  induction 1 as [|c l Hc _ IH]; simpl; [reflexivity|]. now rewrite Hc, IH.
Qed.

Lemma not_in_flat_map_treeIds (target : nat) (l : list Node) :
  ~ In target (flat_map treeIds l) ->
  Forall (fun c => ~ In target (treeIds c)) l.
Proof.
  intros Hn. apply Forall_forall. intros c Hc Hin. apply Hn.
  apply in_flat_map. now exists c.
Qed.

Lemma nodeId_in_treeIds (n : Node) : In (nodeId n) (treeIds n).
Proof. destruct n; simpl; auto. Qed.

Lemma insertAfter_fresh (target : nat) (nodes : list Node) (n : Node) :
  ~ In target (treeIds n) -> insertAfter target nodes n = n.
Proof.
  induction n as [i t a cs IH| |] using Node_forall_ind; intros Hn;
    try reflexivity.
  cbn [insertAfter]. f_equal. apply flat_map_singletons.
  cbn [treeIds] in Hn.
  assert (Hcs : Forall (fun c => ~ In target (treeIds c)) cs).
  { apply not_in_flat_map_treeIds. intros Hin. apply Hn. now right. }
  rewrite Forall_forall in IH, Hcs. apply Forall_forall. intros c Hc.
  destruct (Nat.eqb (nodeId c) target) eqn:E.
  - apply Nat.eqb_eq in E. exfalso. apply (Hcs c Hc).
    rewrite <- E. apply nodeId_in_treeIds.
  - now rewrite (IH c Hc (Hcs c Hc)).
Qed.

Lemma removeNode_fresh (target : nat) (n : Node) :
  ~ In target (treeIds n) -> removeNode target n = n.
Proof.
  induction n as [i t a cs IH| |] using Node_forall_ind; intros Hn;
    try reflexivity.
  cbn [removeNode]. f_equal. apply flat_map_singletons.
  cbn [treeIds] in Hn.
  assert (Hcs : Forall (fun c => ~ In target (treeIds c)) cs).
  { apply not_in_flat_map_treeIds. intros Hin. apply Hn. now right. }
  rewrite Forall_forall in IH, Hcs. apply Forall_forall. intros c Hc.
  destruct (Nat.eqb (nodeId c) target) eqn:E.
  - apply Nat.eqb_eq in E. exfalso. apply (Hcs c Hc).
    rewrite <- E. apply nodeId_in_treeIds.
  - now rewrite (IH c Hc (Hcs c Hc)).
Qed.

Lemma insertAfterForest_fresh (target : nat) (nodes l : list Node) :
  ~ In target (flat_map treeIds l) -> insertAfterForest target nodes l = l.
Proof.
  intros Hn. apply flat_map_singletons.
  apply not_in_flat_map_treeIds in Hn. rewrite Forall_forall in Hn.
  apply Forall_forall. intros c Hc.
  destruct (Nat.eqb (nodeId c) target) eqn:E.
  - apply Nat.eqb_eq in E. exfalso. apply (Hn c Hc).
    rewrite <- E. apply nodeId_in_treeIds.
  - now rewrite insertAfter_fresh by now apply Hn.
Qed.

Lemma removeForest_fresh (target : nat) (l : list Node) :
  ~ In target (flat_map treeIds l) -> removeForest target l = l.
Proof.
  intros Hn. apply flat_map_singletons.
  apply not_in_flat_map_treeIds in Hn. rewrite Forall_forall in Hn.
  apply Forall_forall. intros c Hc.
  destruct (Nat.eqb (nodeId c) target) eqn:E.
  - apply Nat.eqb_eq in E. exfalso. apply (Hn c Hc).
    rewrite <- E. apply nodeId_in_treeIds.
  - now rewrite removeNode_fresh by now apply Hn.
Qed.

Lemma insertPlannedForest_app (p : nat * list Node) (l1 l2 : list Node) :
  insertPlannedForest p (l1 ++ l2)
  = insertPlannedForest p l1 ++ insertPlannedForest p l2.
Proof.
  unfold insertPlannedForest, insertAfterForest.
  destruct (Nat.ltb 0 (List.length (snd p))); [apply flat_map_app|reflexivity].
Qed.

Lemma insertAllForest_app (plan : list (nat * list Node)) (l1 l2 : list Node) :
  insertAllForest plan (l1 ++ l2)
  = insertAllForest plan l1 ++ insertAllForest plan l2.
Proof.
  unfold insertAllForest. revert l1 l2.
  induction plan as [|p plan IH]; intros l1 l2; cbn; [reflexivity|].
  now rewrite insertPlannedForest_app, IH.
Qed.

Lemma removeAllForest_app (targets : list nat) (l1 l2 : list Node) :
  removeAllForest targets (l1 ++ l2)
  = removeAllForest targets l1 ++ removeAllForest targets l2.
Proof.
  unfold removeAllForest. revert l1 l2.
  induction targets as [|x targets IH]; intros l1 l2; cbn; [reflexivity|].
  unfold removeForest at 2. rewrite flat_map_app. apply IH.
Qed.

Lemma insertAll_Element (plan : list (nat * list Node)) i t a cs :
  insertAll plan (Element i t a cs)
  = Element i t a (insertAllForest plan cs).
Proof.
  unfold insertAll, insertAllForest. revert cs.
  induction plan as [|p plan IH]; intros cs; cbn; [reflexivity|].
  unfold insertPlanned at 2, insertPlannedForest at 2.
  destruct (Nat.ltb 0 (List.length (snd p))); cbn [insertAfter]; apply IH.
Qed.

Lemma removeAll_Element (targets : list nat) i t a cs :
  removeMarkers targets (Element i t a cs)
  = Element i t a (removeAllForest targets cs).
Proof.
  unfold removeMarkers, removeAllForest. revert cs.
  induction targets as [|x targets IH]; intros cs; cbn; [reflexivity|].
  apply IH.
Qed.

Lemma insertAllForest_fresh (plan : list (nat * list Node)) (l : list Node) :
  (forall j, In j (flat_map treeIds l) -> ~ In j (map fst plan)) ->
  insertAllForest plan l = l.
Proof.
  unfold insertAllForest.
  induction plan as [|p plan IH]; intros Hf; cbn; [reflexivity|].
  assert (E : insertPlannedForest p l = l).
  { unfold insertPlannedForest.
    destruct (Nat.ltb 0 (List.length (snd p))); [|reflexivity].
    apply insertAfterForest_fresh. intros Hin. apply (Hf _ Hin). now left. }
  rewrite E. apply IH. intros j Hj Hin. apply (Hf j Hj). now right.
Qed.

Lemma removeAllForest_fresh (targets : list nat) (l : list Node) :
  (forall j, In j (flat_map treeIds l) -> ~ In j targets) ->
  removeAllForest targets l = l.
Proof.
  unfold removeAllForest.
  induction targets as [|x targets IH]; intros Hf; cbn; [reflexivity|].
  rewrite removeForest_fresh.
  - apply IH. intros j Hj Hin. apply (Hf j Hj). now right.
  - intros Hin. apply (Hf _ Hin). now left.
Qed.

End NodeImport.

Section MarkerReplacement.

Variable plan : list (nat * list Node).
Local Abbreviation targets := (map fst plan).

Hypothesis targets_distinct : NoDup targets.
Hypothesis imports_fresh :
  forall j nodes, In (j, nodes) plan ->
  forall k, In k (flat_map treeIds nodes) -> ~ In k targets.

Lemma planFor_None (i : nat) (p : list (nat * list Node)) :
  ~ In i (map fst p) -> planFor p i = None.
Proof.
  induction p as [|[j ns] p IH]; cbn; intros Hn; [reflexivity|].
  destruct (Nat.eqb j i) eqn:E.
  - apply Nat.eqb_eq in E. exfalso. apply Hn. now left.
  - apply IH. intros Hin. apply Hn. now right.
Qed.

Lemma planFor_In (i : nat) (p : list (nat * list Node)) :
  In i (map fst p) -> exists nodes, planFor p i = Some nodes /\ In (i, nodes) p.
Proof.
  induction p as [|[j ns] p IH]; cbn; intros Hin; [contradiction|].
  destruct (Nat.eqb j i) eqn:E.
  - apply Nat.eqb_eq in E. subst j. exists ns. auto.
  - destruct Hin as [->|Hin]; [now rewrite Nat.eqb_refl in E|].
    destruct (IH Hin) as (nodes & Hp & Hi). exists nodes. auto.
Qed.

Lemma removeAllForest_nil (ts : list nat) : removeAllForest ts [] = [].
Proof. unfold removeAllForest. induction ts; cbn; auto. Qed.

(** A marker: the planned nodes are put after it, then it is removed. *)
Lemma insertAllForest_marker (p : list (nat * list Node)) (i : nat) (text : string)
      (nodes : list Node) :
  NoDup (map fst p) ->
  (forall j ns, In (j, ns) p ->
     forall k, In k (flat_map treeIds ns) -> ~ In k (map fst p)) ->
  planFor p i = Some nodes ->
  insertAllForest p [Comment i text] = Comment i text :: nodes.
Proof.
  induction p as [|[j ns] p IH]; intros Hnd Hfresh Hplan; [discriminate|].
  cbn in Hplan, Hnd. apply NoDup_cons_iff in Hnd as [Hj Hnd].
  change (insertAllForest ((j, ns) :: p) [Comment i text])
    with (insertAllForest p (insertPlannedForest (j, ns) [Comment i text])).
  destruct (Nat.eqb j i) eqn:E.
  - apply Nat.eqb_eq in E. subst j. injection Hplan as ->.
    assert (E1 : insertPlannedForest (i, nodes) [Comment i text]
                 = [Comment i text] ++ nodes).
    { unfold insertPlannedForest, insertAfterForest. cbn [fst snd].
      destruct nodes as [|x nodes]; [reflexivity|].
      cbn [List.length Nat.ltb Nat.leb flat_map nodeId].
      now rewrite Nat.eqb_refl, !app_nil_r. }
    rewrite E1, insertAllForest_app.
    rewrite (insertAllForest_fresh p [Comment i text]).
    + rewrite (insertAllForest_fresh p nodes); [reflexivity|].
      intros k Hk Hin. apply (Hfresh i nodes (or_introl eq_refl) k Hk). now right.
    + cbn. intros k [<-|[]]. exact Hj.
  - assert (E1 : insertPlannedForest (j, ns) [Comment i text] = [Comment i text]).
    { unfold insertPlannedForest, insertAfterForest. cbn [fst snd].
      destruct (Nat.ltb 0 (List.length ns)); [|reflexivity].
      cbn [flat_map nodeId]. now rewrite Nat.eqb_sym, E. }
    rewrite E1. apply IH; auto.
    intros j' ns' Hin k Hk Hin'.
    apply (Hfresh j' ns' (or_intror Hin) k Hk). now right.
Qed.

Lemma removeAllForest_marker (ts : list nat) (i : nat) (text : string) :
  In i ts -> removeAllForest ts [Comment i text] = [].
Proof.
  induction ts as [|x ts IH]; intros Hin; [contradiction|].
  change (removeAllForest (x :: ts) [Comment i text])
    with (removeAllForest ts (removeForest x [Comment i text])).
  unfold removeForest. cbn. destruct (Nat.eqb i x) eqn:E.
  - apply removeAllForest_nil.
  - apply IH. destruct Hin as [->|Hin]; [now rewrite Nat.eqb_refl in E|exact Hin].
Qed.

(** An element that is no marker: the plan is carried out among its
    children. *)
Lemma insertAllForest_Element (p : list (nat * list Node)) i t a cs :
  ~ In i (map fst p) ->
  insertAllForest p [Element i t a cs] = [Element i t a (insertAllForest p cs)].
Proof.
  revert cs. induction p as [|[j ns] p IH]; intros cs Hn; [reflexivity|].
  change (insertAllForest ((j, ns) :: p) [Element i t a cs])
    with (insertAllForest p (insertPlannedForest (j, ns) [Element i t a cs])).
  change (insertAllForest ((j, ns) :: p) cs)
    with (insertAllForest p (insertPlannedForest (j, ns) cs)).
  assert (Hij : Nat.eqb i j = false).
  { apply Nat.eqb_neq. intros ->. apply Hn. now left. }
  assert (E1 : insertPlannedForest (j, ns) [Element i t a cs]
               = [Element i t a (insertPlannedForest (j, ns) cs)]).
  { unfold insertPlannedForest, insertAfterForest. cbn [fst snd].
    destruct (Nat.ltb 0 (List.length ns)); [|reflexivity].
    cbn [flat_map nodeId insertAfter]. now rewrite Hij. }
  rewrite E1. apply IH. intros Hin. apply Hn. now right.
Qed.

Lemma removeAllForest_Element (ts : list nat) i t a cs :
  ~ In i ts ->
  removeAllForest ts [Element i t a cs] = [Element i t a (removeAllForest ts cs)].
Proof.
  revert cs. induction ts as [|x ts IH]; intros cs Hn; [reflexivity|].
  change (removeAllForest (x :: ts) [Element i t a cs])
    with (removeAllForest ts (removeForest x [Element i t a cs])).
  change (removeAllForest (x :: ts) cs)
    with (removeAllForest ts (removeForest x cs)).
  assert (Hix : Nat.eqb i x = false).
  { apply Nat.eqb_neq. intros ->. apply Hn. now left. }
  unfold removeForest at 1. cbn. rewrite Hix. cbn.
  apply IH. intros Hin. apply Hn. now right.
Qed.

Lemma markersAreComments_head (c : Node) (l : list Node) :
  markersAreComments targets (c :: l) -> markersAreComments targets [c].
Proof.
  intros Hm c' Hc'. apply Hm. cbn in *. rewrite app_nil_r in Hc'.
  apply in_or_app. now left.
Qed.

Lemma markersAreComments_tail (c : Node) (l : list Node) :
  markersAreComments targets (c :: l) -> markersAreComments targets l.
Proof.
  intros Hm c' Hc'. apply Hm. cbn. apply in_or_app. now right.
Qed.

Lemma replace_forest_from (l : list Node) :
  Forall (fun n => markersAreComments targets [n] ->
                   removeAllForest targets (insertAllForest plan [n])
                   = replaceForest plan [n]) l ->
  markersAreComments targets l ->
  removeAllForest targets (insertAllForest plan l) = replaceForest plan l.
Proof.
  induction 1 as [|c l Hc _ IH]; intros Hm.
  { rewrite insertAllForest_fresh by (intros j []). apply removeAllForest_nil. }
  change (c :: l) with ([c] ++ l).
  rewrite insertAllForest_app, removeAllForest_app.
  unfold replaceForest. rewrite flat_map_app.
  fold (replaceForest plan [c]). fold (replaceForest plan l).
  rewrite Hc, IH; eauto using markersAreComments_head, markersAreComments_tail.
Qed.

Lemma leaf_untouched (n : Node) :
  treeIds n = [nodeId n] -> ~ In (nodeId n) targets ->
  removeAllForest targets (insertAllForest plan [n]) = [n].
Proof.
  intros Hleaf Hn.
  rewrite insertAllForest_fresh, removeAllForest_fresh; auto;
    cbn; rewrite Hleaf; cbn; intros k [<-|[]]; exact Hn.
Qed.

Lemma replace_node (n : Node) :
  markersAreComments targets [n] ->
  removeAllForest targets (insertAllForest plan [n]) = replaceForest plan [n].
Proof.
  induction n as [i t a cs IH|i text|i text] using Node_forall_ind; intros Hm.
  - assert (Hi : ~ In i targets).
    { intros Hin. destruct (Hm (Element i t a cs)) as [text E]; [|exact Hin|discriminate].
      cbn. now left. }
    rewrite insertAllForest_Element, removeAllForest_Element by exact Hi.
    unfold replaceForest. cbn [flat_map nodeId].
    rewrite (planFor_None i plan Hi). cbn [replaceMarkers app].
    do 2 f_equal. fold (replaceForest plan cs).
    apply replace_forest_from; [exact IH|].
    intros c Hc. apply Hm. cbn. right. now rewrite app_nil_r.
  - unfold replaceForest. cbn [flat_map nodeId].
    destruct (in_dec Nat.eq_dec i targets) as [Hin|Hn].
    + destruct (planFor_In i plan Hin) as (nodes & Hp & Hi).
      rewrite Hp, (insertAllForest_marker plan i text nodes targets_distinct imports_fresh Hp).
      change (Comment i text :: nodes) with ([Comment i text] ++ nodes).
      rewrite removeAllForest_app, removeAllForest_marker by exact Hin.
      rewrite removeAllForest_fresh; [now rewrite app_nil_r|].
      intros k Hk. now apply (imports_fresh i nodes Hi).
    + rewrite (planFor_None i plan Hn). cbn [replaceMarkers app].
      now apply leaf_untouched.
  - assert (Hi : ~ In i targets).
    { intros Hin. destruct (Hm (Text i text)) as [text' E]; [|exact Hin|discriminate].
      cbn. now left. }
    unfold replaceForest. cbn [flat_map nodeId].
    rewrite (planFor_None i plan Hi). cbn [replaceMarkers app].
    now apply leaf_untouched.
Qed.

Lemma replace_forest (l : list Node) :
  markersAreComments targets l ->
  removeAllForest targets (insertAllForest plan l) = replaceForest plan l.
Proof.
  apply replace_forest_from. apply Forall_forall. intros n _. apply replace_node.
Qed.

(** The loop of insertions followed by the loop of removals is the
    one-pass replacement. *)
Lemma insertAll_leaf (p : list (nat * list Node)) (n : Node) :
  childrenOf n = [] -> (forall i t a cs, n <> Element i t a cs) ->
  insertAll p n = n.
Proof.
  intros _ Hleaf. unfold insertAll. induction p as [|x p IH]; cbn; [reflexivity|].
  assert (E : insertPlanned x n = n).
  { unfold insertPlanned. destruct (Nat.ltb 0 _); [|reflexivity].
    destruct n; [now exfalso; eapply Hleaf|reflexivity|reflexivity]. }
  now rewrite E.
Qed.

Lemma removeMarkers_leaf (ts : list nat) (n : Node) :
  (forall i t a cs, n <> Element i t a cs) -> removeMarkers ts n = n.
Proof.
  intros Hleaf. unfold removeMarkers. induction ts as [|x ts IH]; cbn; [reflexivity|].
  assert (E : removeNode x n = n).
  { destruct n; [now exfalso; eapply Hleaf|reflexivity|reflexivity]. }
  now rewrite E.
Qed.

Lemma replace_tree (root : Node) :
  markersAreComments targets (childrenOf root) ->
  removeMarkers targets (insertAll plan root) = replaceMarkers plan root.
Proof.
  destruct root as [i t a cs|i text|i text]; intros Hm.
  - rewrite insertAll_Element, removeAll_Element. cbn [replaceMarkers].
    f_equal. now apply replace_forest.
  - rewrite insertAll_leaf, removeMarkers_leaf; try reflexivity; discriminate.
  - rewrite insertAll_leaf, removeMarkers_leaf; try reflexivity; discriminate.
Qed.

End MarkerReplacement.

Section NodeInterpolation.

Lemma importFor_roots (h h' : Heap) (db db' : Database) (text : string)
      (nodes : list Node) :
  importFor h db text = Returned (db', h', nodes) ->
  roots h' = roots h /\
  (nodes = [] \/ exists root, In root (roots h) /\ nodes = childrenOf root).
Proof.
  unfold importFor, importRecord.
  destruct (JsMap.get db text) as [record|].
  - destruct (notNullish (content record)); [|discriminate].
    destruct (property (content record) "context"); try discriminate.
    destruct (nth_error (maps h) ref) as [remote|]; [|discriminate].
    destruct (property (content record) "root"); try discriminate.
    destruct (nth_error (roots h) ref0) as [root|] eqn:Er; [|discriminate].
    intros E. injection E as <- <- <-. split; [reflexivity|].
    right. exists root. split; [|reflexivity]. now apply nth_error_In in Er.
  - intros E. injection E as <- <- <-. auto.
Qed.

Lemma importPlan_targets (ms : list (nat * string)) (h h' : Heap)
      (db db' : Database) (plan : list (nat * list Node)) :
  importPlan ms h db = Returned (db', h', plan) ->
  map fst plan = map fst ms /\
  forall j nodes, In (j, nodes) plan ->
    nodes = [] \/ exists root, In root (roots h) /\ nodes = childrenOf root.
Proof.
  revert h db db' h' plan.
  induction ms as [|[i text] ms IH]; intros h db db' h' plan; cbn.
  - intros E. injection E as <- <- <-. split; [reflexivity|]. intros j nodes [].
  - destruct (importFor h db text) as [[[db1 h1] nodes1]|e] eqn:E1; cbn;
      [|discriminate].
    destruct (importPlan ms h1 db1) as [[[db2 h2] plan2]|e] eqn:E2; cbn;
      [|discriminate].
    intros E. injection E as <- <- <-.
    destruct (IH _ _ _ _ _ E2) as [Ht Hs].
    destruct (importFor_roots _ _ _ _ _ _ E1) as [Hr Hn].
    split; [cbn; now rewrite Ht|].
    intros j nodes [E|Hin].
    + injection E as <- <-. exact Hn.
    + rewrite <- Hr. eauto.
Qed.

(** The loop over the markers carries out the plan on the tree. *)
Lemma importMarkers_plan (ms : list (nat * string)) (h h' : Heap)
      (db db' : Database) (plan : list (nat * list Node))
      (tree : Node) (warnings : list nat) :
  importPlan ms h db = Returned (db', h', plan) ->
  importMarkers ms (mkNodesState db h tree warnings)
  = Returned (mkNodesState db' h' (insertAll plan tree)
                           (warnings ++ emptyImports plan)).
Proof.
  revert h db db' h' plan tree warnings.
  induction ms as [|[i text] ms IH]; intros h db db' h' plan tree warnings; cbn.
  - intros E. injection E as <- <- <-. cbn. now rewrite app_nil_r.
  - unfold importMarker. cbn [nsHeap nsDatabase snd fst nsRoot nsWarnings].
    destruct (importFor h db text) as [[[db1 h1] nodes1]|e] eqn:E1; cbn [bind];
      [|discriminate].
    destruct (importPlan ms h1 db1) as [[[db2 h2] plan2]|e] eqn:E2; cbn [bind];
      [|discriminate].
    intros E. injection E as <- <- <-.
    unfold insertAll, emptyImports. cbn [fold_left filter snd fst].
    unfold insertPlanned at 2. cbn [snd fst].
    destruct (Nat.ltb 0 (List.length nodes1)); cbn [negb map].
    + now rewrite (IH _ _ _ _ _ _ _ E2).
    + rewrite (IH _ _ _ _ _ _ _ E2). unfold insertAll, emptyImports.
      now rewrite <- app_assoc.
Qed.

Lemma importMarkers_thrown (ms : list (nat * string)) (h : Heap) (db : Database)
      (e : JsError) (tree : Node) (warnings : list nat) :
  importPlan ms h db = Thrown e ->
  importMarkers ms (mkNodesState db h tree warnings) = Thrown e.
Proof.
  revert h db tree warnings.
  induction ms as [|[i text] ms IH]; intros h db tree warnings; cbn;
    [discriminate|].
  unfold importMarker. cbn [nsHeap nsDatabase snd fst nsRoot nsWarnings].
  destruct (importFor h db text) as [[[db1 h1] nodes1]|e1] eqn:E1; cbn [bind];
    [|intros E; now injection E as ->].
  destruct (importPlan ms h1 db1) as [[[db2 h2] plan2]|e2] eqn:E2; cbn [bind];
    [discriminate|].
  intros E. injection E as <-.
  destruct (Nat.ltb 0 (List.length nodes1)); now apply IH.
Qed.

Lemma treeIds_nodesOf (n : Node) : treeIds n = map nodeId (nodesOf n).
Proof.
  induction n as [i t a cs IH| |] using Node_forall_ind; try reflexivity.
  cbn. f_equal. induction IH as [|c cs Hc _ IHcs]; cbn; [reflexivity|].
  now rewrite map_app, Hc, IHcs.
Qed.

Lemma findComments_nodesOf (p : string -> bool) (n : Node) (i : nat) (text : string) :
  In (i, text) (findComments p n) -> In (Comment i text) (nodesOf n).
Proof.
  induction n as [j t a cs IH|j text'|j text'] using Node_forall_ind; cbn.
  - intros Hin. right. apply in_flat_map in Hin as (c & Hc & Hin).
    apply in_flat_map. exists c. split; [exact Hc|].
    rewrite Forall_forall in IH. now apply IH.
  - destruct (p text'); cbn; [|tauto]. intros [E|[]]. injection E as <- <-. auto.
  - tauto.
Qed.

Lemma NoDup_app_disjoint {A} (l1 l2 : list A) (x : A) :
  NoDup (l1 ++ l2) -> In x l1 -> ~ In x l2.
Proof.
  induction l1 as [|y l1 IH]; cbn; [tauto|].
  intros Hnd [->|Hin] Hx; apply NoDup_cons_iff in Hnd as [Hy Hnd].
  - apply Hy. apply in_or_app. now right.
  - now apply (IH Hnd Hin).
Qed.

Lemma NoDup_map_injective {A B} (f : A -> B) (l : list A) (x y : A) :
  NoDup (map f l) -> In x l -> In y l -> f x = f y -> x = y.
Proof.
  induction l as [|z l IH]; cbn; [tauto|].
  intros Hnd Hx Hy E. apply NoDup_cons_iff in Hnd as [Hz Hnd].
  destruct Hx as [->|Hx], Hy as [->|Hy]; auto.
  - exfalso. apply Hz. rewrite E. now apply in_map.
  - exfalso. apply Hz. rewrite <- E. now apply in_map.
Qed.

Lemma findComments_ids (p : string -> bool) (n : Node) (i : nat) :
  In i (map fst (findComments p n)) -> In i (treeIds n).
Proof.
  intros Hin. apply in_map_iff in Hin as ([j text] & <- & Hin).
  apply findComments_nodesOf in Hin. rewrite treeIds_nodesOf.
  apply in_map_iff. now exists (Comment j text).
Qed.

Lemma NoDup_findComments (p : string -> bool) (n : Node) :
  NoDup (treeIds n) -> NoDup (map fst (findComments p n)).
Proof.
  induction n as [j t a cs IH|j text|j text] using Node_forall_ind; cbn.
  - intros Hnd. apply NoDup_cons_iff in Hnd as [_ Hnd].
    induction IH as [|c cs Hc _ IHcs]; cbn in *; [constructor|].
    rewrite map_app. apply NoDup_app.
    + apply Hc. now apply NoDup_app_remove_r in Hnd.
    + apply IHcs. now apply NoDup_app_remove_l in Hnd.
    + intros i Hi Hi'. apply findComments_ids in Hi.
      apply (NoDup_app_disjoint _ _ i Hnd Hi).
      apply in_map_iff in Hi' as ([k text] & <- & Hin).
      apply in_flat_map in Hin as (c' & Hc' & Hin).
      apply in_flat_map. exists c'. split; [exact Hc'|].
      apply findComments_ids with (p := p).
      apply in_map_iff. now exists (k, text).
  - intros _. destruct (p text); cbn; repeat constructor. tauto.
  - constructor.
Qed.

Lemma markers_are_comments (p : string -> bool) (root : Node) :
  NoDup (treeIds root) ->
  markersAreComments (map fst (findComments p root)) (childrenOf root).
Proof.
  intros Hnd c Hc Hin.
  assert (Hc' : In c (nodesOf root)).
  { destruct root; cbn in *; auto; contradiction. }
  apply in_map_iff in Hin as ([i text] & Hi & Hin). cbn in Hi.
  apply findComments_nodesOf in Hin.
  rewrite treeIds_nodesOf in Hnd.
  assert (E : Comment i text = c).
  { apply (NoDup_map_injective nodeId (nodesOf root)); auto. }
  exists text. now rewrite <- E.
Qed.

Lemma get_absent {V} (m : JsMap.t V) (k : string) :
  ~ In k (JsMap.keys m) -> JsMap.get m k = None.
Proof.
  induction m as [|[k' x] m IH]; cbn; [reflexivity|]. intros Hn.
  destruct (String.eqb k' k) eqn:E.
  - apply String.eqb_eq in E. exfalso. apply Hn. now left.
  - apply IH. intros Hin. apply Hn. now right.
Qed.

(** After the merge, a key of the donor has the donor's value, any other
    key the value it had in the receiver. *)
Lemma get_mergeInto (remote database : Database) (k : string) :
  NoDup (JsMap.keys remote) ->
  JsMap.get (mergeInto database remote) k
  = match JsMap.get remote k with
    | Some r => Some r
    | None => JsMap.get database k
    end.
Proof.
  unfold mergeInto. revert database.
  induction remote as [|[k0 r0] remote IH]; intros database Hnd; cbn;
    [reflexivity|].
  cbn in Hnd. apply NoDup_cons_iff in Hnd as [Hk0 Hnd].
  rewrite IH by exact Hnd.
  destruct (String.eqb k0 k) eqn:E.
  - apply String.eqb_eq in E. subst k0.
    rewrite (get_absent remote k Hk0). apply get_set_same.
  - destruct (JsMap.get remote k); [reflexivity|].
    apply get_set_other. now apply String.eqb_neq.
Qed.

End NodeInterpolation.

Lemma replaceForest_cons (plan : list (nat * list Node)) (c : Node) (l : list Node) :
  replaceForest plan (c :: l) = replaceForest plan [c] ++ replaceForest plan l.
Proof. unfold replaceForest. cbn [flat_map]. now rewrite app_nil_r. Qed.

Lemma no_targets_from (plan : list (nat * list Node)) (k : nat) (l : list Node) :
  Forall (fun n => markersAreComments (map fst plan) [n] ->
                   ~ In k (flat_map treeIds (replaceForest plan [n]))) l ->
  markersAreComments (map fst plan) l ->
  ~ In k (flat_map treeIds (replaceForest plan l)).
Proof.
  induction 1 as [|c l Hc _ IH]; intros Hm Hin; [contradiction|].
  rewrite replaceForest_cons, flat_map_app in Hin.
  apply in_app_or in Hin as [Hin|Hin].
  - apply Hc; [|exact Hin].
    intros c' Hc'. apply Hm. cbn in *. rewrite app_nil_r in Hc'.
    apply in_or_app. now left.
  - apply IH; [|exact Hin].
    intros c' Hc'. apply Hm. cbn. apply in_or_app. now right.
Qed.

Lemma replaceForest_no_targets (plan : list (nat * list Node)) (l : list Node) :
  (forall j nodes, In (j, nodes) plan ->
     forall k, In k (flat_map treeIds nodes) -> ~ In k (map fst plan)) ->
  markersAreComments (map fst plan) l ->
  forall k, In k (map fst plan) -> ~ In k (flat_map treeIds (replaceForest plan l)).
Proof.
  intros Hfresh Hm k Hk. apply no_targets_from; [|exact Hm].
  apply Forall_forall. intros n _. clear l Hm.
  induction n as [i t a cs IH|i text|i text] using Node_forall_ind; intros Hn;
    unfold replaceForest; cbn [flat_map nodeId].
  - assert (Hi : ~ In i (map fst plan)).
    { intros Hin. destruct (Hn (Element i t a cs)) as [text E];
        [cbn; now left|exact Hin|discriminate]. }
    rewrite (planFor_None i plan Hi). cbn [replaceMarkers app flat_map treeIds].
    rewrite app_nil_r. fold (replaceForest plan cs).
    intros [->|Hin]; [contradiction|].
    revert Hin. apply no_targets_from; [exact IH|].
    intros c Hc. apply Hn. cbn. right. now rewrite app_nil_r.
  - destruct (in_dec Nat.eq_dec i (map fst plan)) as [Hin|Hi].
    + destruct (planFor_In i plan Hin) as (nodes & Hp & Hi).
      rewrite Hp, app_nil_r. intros Hin'. now apply (Hfresh i nodes Hi k Hin').
    + rewrite (planFor_None i plan Hi). cbn. intros [->|[]]. contradiction.
  - assert (Hi : ~ In i (map fst plan)).
    { intros Hin. destruct (Hn (Text i text)) as [text' E];
        [cbn; now left|exact Hin|discriminate]. }
    rewrite (planFor_None i plan Hi). cbn. intros [->|[]]. contradiction.
Qed.

(** When no import throws, node interpolation replaces every content
    marker by the children of the nested template result its record
    holds.  For one marker: the
    entries of the nested database are copied into the parent database (a
    key of the nested database gets the nested record, every other key
    keeps its record), the nested database is emptied, no other database
    is touched, and the nodes to import are the children of the nested
    root in their order; a marker without record imports nothing and
    throws nothing.  For the whole tree, when no import throws: the result
    is the tree in which every marker is replaced, in place, by the nodes
    imported for it; no marker is left below the root; and a diagnostic is
    recorded exactly for the markers that imported nothing. *)
Theorem interpolateNodes_imports_nested_templates
        (h : Heap) (database : Database) (root : Node) :
  (forall text record m r remote nestedRoot,
      JsMap.get database text = Some record ->
      property (content record) "context" = VMap m ->
      property (content record) "root" = VNode r ->
      nth_error (maps h) m = Some remote ->
      NoDup (JsMap.keys remote) ->
      nth_error (roots h) r = Some nestedRoot ->
      exists database' h',
        importFor h database text = Returned (database', h', childrenOf nestedRoot) /\
        (forall k, JsMap.get database' k
                   = match JsMap.get remote k with
                     | Some x => Some x
                     | None => JsMap.get database k
                     end) /\
        nth_error (maps h') m = Some [] /\
        (forall m', m' <> m -> nth_error (maps h') m' = nth_error (maps h) m') /\
        roots h' = roots h) /\
  (forall text,
      JsMap.get database text = None ->
      importFor h database text = Returned (database, h, [])) /\
  (forall database' h' plan,
      let markers := findComments JsString.startsWithColons root in
      NoDup (treeIds root) ->
      (forall nestedRoot k,
          In nestedRoot (roots h) ->
          In k (flat_map treeIds (childrenOf nestedRoot)) ->
          ~ In k (map fst markers)) ->
      importPlan markers h database = Returned (database', h', plan) ->
      interpolateNodes h database root
      = Returned (mkNodesState database' h' (replaceMarkers plan root)
                               (emptyImports plan)) /\
      map fst plan = map fst markers /\
      forall k, In k (map fst markers) ->
                ~ In k (flat_map treeIds (childrenOf (replaceMarkers plan root)))).
Proof.
  split; [|split].
  - intros text record m r remote nestedRoot Hget Hctx Hroot Hm Hnd Hr.
    unfold importFor, importRecord. rewrite Hget.
    assert (Hnn : notNullish (content record) = true).
    { destruct (content record); try reflexivity; discriminate. }
    rewrite Hnn, Hctx, Hm, Hroot, Hr.
    eexists. eexists. split; [reflexivity|]. cbn [maps roots].
    split; [|split; [|split]].
    + intros k. now apply get_mergeInto.
    + apply nth_error_setCell_same. apply nth_error_Some. congruence.
    + intros m' Hne. now apply nth_error_setCell_other.
    + reflexivity.
  - intros text Hget. unfold importFor. now rewrite Hget.
  - intros database' h' plan markers Hnd Hfresh Hplan.
    destruct (importPlan_targets _ _ _ _ _ _ Hplan) as [Ht Hsrc].
    assert (Hfresh' : forall j nodes, In (j, nodes) plan ->
              forall k, In k (flat_map treeIds nodes) -> ~ In k (map fst plan)).
    { intros j nodes Hin k Hk. rewrite Ht.
      destruct (Hsrc j nodes Hin) as [->|(nr & Hnr & ->)]; [contradiction|].
      now apply (Hfresh nr). }
    assert (Hmc : markersAreComments (map fst plan) (childrenOf root)).
    { rewrite Ht. now apply markers_are_comments. }
    assert (Hndp : NoDup (map fst plan)).
    { rewrite Ht. now apply NoDup_findComments. }
    split; [|split].
    + unfold interpolateNodes. fold markers.
      destruct markers as [|mk rest] eqn:Em.
      * cbn in Hplan. injection Hplan as <- <- <-.
        rewrite <- (replace_tree [] (NoDup_nil _) (fun _ _ (H : In _ []) => match H with end) root).
        -- reflexivity.
        -- intros c _ [].
      * rewrite (importMarkers_plan _ _ _ _ _ _ root [] Hplan). cbn [bind app].
        cbn [nsDatabase nsHeap nsRoot nsWarnings]. rewrite <- Ht.
        now rewrite (replace_tree plan Hndp Hfresh' root Hmc).
    + exact Ht.
    + intros k Hk. rewrite <- Ht in Hk.
      destruct root as [i t a cs|i text|i text]; cbn [replaceMarkers childrenOf];
        [|cbn; tauto|cbn; tauto].
      now apply replaceForest_no_targets.
Qed.

(** The marker is replaced by the two children of the nested root, in
    order; the parent database has the nested entry; the nested database
    is empty; nothing is warned about. *)
Lemma interpolateNodes_imports_nested_templates_witness :
  interpolateNodes heapExample parentDatabaseExample parentRootExample
  = Returned
      (mkNodesState
         (parentDatabaseExample ++ nestedDatabaseExample)
         (mkHeap [[]] [nestedRootExample])
         (Element 0 "root" []
            [Element 1 "VGroup" []
               [Text 2 "a";
                Element 11 "Text" [] []; Element 12 "Label" [] [Text 13 "hello"];
                Text 4 "b"]])
         []).
Proof.
  refine (proj1 (proj2 (proj2 (interpolateNodes_imports_nested_templates
                                 heapExample parentDatabaseExample parentRootExample))
                  (parentDatabaseExample ++ nestedDatabaseExample)
                  (mkHeap [[]] [nestedRootExample])
                  [(3, childrenOf nestedRootExample)] _ _ _)).
  - cbn. repeat constructor; cbn; intuition discriminate.
  - cbn. intros nestedRoot k [<-|[]] Hk. cbn in Hk. intuition (subst; discriminate).
  - reflexivity.
Defined.

(** ** Attribute interpolation with live bindings: a missing record *)

Section LookupFailure.
Context `{Host}.

Lemma string_of_uint_no_dash (d : Decimal.uint) :
  ~ In "-"%char (JsString.chars (NilEmpty.string_of_uint d)).
Proof.
  unfold JsString.chars.
  induction d; cbn; intros Hin; try contradiction;
    destruct Hin as [E|Hin]; try discriminate; auto.
Qed.

Lemma chars_app (a b : string) :
  JsString.chars (a ++ b)%string = JsString.chars a ++ JsString.chars b.
Proof.
  unfold JsString.chars. induction a as [|c a IH]; cbn; [reflexivity|].
  now rewrite IH.
Qed.

Lemma spread_id_not_slotId (spreadName field : string) (k : nat) :
  (spreadName ++ "-" ++ field)%string <> slotId k.
Proof.
  intros E. apply (f_equal JsString.chars) in E.
  assert (Hin : In "-"%char (JsString.chars (slotId k))).
  { rewrite <- E, !chars_app. apply in_or_app. right. cbn. now left. }
  unfold slotId in Hin. rewrite chars_app in Hin.
  apply in_app_or in Hin as [Hin|Hin].
  - cbn in Hin. intuition discriminate.
  - now apply string_of_uint_no_dash in Hin.
Qed.

Lemma slotId_startsWithColons (k : nat) :
  JsString.startsWithColons (slotId k) = true.
Proof. reflexivity. Qed.

Lemma get_set_keeps {V} (m : JsMap.t V) (k key : string) (x : V) :
  JsMap.get m key <> None -> JsMap.get (JsMap.set m k x) key <> None.
Proof.
  intros Hk. destruct (String.eqb k key) eqn:E.
  - apply String.eqb_eq in E. subst. now rewrite get_set_same.
  - rewrite get_set_other; [exact Hk|]. now apply String.eqb_neq.
Qed.

Variable sh : Shared.
Variable n : LiveNode.

Lemma collecting_enter : collecting sh n (enter sh n).
Proof. unfold collecting, enter. cbn. repeat split; auto. Qed.

Lemma collecting_deleteCell (st : Binding) (index : nat) :
  collecting sh n st -> collecting sh n (deleteCell st index).
Proof.
  unfold collecting, deleteCell, withNode, setCells. cbn. tauto.
Qed.

Lemma collecting_collectEntries (spreadName : string)
      (entries : list (string * Value)) (st : Binding) (pending : list ToProcess) :
  collecting sh n st ->
  collecting sh n (fst (collectEntries spreadName entries st pending)).
Proof.
  revert st pending. induction entries as [|[field c] rest IH];
    intros st pending Hst; [exact Hst|].
  cbn [collectEntries]. apply IH.
  destruct Hst as (H1 & H2 & H3 & H4 & H5 & H6 & H7 & H8 & H9 & Hmono & Hslot).
  unfold collecting, withDatabase. cbn. repeat split; auto.
  - intros key Hkey. apply get_set_keeps. now apply Hmono.
  - intros k. rewrite get_set_other; [apply Hslot|].
    apply spread_id_not_slotId.
Qed.

(** The spread branch of the callback keeps the invariant. *)
Lemma collecting_spread (st : Binding) (pending : list ToProcess)
      (index : nat) (attribute : Attribute) :
  collecting sh n st ->
  collecting sh n
    (fst (if JsString.startsWithColons (name attribute)
          then
            let '(st', pending') :=
              match JsMap.get (bDatabase st) (name attribute) with
              | Some packet =>
                  if isObjectType packet
                  then collectEntries (name attribute)
                                      (objectEntries (content packet)) st pending
                  else (st, pending)
              | None => (st, pending)
              end in
            (deleteCell st' index, pending')
          else (st, pending))).
Proof.
  intros Hst. destruct (JsString.startsWithColons (name attribute)); [|exact Hst].
  destruct (JsMap.get (bDatabase st) (name attribute)) as [packet|].
  - destruct (isObjectType packet).
    + pose proof (collecting_collectEntries (name attribute)
                    (objectEntries (content packet)) st pending Hst) as Hc.
      destruct (collectEntries _ _ st pending) as [st' pending']. cbn in *.
      now apply collecting_deleteCell.
    + cbn. now apply collecting_deleteCell.
  - cbn. now apply collecting_deleteCell.
Qed.

(** An attribute whose value is a string that is no marker, or a marker
    whose record is on file, is collected without an error. *)
Lemma collectAttribute_ok (st : Binding) (pending : list ToProcess)
      (index : nat) (attribute : Attribute) (text : string) :
  collecting sh n st ->
  value attribute = VString text ->
  (JsString.startsWithColons text = true ->
   JsMap.get (shDatabase sh) text <> None) ->
  exists st' pending',
    collectAttribute st pending index attribute = CollectOk st' pending' /\
    collecting sh n st'.
Proof.
  intros Hst Hv Hfound. unfold collectAttribute.
  pose proof (collecting_spread st pending index attribute Hst) as H1.
  destruct (if JsString.startsWithColons (name attribute) then _ else _)
    as [st1 pending1]. cbn in H1. rewrite Hv.
  destruct (JsString.startsWithColons text) eqn:Hc.
  - destruct H1 as (Ha & Hb & Hc' & Hd & He & Hf & Hg & Hh & Hi & Hmono & Hslot).
    destruct (JsMap.get (bDatabase st1) text) as [payload|] eqn:Hget.
    + eexists. eexists. split; [reflexivity|].
      apply collecting_deleteCell. unfold collecting. repeat split; auto.
    + exfalso. now apply (Hmono text (Hfound eq_refl)).
  - eexists. eexists. split; [reflexivity|exact H1].
Qed.

(** A direct marker whose slot id is not on file makes the callback throw. *)
Lemma collectAttribute_missing (st : Binding) (pending : list ToProcess)
      (index : nat) (attribute : Attribute) (k : nat) :
  collecting sh n st ->
  value attribute = VString (slotId k) ->
  JsMap.get (shDatabase sh) (slotId k) = None ->
  exists st',
    collectAttribute st pending index attribute
    = CollectThrown (Error (notFoundMessage (slotId k))) st' /\
    collecting sh n st'.
Proof.
  intros Hst Hv Hmissing. unfold collectAttribute.
  pose proof (collecting_spread st pending index attribute Hst) as H1.
  destruct (if JsString.startsWithColons (name attribute) then _ else _)
    as [st1 pending1]. cbn in H1. rewrite Hv, slotId_startsWithColons.
  assert (Hget : JsMap.get (bDatabase st1) (slotId k) = None).
  { destruct H1 as (_ & _ & _ & _ & _ & _ & _ & _ & _ & _ & Hslot).
    now rewrite Hslot. }
  rewrite Hget. exists st1. split; [reflexivity|exact H1].
Qed.

Lemma collectFrom_missing (before after : list (option Attribute))
      (attribute : Attribute) (k : nat) (index0 : nat)
      (st : Binding) (pending : list ToProcess) :
  collecting sh n st ->
  value attribute = VString (slotId k) ->
  JsMap.get (shDatabase sh) (slotId k) = None ->
  (forall j a, nth_error before j = Some (Some a) ->
     exists text, value a = VString text /\
       (JsString.startsWithColons text = true ->
        JsMap.get (shDatabase sh) text <> None)) ->
  exists st',
    collectFrom index0 (before ++ Some attribute :: after) st pending
    = CollectThrown (Error (notFoundMessage (slotId k))) st' /\
    collecting sh n st'.
Proof.
  intros Hst Hv Hmissing. revert index0 st pending Hst.
  induction before as [|cell before IH]; intros index0 st pending Hst Hbefore.
  - cbn [app collectFrom].
    destruct (collectAttribute_missing st pending index0 attribute k Hst Hv Hmissing)
      as (st' & E & Hst').
    rewrite E. now exists st'.
  - cbn [app collectFrom]. destruct cell as [a|].
    + destruct (Hbefore 0 a eq_refl) as (text & Ha & Hfound).
      destruct (collectAttribute_ok st pending index0 a text Hst Ha Hfound)
        as (st' & pending' & E & Hst').
      rewrite E. apply IH; [exact Hst'|].
      intros j b Hj. apply (Hbefore (S j) b Hj).
    + apply IH; [exact Hst|].
      intros j b Hj. apply (Hbefore (S j) b Hj).
Qed.

End LookupFailure.

Lemma walk_app_finished `{Host} (sh sh1 : Shared) (pre pre' rest : list LiveNode) :
  interpolateAttributes2 sh pre = Finished sh1 pre' ->
  interpolateAttributes2 sh (pre ++ rest)
  = match interpolateAttributes2 sh1 rest with
    | Finished s r => Finished s (pre' ++ r)
    | Aborted e s r => Aborted e s (pre' ++ r)
    end.
Proof.
  revert sh sh1 pre'. induction pre as [|n pre IH]; intros sh sh1 pre' Hpre.
  - cbn in Hpre. injection Hpre as <- <-. cbn.
    now destruct (interpolateAttributes2 sh rest).
  - cbn [app interpolateAttributes2] in *.
    destruct (interpolateNode2 sh n) as [[[e sh'] n']|[sh' n']]; [discriminate|].
    destruct (interpolateAttributes2 sh' pre) as [sh'' pre''|e sh'' pre''] eqn:E;
      [|discriminate].
    injection Hpre as <- <-. rewrite (IH sh' sh'' pre'' E).
    now destruct (interpolateAttributes2 sh'' rest).
Qed.

(** C2: when the walk has bound the nodes [pre] and reaches a node whose
    first failing attribute is a direct marker [::k] with no record on
    file, the walk ends with the lookup error.  The nodes visited before
    are as their bindings left them, the subscriptions made for them are
    still there and the records under the slot ids are untouched; the node
    itself has received no binding; the nodes after it have not been
    visited. *)
Theorem missing_record_aborts_walk `{Host}
        (sh sh1 : Shared) (pre pre' post : list LiveNode) (n : LiveNode)
        (index k : nat) (attribute : Attribute) :
  interpolateAttributes2 sh pre = Finished sh1 pre' ->
  nth_error (liveCells n) index = Some (Some attribute) ->
  value attribute = VString (slotId k) ->
  JsMap.get (shDatabase sh1) (slotId k) = None ->
  (forall j a, j < index -> nth_error (liveCells n) j = Some (Some a) ->
     exists text, value a = VString text /\
       (JsString.startsWithColons text = true ->
        JsMap.get (shDatabase sh1) text <> None)) ->
  exists sh2 n',
    interpolateAttributes2 sh (pre ++ n :: post)
    = Aborted (Error (notFoundMessage (slotId k))) sh2 (pre' ++ n' :: post) /\
    shSignals sh2 = shSignals sh1 /\
    shClosures sh2 = shClosures sh1 /\
    (forall key, JsMap.get (shDatabase sh1) key <> None ->
                 JsMap.get (shDatabase sh2) key <> None) /\
    (forall i, JsMap.get (shDatabase sh2) (slotId i)
               = JsMap.get (shDatabase sh1) (slotId i)) /\
    liveAttributes n' = liveAttributes n /\
    liveStyle n' = liveStyle n /\
    liveClassList n' = liveClassList n /\
    liveProperties n' = liveProperties n.
Proof.
  intros Hpre Hnth Hv Hmissing Hbefore.
  apply nth_error_split in Hnth as (before & after & Hcells & Hlen).
  destruct (collectFrom_missing sh1 n before after attribute k 0
              (enter sh1 n) [] (collecting_enter sh1 n) Hv Hmissing)
    as (st' & E & Hst').
  { intros j a Hj. apply (Hbefore j a).
    - rewrite <- Hlen. apply nth_error_Some. congruence.
    - rewrite Hcells. rewrite nth_error_app1; [exact Hj|].
      apply nth_error_Some. congruence. }
  exists (leave st'), (bNode st').
  destruct Hst' as (H1 & H2 & H3 & H4 & H5 & H6 & H7 & H8 & H9 & Hmono & Hslot).
  split.
  - rewrite (walk_app_finished sh sh1 pre pre' (n :: post) Hpre).
    cbn [interpolateAttributes2]. unfold interpolateNode2.
    rewrite Hcells, E. reflexivity.
  - cbn. repeat split; auto.
Qed.

(** The first node is bound to its signal ([color] is set to [red] and the
    observer is subscribed), the second aborts the walk, the third is not
    visited. *)
Lemma missing_record_aborts_walk_witness :
  exists sh2 n',
    interpolateAttributes2 (H := sampleHost) sharedExample liveNodesExample
    = Aborted (Error (notFoundMessage "::7")) sh2
        ([mkLiveNode 0 [None] [("color", "red")] [] [] [] []]
         ++ n' :: [mkLiveNode 2 [Some (mkAttribute "height" (VString "5"))] [] [] [] [] []])
    /\ option_map Signal.subscribers (nth_error (shSignals sh2) 0) = Some [100]
    /\ liveAttributes n' = [].
Proof.
  destruct (missing_record_aborts_walk (H := sampleHost)
              sharedExample
              (mkShared [Signal.mk "id1" (VString "red") (VString "red") [100]]
                        [AttributeObserver 0 "color"] 100
                        [("::0", mkRecord "::0" (VSignal 0) [mkHandle 0 100]
                                   (Some (AttributeValueAssignment "color" "isColorAttribute")))])
              [mkLiveNode 0 [Some (mkAttribute "color" (VString "::0"))] [] [] [] [] []]
              [mkLiveNode 0 [None] [("color", "red")] [] [] [] []]
              [mkLiveNode 2 [Some (mkAttribute "height" (VString "5"))] [] [] [] [] []]
              (mkLiveNode 1 [Some (mkAttribute "width" (VString "::7"))] [] [] [] [] [])
              0 7 (mkAttribute "width" (VString "::7"))
              eq_refl eq_refl eq_refl eq_refl)
    as (sh2 & n' & Hwalk & Hsig & _ & _ & _ & Hattrs & _).
  { intros j a Hj. inversion Hj. }
  exists sh2, n'. split; [exact Hwalk|]. split; [now rewrite Hsig|exact Hattrs].
Defined.

(** ** Spread expansion *)

(** C7: in [<P ${{a: 1, b: 2}} t="<" ${{c: 3}}>] the two values become the
    spread markers [::0] and [::1] of one element, around the attribute
    [t].  Their fields are recorded under [::0-a], [::0-b] and [::1-c], but
    the attribute [c] of the second marker is spliced in before [t] and
    not after the place of its marker (the last, emptied cell): the
    positions noted while scanning do not count the attributes spliced in
    for the first marker. *)
Theorem spread_after_spread_misplaced :
  let created := createStream [] twoSpreadStrings twoSpreadValues in
  let result :=
    interpolateNodeAttributes initialWorld (snd created) twoSpreadAttributes in
  createIntermediateHtml (fst created) (snd created)
  = Some ("<P ::0=" ++ String JsString.dquote (String JsString.dquote
          (" t=" ++ String JsString.dquote ("<" ++ String JsString.dquote
          (" ::1=" ++ String JsString.dquote (String JsString.dquote ">"))))))%string /\
  JsMap.keys (snd (fst result))
  = ["::0"; "::1"; "::0-a"; "::0-b"; "id3"; "::1-c"]%string /\
  snd result
  = [None;
     Some (mkAttribute "a" (VSignal 0)); Some (mkAttribute "b" (VSignal 1));
     Some (mkAttribute "c" (VSignal 3));
     Some (mkAttribute "t" (VSignal 2));
     None].
Proof. repeat split. Qed.

(** A single spread marker: the new attributes follow the emptied cell of
    the marker, in field order. *)
Example spread_single_marker :
  snd (interpolateNodeAttributes initialWorld
         [("::0", newRecordDecoded "::0"
                    (VObject [("color", VString "red");
                              ("width", VNumber (Decimal "200"))]) "<Panel ")]%string
         [mkAttribute "caption" (VString "Foo"); mkAttribute "::0" (VString "");
          mkAttribute "gap" (VString "5")])
  = [Some (mkAttribute "caption" (VSignal 0));
     None;
     Some (mkAttribute "color" (VSignal 1)); Some (mkAttribute "width" (VSignal 2));
     Some (mkAttribute "gap" (VSignal 3))].
Proof. reflexivity. Qed.

(** ** The cleanup callback *)

(** C1: in every result of [xml], running the returned [unsubscribe]
    throws: its body reads the identifier [database], which neither [xml]
    nor the module binds (the database of the invocation is bound to
    [context]). *)
Theorem xml_unsubscribe_throws `{Host}
        (parse : string -> Node) (w : World) (h : Heap)
        (strings : list string) (values : list Value)
        (result : XmlResult) (signals : list Signal.t) :
  globalBinding "database" = None ->
  xml parse w h strings values = Returned result ->
  runUnsubscribe (unsubscribeScope result) (xmlHeap result) signals
  = Thrown (ReferenceError "database")
  /\ JsMap.get (unsubscribeScope result) "context" = Some (VMap (contextRef result)).
Proof.
  intros Hglobal Hxml. unfold xml in Hxml.
  destruct (createStream [] strings values) as [stream context].
  destruct (createIntermediateHtml stream context) as [html|]; [|discriminate].
  destruct (interpolateAttributes w context (parse html)) as [[[w1 c1] r1]|e];
    cbn [bind] in Hxml; [|discriminate].
  destruct (interpolateNodes h c1 r1) as [st|e]; cbn [bind] in Hxml; [|discriminate].
  injection Hxml as <-. cbn [unsubscribeScope xmlHeap contextRef].
  split; [|reflexivity].
  unfold runUnsubscribe, resolve. cbn [JsMap.get closureScope String.eqb Ascii.eqb Bool.eqb].
  now rewrite Hglobal.
Qed.

(** The invocation [xml`<a></a>`]: it returns, and its [unsubscribe]
    throws. *)
Lemma xml_unsubscribe_throws_witness :
  exists result,
    xml emptyElementTree initialWorld (mkHeap [] []) ["<a></a>"%string] []
    = Returned result /\
    runUnsubscribe (H := sampleHost) (unsubscribeScope result) (xmlHeap result) []
    = Thrown (ReferenceError "database").
Proof.
  eexists. split; [reflexivity|].
  apply (xml_unsubscribe_throws (H := sampleHost) emptyElementTree initialWorld
           (mkHeap [] []) ["<a></a>"%string] [] _ [] eq_refl eq_refl).
Defined.

(** ** The context decoder: which segments are attribute-domain *)

Section BracketRuns.

Variable sep : ascii -> bool.

Lemma splitGo_separator (pre rest : list ascii) (c : ascii) (cur : list ascii)
      (b : bool) :
  sep c = true ->
  exists tokens,
    JsString.splitGo sep false cur b (pre ++ c :: rest)
    = tokens ++ JsString.splitGo sep false [] true rest.
Proof.
  intros Hc. revert cur b. induction pre as [|x pre IH]; intros cur b.
  - cbn. rewrite Hc. now exists [rev cur].
  - cbn. destruct (sep x).
    + destruct (IH [] true) as [tokens E]. rewrite E. now exists (rev cur :: tokens).
    + apply IH.
Qed.

Lemma splitGo_run (run post cur : list ascii) (b : bool) :
  forallb (fun c => negb (sep c)) run = true ->
  exists b',
    JsString.splitGo sep false cur b (run ++ post)
    = JsString.splitGo sep false (rev run ++ cur) b' post.
Proof.
  revert cur b. induction run as [|x run IH]; intros cur b Hrun.
  - now exists b.
  - cbn in Hrun. apply andb_prop in Hrun as [Hx Hrun].
    cbn. destruct (sep x); [discriminate|].
    destruct (IH (x :: cur) false Hrun) as [b' E]. exists b'.
    now rewrite E, <- app_assoc.
Qed.

Lemma splitGo_separators (post cur : list ascii) (b : bool) :
  forallb sep post = true ->
  JsString.splitGo sep false cur b post = rev cur :: map (fun _ => []) post.
Proof.
  revert cur b. induction post as [|x post IH]; intros cur b Hpost;
    [reflexivity|].
  cbn in Hpost. apply andb_prop in Hpost as [Hx Hpost].
  cbn. rewrite Hx. now rewrite (IH [] true Hpost).
Qed.

Lemma filter_empty_tokens (post : list ascii) :
  filter (fun token : list ascii => negb (Nat.eqb (List.length token) 0))
         (map (fun _ => []) post) = [].
Proof. induction post; cbn; auto. Qed.

Lemma lastOpt_snoc {A} (l : list A) (x : A) : JsString.lastOpt (l ++ [x]) = Some x.
Proof. unfold JsString.lastOpt. now rewrite rev_app_distr. Qed.

(** The last non-empty piece of a split at every separator is the last
    maximal run of characters that are no separators. *)
Lemma last_token_is_last_run (pre run post : list ascii) :
  (pre = [] \/ exists pre' c, pre = pre' ++ [c] /\ sep c = true) ->
  run <> [] ->
  forallb (fun c => negb (sep c)) run = true ->
  forallb sep post = true ->
  JsString.lastOpt
    (filter (fun token => negb (Nat.eqb (List.length token) 0))
            (JsString.splitGo sep false [] false (pre ++ run ++ post)))
  = Some run.
Proof.
  intros Hpre Hne Hrun Hpost.
  assert (Htail : forall b,
             filter (fun token => negb (Nat.eqb (List.length token) 0))
                    (JsString.splitGo sep false [] b (run ++ post)) = [run]).
  { intros b. destruct (splitGo_run run post [] b Hrun) as [b' E].
    rewrite E, splitGo_separators by exact Hpost.
    rewrite app_nil_r, rev_involutive. cbn [filter].
    destruct run as [|x run']; [contradiction|]. cbn [List.length Nat.eqb negb].
    now rewrite filter_empty_tokens. }
  destruct Hpre as [->|(pre' & c & -> & Hc)].
  - cbn [app]. now rewrite Htail.
  - rewrite <- app_assoc. cbn [app].
    destruct (splitGo_separator pre' (run ++ post) c [] false Hc) as [tokens E].
    rewrite E, filter_app, Htail. apply lastOpt_snoc.
Qed.

Lemma no_run_no_token (l : list ascii) (cur : list ascii) (b : bool) :
  forallb sep l = true ->
  filter (fun token => negb (Nat.eqb (List.length token) 0))
         (JsString.splitGo sep false cur b l)
  = filter (fun token => negb (Nat.eqb (List.length token) 0)) [rev cur].
Proof.
  intros Hl. rewrite splitGo_separators by exact Hl.
  cbn [filter]. rewrite filter_empty_tokens.
  now destruct (negb (Nat.eqb (List.length (rev cur)) 0)).
Qed.

End BracketRuns.

(** When the last token does not end with [=]: the decoder answers
    attribute-domain exactly when the last run of adjacent brackets of the
    trimmed segment is the single character [<]; a longer run, a run that
    is [>], or no bracket at all gives element-domain. *)
Lemma decodeAttribute_last_run (htmlStr : string) (pre run post : list ascii) :
  JsString.endsWithEq (normalizedCharacterTokens htmlStr) = false ->
  JsString.trim (JsString.chars htmlStr) = pre ++ run ++ post ->
  (pre = [] \/ exists pre' c, pre = pre' ++ [c] /\ JsString.isBracket c = false) ->
  run <> [] ->
  forallb JsString.isBracket run = true ->
  forallb (fun c => negb (JsString.isBracket c)) post = true ->
  decodeAttribute htmlStr
  = match run with
    | ["<"%char] => AttributeDomain
    | _ => ElementDomain
    end.
Proof.
  intros Heq Htrim Hpre Hne Hrun Hpost.
  unfold decodeAttribute. rewrite Heq.
  unfold bracketCycle, JsString.splitNonBrackets. rewrite Htrim.
  rewrite (last_token_is_last_run (fun c => negb (JsString.isBracket c)) pre run post);
    auto.
  - destruct Hpre as [->|(pre' & c & -> & Hc)]; [now left|].
    right. exists pre', c. split; [reflexivity|]. now rewrite Hc.
  - rewrite <- Hrun. clear. induction run as [|c run IH]; cbn; [reflexivity|].
    now rewrite negb_involutive, IH.
Qed.

Lemma decodeAttribute_no_bracket (htmlStr : string) :
  JsString.endsWithEq (normalizedCharacterTokens htmlStr) = false ->
  forallb (fun c => negb (JsString.isBracket c))
          (JsString.trim (JsString.chars htmlStr)) = true ->
  decodeAttribute htmlStr = ElementDomain.
Proof.
  intros Heq Hnone. unfold decodeAttribute. rewrite Heq.
  unfold bracketCycle, JsString.splitNonBrackets.
  now rewrite (no_run_no_token _ _ [] false Hnone).
Qed.

(** ** The chain of unsubscribe handles *)

Section HandleChain.

Lemma nth_error_callHandle (signals : list Signal.t) (h : Handle) (j : nat) :
  nth_error (callHandle signals h) j
  = if Nat.eqb (hSignal h) j
    then option_map (fun s => Signal.unsubscribe s (hSubscriber h)) (nth_error signals j)
    else nth_error signals j.
Proof.
  unfold callHandle.
  destruct (nth_error signals (hSignal h)) as [s|] eqn:E.
  - destruct (Nat.eqb (hSignal h) j) eqn:Ej.
    + apply Nat.eqb_eq in Ej. subst j. rewrite E. cbn.
      apply nth_error_setCell_same. apply nth_error_Some. congruence.
    + apply nth_error_setCell_other. intros ->. now rewrite Nat.eqb_refl in Ej.
  - destruct (Nat.eqb (hSignal h) j) eqn:Ej; [|reflexivity].
    apply Nat.eqb_eq in Ej. subst j. now rewrite E.
Qed.

(** Calling the handles one after the other deletes, from every signal,
    the subscribers of the handles made for it. *)
Lemma nth_error_callHandles (hs : list Handle) (signals : list Signal.t) (j : nat) :
  nth_error (fold_left callHandle hs signals) j
  = option_map (fun s => fold_left Signal.unsubscribe (handlesFor j hs) s)
               (nth_error signals j).
Proof.
  revert signals. induction hs as [|h hs IH]; intros signals; cbn [fold_left].
  - unfold handlesFor. cbn. now destruct (nth_error signals j).
  - rewrite IH, nth_error_callHandle. unfold handlesFor. cbn [filter].
    destruct (Nat.eqb (hSignal h) j); [|reflexivity].
    cbn [map fold_left]. now destruct (nth_error signals j).
Qed.

Lemma unsubscribe_all_subscribers (ks : list nat) (s : Signal.t) :
  fold_left Signal.unsubscribe ks s
  = Signal.mk (Signal.id s) (Signal.value s) (Signal.v s)
              (filter (fun x => negb (existsb (Nat.eqb x) ks)) (Signal.subscribers s)).
Proof.
  revert s. induction ks as [|k ks IH]; intros s; cbn [fold_left].
  - cbn. destruct s as [i x y subs]. cbn. f_equal.
    symmetry. apply forallb_filter_id. now apply forallb_forall.
  - rewrite IH. unfold Signal.unsubscribe, JsSet.delete. cbn. f_equal.
    induction (Signal.subscribers s) as [|x subs IHs]; cbn; [reflexivity|].
    destruct (Nat.eqb x k); cbn; [exact IHs|].
    destruct (existsb (Nat.eqb x) ks); cbn; [exact IHs|]. now rewrite IHs.
Qed.

Lemma unsubscribe_all_twice (ks : list nat) (s : Signal.t) :
  fold_left Signal.unsubscribe ks (fold_left Signal.unsubscribe ks s)
  = fold_left Signal.unsubscribe ks s.
Proof.
  rewrite !unsubscribe_all_subscribers. cbn. f_equal.
  apply forallb_filter_id. apply forallb_forall. intros x Hx.
  now apply filter_In in Hx as [_ Hx].
Qed.

(** Had the arrow function read the database of its invocation, a second
    run of its chain of handles would have changed nothing. *)
Lemma callHandles_twice (hs : list Handle) (signals : list Signal.t) :
  fold_left callHandle hs (fold_left callHandle hs signals)
  = fold_left callHandle hs signals.
Proof.
  apply nth_error_ext. intros j. rewrite !nth_error_callHandles.
  destruct (nth_error signals j) as [s|]; cbn; [|reflexivity].
  now rewrite unsubscribe_all_twice.
Qed.

End HandleChain.

(** ** Spread expansion in a node with one spread marker *)

Section SingleSpread.

Lemma setCell_middle {A} (l1 l2 : list A) (x y : A) :
  setCell (List.length l1) x (l1 ++ y :: l2) = l1 ++ x :: l2.
Proof. induction l1 as [|z l1 IH]; cbn; [reflexivity|]. now rewrite IH. Qed.


(** The rounds for a stretch of plain attributes. *)
Lemma scanFrom_plain (attributes : list Attribute) :
  Forall isPlain attributes ->
  forall (before after : list (option Attribute)) (st : Scan),
    scanAttributes st = before ++ map Some attributes ++ after ->
    let st' := scanFrom (List.length before) attributes st in
    scanAttributes st'
    = before ++ upgradeFrom (List.length (signals (scanWorld st))) attributes ++ after /\
    newAttributes st' = newAttributes st /\
    List.length (signals (scanWorld st'))
    = List.length (signals (scanWorld st)) + List.length attributes /\
    (forall key, JsString.startsWithColons key = true ->
       JsMap.get (scanDatabase st') key = JsMap.get (scanDatabase st) key) /\
    (forall j, j < List.length (signals (scanWorld st)) ->
       nth_error (signals (scanWorld st')) j = nth_error (signals (scanWorld st)) j).
Proof.
  induction 1 as [|a rest Ha _ IH]; intros before after st Hcells; cbn zeta.
  - cbn. rewrite Nat.add_0_r. repeat split; auto.
  - cbn [scanFrom]. unfold scanAttribute. unfold isPlain in Ha. rewrite Ha.
    cbn [negb]. remember (upgradePlain st (List.length before) a) as st1 eqn:Est1.
    assert (Hcells1 : scanAttributes st1
                      = (before ++ [Some (mkAttribute (name a)
                                            (VSignal (List.length (signals (scanWorld st)))))])
                          ++ map Some rest ++ after).
    { rewrite Est1. unfold upgradePlain, newSignal, generateId. cbn.
      rewrite Hcells. cbn [map app]. rewrite setCell_middle.
      now rewrite <- app_assoc. }
    assert (Hsig1 : signals (scanWorld st1)
                    = signals (scanWorld st)
                      ++ [Signal.new (counterId (nextId (scanWorld st)))
                                     (parseElementAttributeValue (value a))]).
    { now rewrite Est1. }
    assert (Hdb1 : scanDatabase st1
                   = JsMap.set (scanDatabase st) (counterId (nextId (scanWorld st)))
                       (newRecord (counterId (nextId (scanWorld st)))
                                  (VSignal (List.length (signals (scanWorld st)))))).
    { now rewrite Est1. }
    assert (Hnew1 : newAttributes st1 = newAttributes st).
    { now rewrite Est1. }
    clear Est1.
    specialize (IH _ after st1 Hcells1). cbn zeta in IH.
    rewrite length_app in IH. cbn [List.length] in IH.
    replace (List.length before + 1) with (S (List.length before)) in IH by lia.
    destruct IH as (Hc & Hn & Hl & Hd & Hs).
    rewrite Hsig1, length_app in Hc, Hl, Hs. cbn [List.length] in Hc, Hl, Hs.
    repeat split.
    + rewrite Hc, <- app_assoc. cbn [app upgradeFrom].
      now replace (List.length (signals (scanWorld st)) + 1)
        with (S (List.length (signals (scanWorld st)))) by lia.
    + now rewrite Hn.
    + cbn [List.length]. lia.
    + intros key Hkey. rewrite Hd by exact Hkey. rewrite Hdb1.
      apply get_set_other. intros E. unfold counterId in E. rewrite <- E in Hkey.
      discriminate.
    + intros j Hj. rewrite Hs by lia.
      now rewrite nth_error_app1 by lia.
Qed.





Lemma length_upgradeFrom (base : nat) (attributes : list Attribute) :
  List.length (upgradeFrom base attributes) = List.length attributes.
Proof.
  revert base. induction attributes as [|a rest IH]; intros base; cbn; auto.
Qed.


End SingleSpread.

Lemma space_is_no_bracket (c : ascii) :
  JsString.isSpace c = true -> JsString.isBracket c = false.
Proof.
  unfold JsString.isBracket. intros Hs.
  destruct (Ascii.eqb c "<"%char) eqn:E1; [apply Ascii.eqb_eq in E1; now subst|].
  destruct (Ascii.eqb c ">"%char) eqn:E2; [apply Ascii.eqb_eq in E2; now subst|].
  reflexivity.
Qed.

Lemma filter_dropWhile_space (l : list ascii) :
  filter JsString.isBracket (JsString.dropWhile JsString.isSpace l)
  = filter JsString.isBracket l.
Proof.
  induction l as [|c l IH]; [reflexivity|].
  cbn [JsString.dropWhile]. destruct (JsString.isSpace c) eqn:E; [|reflexivity].
  cbn [filter]. now rewrite IH, (space_is_no_bracket c E).
Qed.

Lemma filter_rev {A} (p : A -> bool) (l : list A) :
  filter p (rev l) = rev (filter p l).
Proof.
  induction l as [|x l IH]; cbn; [reflexivity|].
  rewrite filter_app, IH. cbn. destruct (p x); cbn; [reflexivity|].
  now rewrite app_nil_r.
Qed.

(** Trimming drops no bracket. *)
Lemma retainedBrackets_trim (htmlStr : string) :
  filter JsString.isBracket (JsString.trim (JsString.chars htmlStr))
  = retainedBrackets htmlStr.
Proof.
  unfold retainedBrackets, JsString.trim, JsString.trimEnd, JsString.trimStart.
  rewrite filter_rev, filter_dropWhile_space, filter_rev, rev_involutive.
  apply filter_dropWhile_space.
Qed.

(** The last bracket of a segment is the last character of its last run of
    adjacent brackets: the reading of the specification and the decoder
    differ exactly on the segments whose last run ends with [<] and is
    longer than one character. *)
Lemma last_retained_bracket (htmlStr : string) (pre run post : list ascii) :
  JsString.trim (JsString.chars htmlStr) = pre ++ run ++ post ->
  run <> [] ->
  forallb JsString.isBracket run = true ->
  forallb (fun c => negb (JsString.isBracket c)) post = true ->
  JsString.lastOpt (retainedBrackets htmlStr) = JsString.lastOpt run.
Proof.
  intros Htrim Hne Hrun Hpost.
  rewrite <- retainedBrackets_trim, Htrim, !filter_app.
  assert (E1 : filter JsString.isBracket run = run).
  { now apply forallb_filter_id. }
  assert (E2 : filter JsString.isBracket post = []).
  { clear -Hpost. induction post as [|c post IH]; cbn in *; [reflexivity|].
    apply andb_prop in Hpost as [Hc Hpost].
    destruct (JsString.isBracket c); [discriminate|]. now apply IH. }
  rewrite E1, E2, app_nil_r. unfold JsString.lastOpt. rewrite rev_app_distr.
  destruct (rev run) as [|x r] eqn:E; [|reflexivity].
  apply (f_equal (@rev ascii)) in E. rewrite rev_involutive in E. contradiction.
Qed.

(** A record copied from a nested database replaces the parent's record
    of the same id: the second marker of the parent then finds the nested
    record of the number 2 instead of the second template result, and
    destructuring it throws. *)
Example merged_slot_id_hides_parent_record :
  interpolateNodes collidingHeapExample collidingDatabaseExample collidingRootExample
  = Thrown TypeError /\
  option_map content
    (JsMap.get (mergeInto collidingDatabaseExample
                  (nth 0 (maps collidingHeapExample) [])) "::1")
  = Some (VNumber (Decimal "2")).
Proof. split; reflexivity. Qed.

(* ------------------------------------------------------------------ *)
(** * Further properties of the code *)

(** ** The context decoder: attribute values, open tags, blank segments *)

Section DecoderSegments.

Lemma splitGo_any_separator (sep : ascii -> bool) (g : bool)
      (pre rest : list ascii) (c : ascii) (cur : list ascii) (b : bool) :
  sep c = true ->
  exists tokens,
    JsString.splitGo sep g cur b (pre ++ c :: rest)
    = tokens ++ JsString.splitGo sep g [] true rest.
Proof.
  intros Hc. revert cur b. induction pre as [|x pre IH]; intros cur b.
  - cbn. rewrite Hc. destruct (g && b); [now exists []|now exists [rev cur]].
  - cbn. destruct (sep x).
    + destruct (IH [] true) as [tokens E]. rewrite E.
      destruct (g && b); [now exists tokens|now exists (rev cur :: tokens)].
    + apply IH.
Qed.

Lemma splitGo_any_run (sep : ascii -> bool) (g : bool)
      (run cur : list ascii) (b : bool) :
  forallb (fun c => negb (sep c)) run = true ->
  JsString.splitGo sep g cur b run = [rev cur ++ run].
Proof.
  revert cur b. induction run as [|x run IH]; intros cur b Hrun.
  - cbn. now rewrite app_nil_r.
  - cbn in Hrun. apply andb_prop in Hrun as [Hx Hrun].
    cbn. destruct (sep x); [discriminate|].
    rewrite (IH (x :: cur) false Hrun). cbn. now rewrite <- app_assoc.
Qed.

Lemma dropWhile_all (p : ascii -> bool) (l : list ascii) :
  forallb p l = true -> JsString.dropWhile p l = [].
Proof.
  induction l as [|c l IH]; cbn; [reflexivity|].
  intros H. apply andb_prop in H as [Hc Hl]. rewrite Hc. now apply IH.
Qed.

Lemma trimEnd_last_not_space (l : list ascii) (c : ascii) :
  JsString.isSpace c = false -> JsString.trimEnd (l ++ [c]) = l ++ [c].
Proof.
  intros Hc. unfold JsString.trimEnd. rewrite rev_app_distr. cbn [rev app].
  cbn [JsString.dropWhile]. rewrite Hc. cbn [rev]. now rewrite rev_involutive.
Qed.

(** Leading white space goes; what is left of a prefix that ended with a
    white space character still ends with one. *)
Lemma trimStart_prefix (prefix body : list ascii) (c : ascii) :
  (prefix = [] \/ exists p s, prefix = p ++ [s] /\ JsString.isSpace s = true) ->
  JsString.isSpace c = false ->
  exists prefix',
    JsString.trimStart (prefix ++ c :: body) = prefix' ++ c :: body /\
    (prefix' = [] \/ exists p s, prefix' = p ++ [s] /\ JsString.isSpace s = true).
Proof.
  intros Hprefix Hc. unfold JsString.trimStart.
  induction prefix as [|x prefix IH].
  - exists []. cbn [app JsString.dropWhile]. rewrite Hc. auto.
  - cbn [app JsString.dropWhile]. destruct (JsString.isSpace x) eqn:Hx.
    + apply IH. destruct Hprefix as [E|(p & s & E & Hs)]; [discriminate|].
      destruct p as [|y p]; cbn in E; injection E as -> ->; [now left|].
      right. now exists p, s.
    + exists (x :: prefix). split; [reflexivity|]. exact Hprefix.
Qed.

Lemma quote_is_no_space (q : ascii) :
  JsString.isQuote q = true -> JsString.isSpace q = false.
Proof.
  unfold JsString.isQuote. intros H. apply orb_prop in H as [H|H];
    apply Ascii.eqb_eq in H; subst; reflexivity.
Qed.

Lemma chars_str (l : list ascii) : JsString.chars (JsString.str l) = l.
Proof. apply list_ascii_of_string_of_list_ascii. Qed.

Lemma last_token_after_space (prefix token : list ascii) :
  (prefix = [] \/ exists p s, prefix = p ++ [s] /\ JsString.isSpace s = true) ->
  forallb (fun c => negb (JsString.isSpace c)) token = true ->
  JsString.lastOpt (JsString.splitSpaces (prefix ++ token)) = Some token.
Proof.
  intros Hprefix Htoken. unfold JsString.splitSpaces.
  destruct Hprefix as [->|(p & s & -> & Hs)].
  - cbn [app]. now rewrite splitGo_any_run.
  - rewrite <- app_assoc. cbn [app].
    destruct (splitGo_any_separator JsString.isSpace true p token s [] false Hs)
      as [tokens E].
    rewrite E, splitGo_any_run by exact Htoken. apply lastOpt_snoc.
Qed.

End DecoderSegments.

(** X1: a segment that ends with a name without white space, an equals
    sign and at most one quote character, the name standing at the start
    of the segment or after a white space character, is classified as
    attribute-value-assignment for that name, with the flag
    [is<Name>Attribute]. *)
Theorem decodeAttribute_assignment (prefix name quote : list ascii) :
  (prefix = [] \/ exists p s, prefix = p ++ [s] /\ JsString.isSpace s = true) ->
  forallb (fun c => negb (JsString.isSpace c)) name = true ->
  (quote = [] \/ exists q, quote = [q] /\ JsString.isQuote q = true) ->
  decodeAttribute (JsString.str (prefix ++ name ++ "="%char :: quote))
  = AttributeValueAssignment (JsString.str name) (roleFlagOf name).
Proof.
  intros Hprefix Hname Hquote.
  assert (Htokens : normalizedCharacterTokens
                      (JsString.str (prefix ++ name ++ "="%char :: quote))
                    = name ++ ["="%char]).
  { unfold normalizedCharacterTokens. rewrite chars_str. unfold JsString.trim.
    assert (Hstart : exists prefix',
               JsString.trimStart (prefix ++ name ++ "="%char :: quote)
               = prefix' ++ name ++ "="%char :: quote /\
               (prefix' = [] \/ exists p s, prefix' = p ++ [s] /\ JsString.isSpace s = true)).
    { destruct name as [|n name].
      - cbn [app]. now apply trimStart_prefix.
      - cbn [forallb] in Hname. apply andb_prop in Hname as [Hn _].
        cbn [app]. apply trimStart_prefix; [exact Hprefix|].
        now destruct (JsString.isSpace n). }
    destruct Hstart as (prefix' & -> & Hprefix').
    assert (Hstrip : JsString.stripTrailingQuote
                       (JsString.trimEnd (prefix' ++ name ++ "="%char :: quote))
                     = prefix' ++ name ++ ["="%char]).
    { destruct Hquote as [->|(q & -> & Hq)].
      - replace (prefix' ++ name ++ ["="%char]) with ((prefix' ++ name) ++ ["="%char])
          by now rewrite <- app_assoc.
        rewrite trimEnd_last_not_space by reflexivity.
        unfold JsString.stripTrailingQuote. rewrite rev_app_distr. reflexivity.
      - replace (prefix' ++ name ++ ["="%char; q])
          with ((prefix' ++ name ++ ["="%char]) ++ [q])
          by now rewrite <- !app_assoc.
        rewrite trimEnd_last_not_space by now apply quote_is_no_space.
        unfold JsString.stripTrailingQuote. rewrite rev_app_distr. cbn [rev app].
        rewrite Hq. apply rev_involutive. }
    rewrite Hstrip, last_token_after_space; auto.
    rewrite forallb_app, Hname. reflexivity. }
  unfold decodeAttribute. rewrite Htokens.
  unfold JsString.endsWithEq, JsString.dropLast.
  rewrite rev_app_distr. cbn [rev app]. rewrite Ascii.eqb_refl.
  now rewrite removelast_last.
Qed.

(** The segment [<div class=] followed by a double quote. *)
Lemma decodeAttribute_assignment_witness :
  decodeAttribute ("<div class=" ++ String JsString.dquote "")%string
  = AttributeValueAssignment "class" "isClassAttribute".
Proof.
  apply (decodeAttribute_assignment
           (JsString.chars "<div ") (JsString.chars "class") [JsString.dquote]).
  - right. exists (JsString.chars "<div"), " "%char. split; reflexivity.
  - reflexivity.
  - right. exists JsString.dquote. split; reflexivity.
Defined.

(** Capitals outside Latin-1: the attribute names that start with the y
    with diaeresis (code unit 255), the micro sign (181) and the sharp s
    (223) get the flags that start with [is] followed by U+0178, by U+039C
    and by two capital S. *)
Example decodeAttribute_wide_capitals :
  map (fun c => decodeAttribute (String (ascii_of_nat c) "x="))
      [255; 181; 223; 233]
  = [AttributeValueAssignment (String (ascii_of_nat 255) "x")
       ([105; 115; 376; 120] ++ keyOf "Attribute");
     AttributeValueAssignment (String (ascii_of_nat 181) "x")
       ([105; 115; 924; 120] ++ keyOf "Attribute");
     AttributeValueAssignment (String (ascii_of_nat 223) "x")
       ([105; 115; 83; 83; 120] ++ keyOf "Attribute");
     AttributeValueAssignment (String (ascii_of_nat 233) "x")
       ([105; 115; 201; 120] ++ keyOf "Attribute")].
Proof. reflexivity. Qed.

(** X2: when the last token does not end with the equals sign, the
    decoder answers attribute-domain if and only if the last run of
    adjacent brackets of the trimmed segment is the single character [<],
    and element-domain otherwise. *)
Theorem decodeAttribute_domains (htmlStr : string) (pre run post : list ascii) :
  JsString.endsWithEq (normalizedCharacterTokens htmlStr) = false ->
  JsString.trim (JsString.chars htmlStr) = pre ++ run ++ post ->
  (pre = [] \/ exists pre' c, pre = pre' ++ [c] /\ JsString.isBracket c = false) ->
  run <> [] ->
  forallb JsString.isBracket run = true ->
  forallb (fun c => negb (JsString.isBracket c)) post = true ->
  (decodeAttribute htmlStr = AttributeDomain <-> run = ["<"%char]) /\
  (decodeAttribute htmlStr = ElementDomain <-> run <> ["<"%char]).
Proof.
  intros Heq Htrim Hpre Hne Hrun Hpost.
  rewrite (decodeAttribute_last_run htmlStr pre run post Heq Htrim Hpre Hne Hrun Hpost).
  destruct run as [|a [|b r]]; [contradiction| |].
  - destruct (Ascii.eqb a "<"%char) eqn:E.
    + apply Ascii.eqb_eq in E. subst a. split; split; intros H; try reflexivity;
        try discriminate. now contradiction H.
    + assert (Hne' : [a] <> ["<"%char]).
      { intros E'. injection E' as ->. discriminate. }
      assert (Hm : match [a] with ["<"%char] => AttributeDomain | _ => ElementDomain end
                   = ElementDomain).
      { destruct a as [[] [] [] [] [] [] [] []]; try reflexivity. discriminate. }
      rewrite Hm. split; split; intros H; try discriminate; auto. contradiction.
  - assert (Hm : match a :: b :: r with ["<"%char] => AttributeDomain | _ => ElementDomain end
                 = ElementDomain).
    { destruct a as [[] [] [] [] [] [] [] []]; reflexivity. }
    rewrite Hm. split; split; intros H; try discriminate; auto.
Qed.

(** The segments [<div ] and [<a><b ]. *)
Lemma decodeAttribute_domains_witness :
  decodeAttribute "<div " = AttributeDomain /\ decodeAttribute "<a><b " = ElementDomain.
Proof.
  split.
  - apply (proj1 (decodeAttribute_domains "<div " [] ["<"%char] (JsString.chars "div")
                    eq_refl eq_refl (or_introl eq_refl)
                    ltac:(discriminate) eq_refl eq_refl)).
    reflexivity.
  - apply (proj2 (decodeAttribute_domains "<a><b " (JsString.chars "<a")
                    [">"%char; "<"%char] (JsString.chars "b")
                    eq_refl eq_refl
                    (or_intror (ex_intro _ ["<"%char]
                                  (ex_intro _ "a"%char (conj eq_refl eq_refl))))
                    ltac:(discriminate) eq_refl eq_refl)).
    discriminate.
Defined.

(** X3: a segment of white space only (the empty segment included) is
    classified element-domain: a value that follows another value after
    nothing but spaces gets a content marker even inside an open tag. *)
Theorem decodeAttribute_blank_segment (htmlStr : string) :
  forallb JsString.isSpace (JsString.chars htmlStr) = true ->
  decodeAttribute htmlStr = ElementDomain.
Proof.
  intros Hblank.
  assert (Htrim : JsString.trim (JsString.chars htmlStr) = []).
  { unfold JsString.trim, JsString.trimStart. now rewrite dropWhile_all. }
  unfold decodeAttribute, normalizedCharacterTokens, bracketCycle.
  rewrite Htrim. reflexivity.
Qed.

(** The segment between the two values of [<Panel ${a} ${b}>]. *)
Lemma decodeAttribute_blank_segment_witness : decodeAttribute " " = ElementDomain.
Proof. apply decodeAttribute_blank_segment. reflexivity. Defined.

(** ** The marker stream builder: which values are read, missing records *)

Lemma createStreamFrom_reads_below (strings : list string) (values : list Value)
      (index bound : nat) (context : Database) :
  index + List.length strings <= bound ->
  createStreamFrom index context strings values
  = createStreamFrom index context strings (firstn bound values).
Proof.
  revert index context. induction strings as [|s rest IH]; intros index context Hb;
    [reflexivity|].
  cbn [createStreamFrom List.length] in *.
  assert (Hv : valueAt (firstn bound values) index = valueAt values index).
  { unfold valueAt. rewrite nth_firstn.
    assert (E : Nat.ltb index bound = true) by (apply Nat.ltb_lt; lia).
    now rewrite E. }
  rewrite Hv.
  destruct (isUndefined (valueAt values index));
    rewrite (IH (S index)) by lia; reflexivity.
Qed.

Lemma createStreamFrom_padding (strings : list string) (values : list Value)
      (k index : nat) (context : Database) :
  createStreamFrom index context strings (values ++ repeat VUndefined k)
  = createStreamFrom index context strings values.
Proof.
  revert index context. induction strings as [|s rest IH]; intros index context;
    [reflexivity|].
  cbn [createStreamFrom].
  assert (Hv : valueAt (values ++ repeat VUndefined k) index = valueAt values index).
  { unfold valueAt. destruct (Nat.lt_ge_cases index (List.length values)) as [Hlt|Hge].
    - now apply app_nth1.
    - rewrite app_nth2 by lia. rewrite (nth_overflow values) by lia.
      apply nth_repeat. }
  rewrite Hv. destruct (isUndefined (valueAt values index)); now rewrite IH.
Qed.

(** X4: [createStream] reads a value only at the index of a literal
    segment: values beyond the last segment are ignored, and a value list
    that ends early reads as if it were filled up with [undefined]. *)
Theorem createStream_values_read (context : Database) (strings : list string)
        (values : list Value) (k : nat) :
  createStream context strings values
  = createStream context strings (firstn (List.length strings) values) /\
  createStream context strings (values ++ repeat VUndefined k)
  = createStream context strings values.
Proof.
  unfold createStream. split.
  - now apply createStreamFrom_reads_below.
  - apply createStreamFrom_padding.
Qed.

(** X5: [createIntermediateHtml] throws on a stream that refers to an id
    without record in the database (the fragment is [undefined] and is
    destructured). *)
Theorem createIntermediateHtml_missing_record (stream : list StreamEntry)
        (context : Database) (id : string) :
  In (Reference id) stream ->
  JsMap.get context id = None ->
  createIntermediateHtml stream context = None.
Proof.
  intros Hin Hget. unfold createIntermediateHtml.
  assert (E : createIntermediatePieces stream context = None).
  { induction stream as [|entry rest IH]; [contradiction|].
    cbn [createIntermediatePieces]. destruct Hin as [->|Hin].
    - cbn [intermediatePieces]. now rewrite Hget.
    - rewrite (IH Hin). now destruct (intermediatePieces context entry). }
  now rewrite E.
Qed.

(** A stream with a reference, and an empty database. *)
Lemma createIntermediateHtml_missing_record_witness :
  createIntermediateHtml [Chunk "<p>"; Reference "::0"; Chunk "</p>"] [] = None.
Proof.
  apply (createIntermediateHtml_missing_record _ [] "::0").
  - right. left. reflexivity.
  - reflexivity.
Defined.

(** ** Parsing attribute values *)

(** X7: parsing is idempotent: what [parseElementAttributeValue] returns
    is returned unchanged when parsed again. *)
Theorem parseElementAttributeValue_idempotent (v : Value) :
  parseElementAttributeValue (parseElementAttributeValue v)
  = parseElementAttributeValue v.
Proof.
  destruct v as [| | | |s| | | | | |]; try reflexivity.
  cbn [parseElementAttributeValue].
  destruct (JsString.includesPercent s) eqn:Hp; [reflexivity|].
  destruct (JsNumber.isNaN s) eqn:Hn; cbn [negb]; [|reflexivity].
  cbn [parseElementAttributeValue]. now rewrite Hp, Hn.
Qed.

Section NumericStrings.

Lemma digit_is_plain (c : ascii) :
  JsNumber.isDigit c = true ->
  JsString.isSpace c = false /\ JsNumber.isSign c = false /\
  Ascii.eqb c "%"%char = false /\ Ascii.eqb "I"%char c = false.
Proof.
  destruct c as [b0 b1 b2 b3 b4 b5 b6 b7].
  destruct b0, b1, b2, b3, b4, b5, b6, b7; vm_compute; intros H;
    try discriminate H; repeat split.
Qed.

Lemma space_is_no_percent (c : ascii) :
  JsString.isSpace c = true -> Ascii.eqb c "%"%char = false.
Proof.
  intros Hs. destruct (Ascii.eqb c "%"%char) eqn:E; [|reflexivity].
  apply Ascii.eqb_eq in E. subst. discriminate.
Qed.

Lemma dropWhile_head {A} (p : A -> bool) (l : list A) :
  match l with [] => True | x :: _ => p x = false end ->
  JsString.dropWhile p l = l.
Proof.
  destruct l as [|x l]; [reflexivity|]. cbn [JsString.dropWhile]. now intros ->.
Qed.

Lemma trim_no_space (l : list ascii) :
  forallb (fun c => negb (JsString.isSpace c)) l = true -> JsString.trim l = l.
Proof.
  intros Hl. rewrite forallb_forall in Hl.
  assert (Hns : forall c, In c l -> JsString.isSpace c = false).
  { intros c Hc. specialize (Hl c Hc). now destruct (JsString.isSpace c). }
  unfold JsString.trim, JsString.trimStart, JsString.trimEnd.
  rewrite (dropWhile_head JsString.isSpace l).
  - rewrite (dropWhile_head JsString.isSpace (rev l)); [apply rev_involutive|].
    destruct (rev l) as [|x r] eqn:E; [exact I|].
    apply Hns. apply in_rev. rewrite E. now left.
  - destruct l as [|x l']; [exact I|]. apply Hns. now left.
Qed.

Lemma span_all (p : ascii -> bool) (l rest : list ascii) :
  forallb p l = true ->
  match rest with [] => True | c :: _ => p c = false end ->
  JsNumber.span p (l ++ rest) = (l, rest).
Proof.
  intros Hl Hrest. induction l as [|x l IH]; cbn [app].
  - destruct rest as [|c r]; [reflexivity|]. cbn [JsNumber.span]. now rewrite Hrest.
  - cbn [forallb] in Hl. apply andb_prop in Hl as [Hx Hl].
    cbn [JsNumber.span]. now rewrite Hx, (IH Hl).
Qed.

(** The longest decimal literal at the head of digits followed by
    something that is neither a digit, a dot nor an exponent mark. *)
Lemma decimalPrefix_digits (ds rest : list ascii) :
  ds <> [] ->
  forallb JsNumber.isDigit ds = true ->
  match rest with
  | [] => True
  | c :: _ => JsNumber.isDigit c = false /\ Ascii.eqb c "."%char = false /\
              Ascii.eqb c "e"%char = false /\ Ascii.eqb c "E"%char = false
  end ->
  JsNumber.decimalPrefix (ds ++ rest) = Some (ds, rest).
Proof.
  intros Hne Hds Hrest. destruct ds as [|d ds']; [contradiction|].
  pose proof Hds as Hds0. cbn [forallb] in Hds0. apply andb_prop in Hds0 as [Hd _].
  destruct (digit_is_plain d Hd) as (_ & Hsign & _ & HI).
  unfold JsNumber.decimalPrefix. cbn [app]. rewrite Hsign.
  unfold JsNumber.unsignedDecimalPrefix.
  change (JsString.chars "Infinity") with ("I"%char :: JsString.chars "nfinity").
  cbn [JsNumber.stripPrefix]. rewrite HI.
  change (d :: ds' ++ rest) with ((d :: ds') ++ rest).
  rewrite (span_all JsNumber.isDigit (d :: ds') rest Hds).
  - destruct rest as [|c r].
    + cbn [JsNumber.exponentPart]. now rewrite app_nil_r.
    + destruct Hrest as (_ & Hdot & He & HE). rewrite Hdot.
      cbn [JsNumber.exponentPart]. rewrite He, HE. cbn [orb].
      now rewrite app_nil_r.
  - destruct rest as [|c r]; [exact I|]. apply Hrest.
Qed.

Lemma digits_no_space (ds : list ascii) :
  forallb JsNumber.isDigit ds = true ->
  forallb (fun c => negb (JsString.isSpace c)) ds = true.
Proof.
  intros H. apply forallb_forall. intros c Hc.
  rewrite forallb_forall in H. destruct (digit_is_plain c (H c Hc)) as [Hs _].
  now rewrite Hs.
Qed.

Lemma digits_no_percent (ds : list ascii) :
  forallb JsNumber.isDigit ds = true ->
  existsb (fun c => Ascii.eqb c "%"%char) ds = false.
Proof.
  induction ds as [|c ds IH]; cbn [forallb existsb]; [reflexivity|].
  intros H. apply andb_prop in H as [Hc Hds].
  destruct (digit_is_plain c Hc) as (_ & _ & Hp & _). now rewrite Hp, IH.
Qed.

End NumericStrings.

Section DigitStrings.

Lemma digitsValue_nonneg (base : Z) (ds : list ascii) :
  (0 <= base)%Z -> (0 <= JsNumber.digitsValue base ds)%Z.
Proof.
  intros Hb. unfold JsNumber.digitsValue.
  assert (Hacc : forall l acc, (0 <= acc)%Z ->
            (0 <= fold_left (fun a c => base * a + JsNumber.digitValue c) l acc)%Z).
  { induction l as [|c l IH]; intros acc Hacc; cbn [fold_left]; [exact Hacc|].
    apply IH. unfold JsNumber.digitValue. nia. }
  apply Hacc. lia.
Qed.

Lemma literalValue_digits (ds : list ascii) :
  ds <> [] ->
  forallb JsNumber.isDigit ds = true ->
  JsNumber.literalValue ds
  = binary_normalize 53 1024 (JsNumber.digitsValue 10 ds) 0 false.
Proof.
  intros Hne Hds. destruct ds as [|d ds']; [contradiction|].
  pose proof Hds as Hds0. cbn [forallb] in Hds0. apply andb_prop in Hds0 as [Hd _].
  destruct (digit_is_plain d Hd) as (_ & Hsign & _ & HI).
  unfold JsNumber.literalValue. rewrite Hsign.
  change (JsString.chars "Infinity") with ("I"%char :: JsString.chars "nfinity").
  cbn [JsNumber.stripPrefix]. rewrite HI.
  rewrite <- (app_nil_r (d :: ds')) at 1.
  rewrite (span_all JsNumber.isDigit (d :: ds') [] Hds I).
  cbn [JsNumber.exponentPart fst JsNumber.exponentValue List.length Z.of_nat Z.sub].
  rewrite app_nil_r.
  unfold JsNumber.roundDecimal, binary_normalize.
  pose proof (digitsValue_nonneg 10 (d :: ds') ltac:(lia)) as Hn.
  destruct (JsNumber.digitsValue 10 (d :: ds')) as [|p|p]; [reflexivity| |lia].
  cbn [Z.leb Z.compare Z.pow Z.to_pos]. now rewrite Pos.mul_1_r.
Qed.

Lemma digits2_pos_shift (p k : positive) :
  digits2_pos (Pos.iter xO p k) = (digits2_pos p + k)%positive.
Proof.
  induction k as [|k IH] using Pos.peano_ind.
  - cbn. now rewrite Pos.add_1_r.
  - rewrite Pos.iter_succ. cbn [digits2_pos]. rewrite IH. lia.
Qed.

Lemma Zpos_shift (p k : positive) :
  Zpos (Pos.iter xO p k) = (Zpos p * 2 ^ Zpos k)%Z.
Proof.
  induction k as [|k IH] using Pos.peano_ind.
  - cbn. lia.
  - rewrite Pos.iter_succ, Pos2Z.inj_xO, IH, Pos2Z.inj_succ, Z.pow_succ_r; lia.
Qed.

(** An integer below 2^53 is a double. *)
Lemma normalize_small (p : positive) :
  (Zpos p < 2 ^ 53)%Z ->
  JsNumber.integerOf (binary_normalize 53 1024 (Zpos p) 0 false) = Some (Zpos p).
Proof.
  intros Hsmall.
  assert (Hd : (Zpos (digits2_pos p) <= 53)%Z).
  { destruct (Z.le_gt_cases (Zpos (digits2_pos p)) 53) as [H|H]; [exact H|].
    exfalso. assert (Hp : (2 ^ 53 <= Zpos p)%Z); [|lia].
    clear Hsmall. revert H. generalize 53%Z. induction p as [p IH|p IH|]; intros n Hn.
    - cbn [digits2_pos] in Hn. rewrite Pos2Z.inj_succ in Hn.
      destruct (Z.le_gt_cases n 0) as [Hn0|Hn0].
      + assert (2 ^ n <= 1)%Z; [|lia].
        destruct (Z.eq_dec n 0) as [->|]; [cbn; lia|]. rewrite Z.pow_neg_r; lia.
      + specialize (IH (n - 1)%Z ltac:(lia)).
        replace n with (Z.succ (n - 1)) by lia. rewrite Z.pow_succ_r by lia. lia.
    - cbn [digits2_pos] in Hn. rewrite Pos2Z.inj_succ in Hn.
      destruct (Z.le_gt_cases n 0) as [Hn0|Hn0].
      + assert (2 ^ n <= 1)%Z; [|lia].
        destruct (Z.eq_dec n 0) as [->|]; [cbn; lia|]. rewrite Z.pow_neg_r; lia.
      + specialize (IH (n - 1)%Z ltac:(lia)).
        replace n with (Z.succ (n - 1)) by lia. rewrite Z.pow_succ_r by lia. lia.
    - cbn in Hn. assert (2 ^ n <= 1)%Z; [|lia].
      destruct (Z.eq_dec n 0) as [->|]; [cbn; lia|]. rewrite Z.pow_neg_r; lia. }
  unfold binary_normalize, binary_round.
  remember (digits2_pos p) as d eqn:Ed.
  assert (Hfexp : forall x, (1 <= x <= 53)%Z -> fexp 53 1024 x = (x - 53)%Z).
  { intros x Hx. unfold fexp, emin. lia. }
  rewrite Z.add_0_r, Hfexp by lia.
  unfold shl_align. rewrite Z.sub_0_r.
  destruct (Zpos d - 53)%Z as [|k|k] eqn:Ek; [|lia|].
  - (* the mantissa has 53 bits *)
    unfold binary_round_aux, shr_fexp. cbn [Zdigits2]. rewrite <- Ed.
    rewrite Z.add_0_r, Hfexp by lia. rewrite Ek. cbn [shr shr_record_of_loc Z.sub Z.opp Z.add].
    cbn [shr_m loc_of_shr_record round_nearest_even Zdigits2]. rewrite <- Ed.
    rewrite Z.add_0_r, Hfexp by lia. rewrite Ek. cbn [shr Z.sub Z.opp Z.add shr_m Z.leb Z.compare].
    change (0 <=? IntDef.Z.pos_sub 1024 53)%Z with true.
    unfold JsNumber.integerOf. cbn [Z.leb Z.compare Z.pow cond_Zopp].
    now rewrite Z.mul_1_r.
  - (* a shorter mantissa is shifted up *)
    assert (Hdk : (Zpos (digits2_pos (Pos.iter xO p k)) + Zneg k = Zpos d)%Z).
    { rewrite digits2_pos_shift, <- Ed. lia. }
    assert (Hz : (fexp 53 1024 (Zpos d) - Zneg k = 0)%Z).
    { rewrite Hfexp by lia. lia. }
    unfold binary_round_aux, shr_fexp. cbn [Zdigits2]. rewrite Hdk, Hz.
    cbn [shr shr_record_of_loc shr_m loc_of_shr_record round_nearest_even Zdigits2].
    rewrite Hdk, Hz. cbn [shr shr_m].
    assert (Hle : (Zneg k <=? 1024 - 53)%Z = true) by (apply Z.leb_le; lia).
    rewrite Hle. unfold JsNumber.integerOf.
    assert (Hneg : (0 <=? Zneg k)%Z = false) by reflexivity.
    rewrite Hneg. cbn [Z.opp]. rewrite Zpos_shift.
    rewrite Z.mod_mul, Z.eqb_refl, Z.div_mul by (apply Z.pow_nonzero; lia).
    reflexivity.
Qed.

End DigitStrings.

(** X8: a non-empty string of decimal digits is parsed to the double
    nearest to the number it denotes (the number itself when that is below
    2^53, whatever the leading zeros), and the same digits followed by a
    percent sign to the pair of that double and the unit. *)
Theorem parseElementAttributeValue_digits (s : string) :
  s <> ""%string ->
  forallb JsNumber.isDigit (JsString.chars s) = true ->
  let n := JsNumber.digitsValue 10 (JsString.chars s) in
  let x := binary_normalize 53 1024 n 0 false in
  parseElementAttributeValue (VString s) = VNumber x /\
  parseElementAttributeValue (VString (s ++ "%"))
  = VObject [("value", VNumber x); ("unit", VString "%")]%string /\
  ((n < 2 ^ 53)%Z -> JsNumber.integerOf x = Some n).
Proof.
  intros Hne Hds n x.
  assert (Hne' : JsString.chars s <> []).
  { intros E. apply Hne. now destruct s. }
  assert (Hfloat : JsNumber.parseFloat s = x).
  { unfold JsNumber.parseFloat, JsString.trimStart.
    rewrite dropWhile_head.
    - rewrite <- (app_nil_r (JsString.chars s)) at 1.
      rewrite decimalPrefix_digits; auto. now apply literalValue_digits.
    - destruct (JsString.chars s) as [|c r] eqn:E; [exact I|].
      cbn [forallb] in Hds. apply andb_prop in Hds as [Hc _].
      apply (digit_is_plain c Hc). }
  split; [|split].
  - unfold parseElementAttributeValue, JsString.includesPercent.
    rewrite digits_no_percent by exact Hds.
    assert (Hnan : JsNumber.isNaN s = false).
    { unfold JsNumber.isNaN. rewrite trim_no_space by now apply digits_no_space.
      assert (Hfull : JsNumber.decimalPrefix (JsString.chars s)
                      = Some (JsString.chars s, [])).
      { rewrite <- (app_nil_r (JsString.chars s)) at 1.
        now apply decimalPrefix_digits. }
      destruct (JsString.chars s) as [|c r]; [contradiction|].
      now rewrite Hfull. }
    now rewrite Hnan, Hfloat.
  - unfold parseElementAttributeValue, JsString.includesPercent.
    rewrite chars_app, existsb_app. cbn [JsString.chars list_ascii_of_string existsb].
    rewrite Ascii.eqb_refl, orb_true_r.
    assert (Hfloat' : JsNumber.parseFloat (s ++ "%") = x).
    { unfold JsNumber.parseFloat, JsString.trimStart. rewrite chars_app.
      rewrite dropWhile_head.
      - rewrite decimalPrefix_digits; auto.
        + now apply literalValue_digits.
        + cbn. repeat split.
      - destruct (JsString.chars s) as [|c r] eqn:E; [contradiction|].
        cbn [app forallb] in *. apply andb_prop in Hds as [Hc _].
        apply (digit_is_plain c Hc). }
    now rewrite Hfloat'.
  - intros Hsmall. subst x.
    assert (Hn : (0 <= n)%Z) by (subst n; apply digitsValue_nonneg; lia).
    destruct n as [|p|p]; [reflexivity| |lia].
    now apply normalize_small.
Qed.

(** The attribute values [200] and [50%]; [007] is the number 7; and
    [9007199254740993], which is no double, is read as 2^53. *)
Lemma parseElementAttributeValue_digits_witness :
  (parseElementAttributeValue (VString "200") = VNumber (Decimal "200") /\
   parseElementAttributeValue (VString "200%")
   = VObject [("value", VNumber (Decimal "200")); ("unit", VString "%")]%string /\
   JsNumber.integerOf (Decimal "200") = Some 200%Z) /\
  parseElementAttributeValue (VString "007") = VNumber (Decimal "7") /\
  parseElementAttributeValue (VString "9007199254740993")
  = VNumber (S754_finite false 4503599627370496 1).
Proof.
  split; [|split].
  - destruct (parseElementAttributeValue_digits "200") as (E1 & E2 & E3);
      [discriminate|reflexivity|].
    split; [exact E1|]. split; [exact E2|]. apply E3. reflexivity.
  - apply (proj1 (parseElementAttributeValue_digits "007" ltac:(discriminate) eq_refl)).
  - apply (proj1 (parseElementAttributeValue_digits "9007199254740993"
                    ltac:(discriminate) eq_refl)).
Defined.

(** X9: an empty or blank string is not left as a string: [isNaN] accepts
    it (it converts to 0) and [parseFloat] finds no number in it, so the
    parsed value is the number NaN. *)
Theorem parseElementAttributeValue_blank (s : string) :
  forallb JsString.isSpace (JsString.chars s) = true ->
  parseElementAttributeValue (VString s) = VNumber NaN.
Proof.
  intros Hblank.
  assert (Hp : JsString.includesPercent s = false).
  { unfold JsString.includesPercent.
    induction (JsString.chars s) as [|c l IH]; [reflexivity|].
    cbn [forallb existsb] in *. apply andb_prop in Hblank as [Hc Hl].
    now rewrite (space_is_no_percent c Hc), IH. }
  assert (Hnan : JsNumber.isNaN s = false).
  { unfold JsNumber.isNaN, JsString.trim, JsString.trimStart.
    now rewrite dropWhile_all. }
  assert (Hfloat : JsNumber.parseFloat s = NaN).
  { unfold JsNumber.parseFloat, JsString.trimStart. now rewrite dropWhile_all. }
  unfold parseElementAttributeValue. now rewrite Hp, Hnan, Hfloat.
Qed.

(** The attribute [content] of [<Text content="">] in example.js. *)
Lemma parseElementAttributeValue_blank_witness :
  parseElementAttributeValue (VString "") = VNumber NaN.
Proof. apply parseElementAttributeValue_blank. reflexivity. Defined.

(** ** Signal.js: the subscriber set, registration order, disposal *)

Section SubscriberSet.

Lemma has_false_not_In (s : JsSet.t) (k : nat) : JsSet.has s k = false -> ~ In k s.
Proof.
  unfold JsSet.has. intros H Hin.
  assert (E : existsb (Nat.eqb k) s = true).
  { apply existsb_exists. exists k. split; [exact Hin|apply Nat.eqb_refl]. }
  congruence.
Qed.

Lemma has_true_In (s : JsSet.t) (k : nat) : JsSet.has s k = true -> In k s.
Proof.
  unfold JsSet.has. intros H. apply existsb_exists in H as (x & Hx & E).
  apply Nat.eqb_eq in E. now subst.
Qed.

Lemma add_NoDup (s : JsSet.t) (k : nat) : NoDup s -> NoDup (JsSet.add s k).
Proof.
  intros Hnd. unfold JsSet.add. destruct (JsSet.has s k) eqn:E; [exact Hnd|].
  apply NoDup_app; [exact Hnd|repeat constructor; intros []|].
  intros x Hx [E'|[]]. subst x. now apply (has_false_not_In s k).
Qed.

Lemma add_In (s : JsSet.t) (k x : nat) : In x (JsSet.add s k) <-> In x s \/ x = k.
Proof.
  unfold JsSet.add. destruct (JsSet.has s k) eqn:E.
  - split; [auto|]. intros [Hx|Hx]; [exact Hx|]. subst x. now apply has_true_In.
  - rewrite in_app_iff. cbn. intuition.
Qed.

Lemma fold_add_NoDup (xs : list nat) (s : JsSet.t) :
  NoDup s -> NoDup (fold_left JsSet.add xs s).
Proof.
  revert s. induction xs as [|x xs IH]; intros s Hs; cbn; [exact Hs|].
  apply IH. now apply add_NoDup.
Qed.

Lemma fold_add_In (xs : list nat) (s : JsSet.t) (x : nat) :
  In x (fold_left JsSet.add xs s) <-> In x s \/ In x xs.
Proof.
  revert s. induction xs as [|y xs IH]; intros s; cbn; [tauto|].
  rewrite IH, add_In. intuition (subst; auto).
Qed.

End SubscriberSet.

(** X10: the subscribers of a signal stay pairwise distinct under
    [subscribe], under an unsubscribe handle and under an assignment, so an
    assignment calls no subscriber twice. *)
Theorem subscribers_stay_distinct `{Host} (s : Signal.t) (k : nat) (newValue : Value) :
  NoDup (Signal.subscribers s) ->
  NoDup (Signal.subscribers (fst (Signal.subscribe s k))) /\
  NoDup (Signal.subscribers (Signal.unsubscribe s k)) /\
  NoDup (Signal.subscribers (fst (Signal.setValue s newValue))) /\
  NoDup (Signal.receivers (snd (Signal.setValue s newValue))).
Proof.
  intros Hnd. repeat split.
  - cbn. now apply add_NoDup.
  - cbn. now apply NoDup_filter.
  - unfold Signal.setValue. now destruct (looseEq newValue (Signal.value s)).
  - unfold Signal.setValue, Signal.receivers, Signal.notify.
    destruct (looseEq newValue (Signal.value s)); cbn; [constructor|].
    rewrite map_map. cbn. now rewrite map_id.
Qed.

(** A signal with two subscribers. *)
Lemma subscribers_stay_distinct_witness :
  NoDup (Signal.subscribers
           (fst (Signal.subscribe (Signal.mk "id1" VNull VNull [4; 2]) 4))).
Proof.
  apply (subscribers_stay_distinct (H := sampleHost)
           (Signal.mk "id1" VNull VNull [4; 2]) 4 VNull).
  repeat constructor; cbn; intuition discriminate.
Defined.

(** X11: registering a subscriber that is already registered changes
    nothing, and a new subscriber is put last: the next assignment of a
    different value calls the earlier subscribers in their order and then
    the new one, once. *)
Theorem subscribe_registers_once_and_last `{Host}
        (s : Signal.t) (k : nat) (newValue : Value) :
  looseEq newValue (Signal.value s) = false ->
  fst (Signal.subscribe (fst (Signal.subscribe s k)) k) = fst (Signal.subscribe s k) /\
  Signal.receivers (snd (Signal.setValue (fst (Signal.subscribe s k)) newValue))
  = (if JsSet.has (Signal.subscribers s) k
     then Signal.subscribers s
     else Signal.subscribers s ++ [k]) /\
  Forall (fun call => snd call = newValue)
         (snd (Signal.setValue (fst (Signal.subscribe s k)) newValue)).
Proof.
  intros Hne. split; [|split].
  - cbn. f_equal. unfold JsSet.add at 1. now rewrite add_has.
  - unfold Signal.setValue, Signal.receivers, Signal.notify. cbn. rewrite Hne. cbn.
    rewrite map_map. cbn. rewrite map_id. reflexivity.
  - unfold Signal.setValue, Signal.notify. cbn. rewrite Hne. cbn.
    apply Forall_forall. intros call Hc. apply in_map_iff in Hc as (x & <- & _).
    reflexivity.
Qed.

(** A signal holding 1 with the subscribers 4 and 2: subscribing 7, then
    assigning 5. *)
Lemma subscribe_registers_once_and_last_witness :
  Signal.receivers
    (snd (Signal.setValue (H := sampleHost)
            (fst (Signal.subscribe
                    (Signal.mk "id1" (VNumber (Decimal "1")) (VNumber (Decimal "1")) [4; 2])
                    7))
            (VNumber (Decimal "5"))))
  = [4; 2; 7].
Proof.
  apply (proj1 (proj2 (subscribe_registers_once_and_last (H := sampleHost)
                         (Signal.mk "id1" (VNumber (Decimal "1")) (VNumber (Decimal "1")) [4; 2])
                         7 (VNumber (Decimal "5")) eq_refl))).
Defined.

(** X12: [clear] after [collect]: every function handed to [collect],
    however deep in nested arrays, is called by [clear], each once;
    afterwards the signal has neither subscribers nor disposables and an
    assignment calls nobody; and [clear] ends by throwing, because it
    reads the identifier [graph], which nothing binds. *)
Theorem clear_calls_collected_then_throws `{Host}
        (s : Signal.t) (input : list Disposable) :
  globalBinding "graph" = None ->
  let result := clear (collect (mkDisposing s []) input) in
  let called := snd (fst result) in
  NoDup called /\
  (forall fn, In fn called <-> In fn (flat_map flatten input)) /\
  Signal.subscribers (dSignal (fst (fst result))) = [] /\
  dDisposables (fst (fst result)) = [] /\
  (forall newValue, snd (Signal.setValue (dSignal (fst (fst result))) newValue) = []) /\
  snd result = Thrown (ReferenceError "graph").
Proof.
  intros Hgraph. cbv zeta. cbn [clear collect fst snd dSignal dDisposables].
  repeat split.
  - apply fold_add_NoDup. constructor.
  - intros Hin. apply fold_add_In in Hin as [[]|Hin]. exact Hin.
  - intros Hin. apply fold_add_In. now right.
  - intros newValue. unfold Signal.setValue, Signal.notify. cbn.
    now destruct (looseEq newValue (Signal.value s)).
  - unfold resolve. cbn [JsMap.get moduleScope String.eqb Ascii.eqb Bool.eqb].
    now rewrite Hgraph.
Qed.

(** Collecting [f1], [[f2, [f1, f3]]], then clearing. *)
Lemma clear_calls_collected_then_throws_witness :
  snd (fst (clear (H := sampleHost)
              (collect (mkDisposing (Signal.new "id1" VNull) [])
                       [DFunction 1; DArray [DFunction 2; DArray [DFunction 1; DFunction 3]]])))
  = [1; 2; 3] /\
  snd (clear (H := sampleHost)
         (collect (mkDisposing (Signal.new "id1" VNull) [])
                  [DFunction 1; DArray [DFunction 2; DArray [DFunction 1; DFunction 3]]]))
  = Thrown (ReferenceError "graph").
Proof.
  split; [reflexivity|].
  apply (clear_calls_collected_then_throws (H := sampleHost)
           (Signal.new "id1" VNull)
           [DFunction 1; DArray [DFunction 2; DArray [DFunction 1; DFunction 3]]]
           eq_refl).
Defined.

(** ** Attribute interpolation: whole nodes *)


(** X14: a node without spread marker: every attribute keeps its place and
    its name and gets the signal made for it, one signal per attribute in
    attribute order, and no record filed under an id that starts with
    [::] is touched. *)
Theorem plain_node_upgraded_in_place (w : World) (database : Database)
        (attributes : list Attribute) :
  Forall isPlain attributes ->
  let result := interpolateNodeAttributes w database attributes in
  snd result = upgradeFrom (List.length (signals w)) attributes /\
  List.length (signals (fst (fst result)))
  = List.length (signals w) + List.length attributes /\
  (forall j, j < List.length (signals w) ->
     nth_error (signals (fst (fst result))) j = nth_error (signals w) j) /\
  (forall key, JsString.startsWithColons key = true ->
     JsMap.get (snd (fst result)) key = JsMap.get database key).
Proof.
  intros Hplain. cbv zeta. unfold interpolateNodeAttributes. cbn [fst snd].
  destruct (scanFrom_plain attributes Hplain [] []
              (mkScan w database (map Some attributes) []))
    as (Hc & Hn & Hl & Hd & Hs).
  { cbn. now rewrite app_nil_r. }
  cbn [List.length app scanWorld scanDatabase newAttributes] in *.
  rewrite Hn. cbn [applySplices]. rewrite app_nil_r in Hc. auto.
Qed.

(** The node [<Panel caption="Foo" gap="5">]. *)
Lemma plain_node_upgraded_in_place_witness :
  snd (interpolateNodeAttributes initialWorld []
         [mkAttribute "caption" (VString "Foo"); mkAttribute "gap" (VString "5")])
  = [Some (mkAttribute "caption" (VSignal 0)); Some (mkAttribute "gap" (VSignal 1))].
Proof.
  apply (proj1 (plain_node_upgraded_in_place initialWorld []
                  [mkAttribute "caption" (VString "Foo"); mkAttribute "gap" (VString "5")]
                  ltac:(repeat constructor))).
Defined.

(** X15: a spread marker without record, or with a record whose content
    is not a plain object: the cell of the marker is emptied and nothing
    else is done for it: no attribute is added, no signal is made and no
    record is filed; the plain attributes around it are upgraded in
    place. *)
Theorem spread_without_object_dropped (w : World) (database : Database)
        (pre post : list Attribute) (spread : Attribute) :
  Forall isPlain pre -> Forall isPlain post ->
  JsString.startsWithColons (name spread) = true ->
  match JsMap.get database (name spread) with
  | Some packet => isObjectType packet = false
  | None => True
  end ->
  let result := interpolateNodeAttributes w database (pre ++ spread :: post) in
  let base := List.length (signals w) in
  snd result
  = upgradeFrom base pre ++ None :: upgradeFrom (base + List.length pre) post /\
  List.length (signals (fst (fst result)))
  = base + List.length pre + List.length post /\
  (forall key, JsString.startsWithColons key = true ->
     JsMap.get (snd (fst result)) key = JsMap.get database key).
Proof.
  intros Hpre Hpost Hspread Hpacket. cbv zeta.
  unfold interpolateNodeAttributes. cbn [fst snd].
  set (st0 := mkScan w database (map Some (pre ++ spread :: post)) []).
  rewrite scanFrom_app. cbn [Nat.add].
  destruct (scanFrom_plain pre Hpre [] (map Some (spread :: post)) st0)
    as (HcA & HnA & HlA & HdA & HsA).
  { subst st0. cbn [scanAttributes app]. now rewrite map_app. }
  cbn [List.length app] in HcA, HnA, HlA, HdA, HsA.
  remember (scanFrom 0 pre st0) as stA eqn:EstA. clear EstA.
  subst st0. cbn [scanWorld scanDatabase newAttributes] in HcA, HnA, HlA, HdA, HsA.
  cbn [scanFrom]. unfold scanAttribute. rewrite Hspread. cbn [negb].
  set (stB := expandSpread stA (List.length pre) spread).
  assert (HB : scanWorld stB = scanWorld stA /\ scanDatabase stB = scanDatabase stA /\
               newAttributes stB = newAttributes stA /\
               scanAttributes stB
               = setCell (List.length pre) None (scanAttributes stA)).
  { subst stB. unfold expandSpread. rewrite (HdA _ Hspread).
    destruct (JsMap.get database (name spread)) as [packet|].
    - rewrite Hpacket. auto.
    - auto. }
  destruct HB as (HwB & HdB & HnB & HcB).
  assert (HcellsB : scanAttributes stB
                    = (upgradeFrom (List.length (signals w)) pre ++ [None])
                        ++ map Some post ++ []).
  { rewrite HcB, HcA. cbn [map].
    rewrite <- (length_upgradeFrom (List.length (signals w)) pre) at 1.
    rewrite setCell_middle, app_nil_r, <- app_assoc. reflexivity. }
  destruct (scanFrom_plain post Hpost _ [] stB HcellsB) as (HcC & HnC & HlC & HdC & HsC).
  rewrite length_app, length_upgradeFrom in HcC, HnC, HlC, HdC, HsC.
  cbn [List.length] in HcC, HnC, HlC, HdC, HsC.
  replace (List.length pre + 1) with (S (List.length pre)) in * by lia.
  remember (scanFrom (S (List.length pre)) post stB) as stC eqn:EstC. clear EstC.
  rewrite HwB in HcC, HlC. rewrite HdB in HdC. rewrite HnB, HnA in HnC.
  split; [|split].
  - rewrite HnC. cbn [applySplices]. rewrite HcC, app_nil_r, HlA, <- app_assoc.
    reflexivity.
  - rewrite HlC, HlA. reflexivity.
  - intros key Hkey. rewrite HdC by exact Hkey. now apply HdA.
Qed.

(** The node [<VGroup left="10" ${"checked"}>] of example.js: the value
    is a string. *)
Lemma spread_without_object_dropped_witness :
  snd (interpolateNodeAttributes initialWorld
         [("::1", newRecordDecoded "::1" (VString "checked") "<VGroup ")]%string
         ([mkAttribute "left" (VString "10")] ++ mkAttribute "::1" (VString "") :: []))
  = [Some (mkAttribute "left" (VSignal 0)); None].
Proof.
  apply (proj1 (spread_without_object_dropped initialWorld
                  [("::1", newRecordDecoded "::1" (VString "checked") "<VGroup ")]%string
                  [mkAttribute "left" (VString "10")] []
                  (mkAttribute "::1" (VString ""))
                  ltac:(repeat constructor) ltac:(repeat constructor)
                  eq_refl eq_refl)).
Defined.

Section FreshSignals.

Lemma appendsSignals_refl (w : World) : appendsSignals w w.
Proof.
  exists []. cbn. rewrite app_nil_r, Nat.add_0_r. repeat split; constructor.
Qed.

Lemma appendsSignals_trans (a b c : World) :
  appendsSignals a b -> appendsSignals b c -> appendsSignals a c.
Proof.
  intros (n1 & Hs1 & Hi1 & Hn1 & Hf1) (n2 & Hs2 & Hi2 & Hn2 & Hf2).
  exists (n1 ++ n2). repeat split.
  - now rewrite Hs2, Hs1, app_assoc.
  - rewrite map_app, length_app, seq_app, map_app, Hi1, Hi2, Hn1. reflexivity.
  - rewrite Hn2, Hn1, length_app. lia.
  - apply Forall_app. split; assumption.
Qed.

Lemma appendsSignals_newSignal (w : World) (x : Value) :
  appendsSignals w (snd (newSignal w x)).
Proof.
  unfold newSignal, generateId. cbn.
  exists [Signal.new (counterId (nextId w)) x]. cbn.
  repeat split; [lia|]. repeat constructor.
Qed.

Lemma appendsSignals_expandEntries (spreadName : string) (index : nat)
      (entries : list (string * Value)) :
  forall localIndex st,
    appendsSignals (scanWorld st)
      (scanWorld (expandEntries spreadName index localIndex entries st)).
Proof.
  induction entries as [|[field c] rest IH]; intros localIndex st.
  - apply appendsSignals_refl.
  - cbn [expandEntries].
    pose proof (appendsSignals_newSignal (scanWorld st) c) as Hnew.
    destruct (newSignal (scanWorld st) c) as [[ref i] w1]. cbn [snd] in Hnew.
    eapply appendsSignals_trans; [exact Hnew|].
    match goal with
    | |- appendsSignals _ (scanWorld (expandEntries _ _ _ _ ?s)) =>
        apply (IH (S localIndex) s)
    end.
Qed.

Lemma appendsSignals_scanAttribute (st : Scan) (index : nat) (attribute : Attribute) :
  appendsSignals (scanWorld st) (scanWorld (scanAttribute st index attribute)).
Proof.
  unfold scanAttribute.
  destruct (JsString.startsWithColons (name attribute)); cbn [negb].
  - unfold expandSpread. cbn [scanWorld].
    destruct (JsMap.get (scanDatabase st) (name attribute)) as [packet|];
      [|apply appendsSignals_refl].
    destruct (isObjectType packet); [|apply appendsSignals_refl].
    apply appendsSignals_expandEntries.
  - unfold upgradePlain.
    pose proof (appendsSignals_newSignal (scanWorld st)
                  (parseElementAttributeValue (value attribute))) as Hnew.
    destruct (newSignal (scanWorld st) (parseElementAttributeValue (value attribute)))
      as [[ref i] w1]. exact Hnew.
Qed.

Lemma appendsSignals_scanFrom (attributes : list Attribute) (index : nat) (st : Scan) :
  appendsSignals (scanWorld st) (scanWorld (scanFrom index attributes st)).
Proof.
  revert index st. induction attributes as [|a rest IH]; intros index st.
  - apply appendsSignals_refl.
  - cbn [scanFrom]. eapply appendsSignals_trans;
      [apply appendsSignals_scanAttribute|apply IH].
Qed.

Lemma NoDup_map_counterId (l : list nat) : NoDup l -> NoDup (map counterId l).
Proof.
  induction 1 as [|x l Hx _ IH]; cbn; constructor; [|exact IH].
  intros Hin. apply in_map_iff in Hin as (y & E & Hy).
  apply counterId_inj in E. now subst.
Qed.

End FreshSignals.

(** X16: the signals made while the attributes of a node are interpolated
    are appended to the signals that exist, carry the successive values of
    the id counter as their ids, which are therefore pairwise distinct, and
    start without subscriber; the counter ends past the last id given
    out. *)
Theorem new_signals_follow_counter (w : World) (database : Database)
        (attributes : list Attribute) :
  let w' := fst (fst (interpolateNodeAttributes w database attributes)) in
  exists news,
    signals w' = signals w ++ news /\
    map Signal.id news = map counterId (seq (nextId w) (List.length news)) /\
    NoDup (map Signal.id news) /\
    nextId w' = nextId w + List.length news /\
    Forall (fun s => Signal.subscribers s = []) news.
Proof.
  cbv zeta. unfold interpolateNodeAttributes. cbn [fst].
  destruct (appendsSignals_scanFrom attributes 0
              (mkScan w database (map Some attributes) []))
    as (news & Hs & Hi & Hn & Hf).
  cbn [scanWorld] in *. exists news. repeat split; auto.
  rewrite Hi. apply NoDup_map_counterId, seq_NoDup.
Qed.

Section TreeWalk.

Lemma interpolateAttributes_Element (w : World) (database : Database)
      (i : nat) (t : string) (cells : list (option Attribute)) (cs : list Node) :
  interpolateAttributes w database (Element i t cells cs)
  = match denseCells cells with
    | None => Thrown TypeError
    | Some attributes =>
        let '(w1, database1, cells') :=
          interpolateNodeAttributes w database attributes in
        '(w2, database2, cs') <- walkChildren w1 database1 cs ;;
        Returned (w2, database2, Element i t cells' cs')
    end.
Proof. reflexivity. Qed.

Lemma In_None_not_dense (cells : list (option Attribute)) :
  In None cells -> denseCells cells = None.
Proof.
  induction cells as [|[a|] cells IH]; cbn; [tauto| |reflexivity].
  intros [E|Hin]; [discriminate|]. now rewrite (IH Hin).
Qed.

Lemma appendsSignals_interpolateNodeAttributes (w : World) (database : Database)
      (attributes : list Attribute) :
  appendsSignals w (fst (fst (interpolateNodeAttributes w database attributes))).
Proof.
  unfold interpolateNodeAttributes. cbn [fst].
  apply (appendsSignals_scanFrom attributes 0
           (mkScan w database (map Some attributes) [])).
Qed.

Lemma counterId_not_slotId (m k : nat) : counterId m <> slotId k.
Proof. unfold counterId, slotId. cbn [append]. discriminate. Qed.

Lemma expandEntries_slots (spreadName : string) (index localIndex : nat)
      (entries : list (string * Value)) (st : Scan) (k : nat) :
  JsMap.get (scanDatabase (expandEntries spreadName index localIndex entries st))
            (slotId k)
  = JsMap.get (scanDatabase st) (slotId k).
Proof.
  revert localIndex st. induction entries as [|[field c] entries IH];
    intros localIndex st; cbn [expandEntries]; [reflexivity|].
  unfold newSignal, generateId. cbn [fst snd]. rewrite IH. cbn [scanDatabase].
  apply get_set_other. apply spread_id_not_slotId.
Qed.

Lemma scanAttribute_slots (st : Scan) (index : nat) (attribute : Attribute)
      (k : nat) :
  JsMap.get (scanDatabase (scanAttribute st index attribute)) (slotId k)
  = JsMap.get (scanDatabase st) (slotId k).
Proof.
  unfold scanAttribute.
  destruct (JsString.startsWithColons (name attribute)); cbn [negb].
  - unfold expandSpread. cbn [scanDatabase].
    destruct (JsMap.get (scanDatabase st) (name attribute)) as [packet|];
      [|reflexivity].
    destruct (isObjectType packet); [apply expandEntries_slots|reflexivity].
  - unfold upgradePlain, newSignal, generateId. cbn [fst snd scanDatabase].
    apply get_set_other. apply counterId_not_slotId.
Qed.

Lemma scanFrom_slots (attributes : list Attribute) (index : nat) (st : Scan)
      (k : nat) :
  JsMap.get (scanDatabase (scanFrom index attributes st)) (slotId k)
  = JsMap.get (scanDatabase st) (slotId k).
Proof.
  revert index st. induction attributes as [|a attributes IH]; intros index st;
    cbn [scanFrom]; [reflexivity|].
  now rewrite IH, scanAttribute_slots.
Qed.

Lemma interpolateNodeAttributes_slots (w : World) (database : Database)
      (attributes : list Attribute) (k : nat) :
  JsMap.get (snd (fst (interpolateNodeAttributes w database attributes))) (slotId k)
  = JsMap.get database (slotId k).
Proof.
  unfold interpolateNodeAttributes. cbn [fst snd].
  apply (scanFrom_slots attributes 0 (mkScan w database (map Some attributes) []) k).
Qed.

(** On a tree without hole the walk returns; it keeps the nodes, the
    comments and the records of the slots, and only appends signals. *)
Lemma walk_dense_tree (n : Node) :
  (forall c, In c (nodesOf n) -> hasNoHole c) ->
  forall (w : World) (database : Database),
  exists w' database' n',
    interpolateAttributes w database n = Returned (w', database', n') /\
    treeIds n' = treeIds n /\
    (forall p, findComments p n' = findComments p n) /\
    appendsSignals w w' /\
    (forall k, JsMap.get database' (slotId k) = JsMap.get database (slotId k)).
Proof.
  induction n as [i t cells cs IH|i text|i text] using Node_forall_ind;
    intros Hdense w database.
  - rewrite interpolateAttributes_Element.
    assert (Hcells : denseCells cells <> None).
    { apply (Hdense (Element i t cells cs)). cbn. now left. }
    destruct (denseCells cells) as [attributes|]; [|contradiction].
    pose proof (appendsSignals_interpolateNodeAttributes w database attributes) as Hw1.
    pose proof (interpolateNodeAttributes_slots w database attributes) as Hd1.
    destruct (interpolateNodeAttributes w database attributes) as [[w1 db1] cells'].
    cbn [fst snd] in Hw1, Hd1.
    assert (Hchildren : forall w0 db0,
               exists w2 db2 cs',
                 walkChildren w0 db0 cs = Returned (w2, db2, cs') /\
                 flat_map treeIds cs' = flat_map treeIds cs /\
                 (forall p, flat_map (findComments p) cs' = flat_map (findComments p) cs) /\
                 appendsSignals w0 w2 /\
                 (forall k, JsMap.get db2 (slotId k) = JsMap.get db0 (slotId k))).
    { assert (Hcs : forall c, In c (flat_map nodesOf cs) -> hasNoHole c).
      { intros c Hc. apply Hdense. cbn. now right. }
      clear Hdense Hcells Hw1 Hd1. induction IH as [|c cs Hc _ IHcs]; intros w0 db0.
      - exists w0, db0, []. cbn. repeat split. apply appendsSignals_refl.
      - cbn [walkChildren].
        destruct (Hc (fun c' Hc' => Hcs c' (in_or_app _ _ _ (or_introl Hc'))) w0 db0)
          as (wa & dba & c' & Ea & Hia & Hca & Hwa & Hda).
        rewrite Ea. cbn [bind].
        destruct (IHcs (fun c' Hc' => Hcs c' (in_or_app _ _ _ (or_intror Hc'))) wa dba)
          as (wb & dbb & r' & Eb & Hib & Hcb & Hwb & Hdb).
        rewrite Eb. cbn [bind].
        exists wb, dbb, (c' :: r'). cbn [flat_map].
        split; [reflexivity|]. split; [now rewrite Hia, Hib|].
        split; [intros p; now rewrite Hca, Hcb|].
        split; [eapply appendsSignals_trans; eassumption|].
        intros k. now rewrite Hdb, Hda. }
    destruct (Hchildren w1 db1) as (w2 & db2 & cs' & E & Hi & Hc & Hw & Hd).
    rewrite E. cbn [bind].
    exists w2, db2, (Element i t cells' cs'). cbn [treeIds findComments].
    split; [reflexivity|]. split; [now rewrite Hi|]. split; [exact Hc|].
    split; [eapply appendsSignals_trans; eassumption|].
    intros k. now rewrite Hd, Hd1.
  - exists w, database, (Comment i text). repeat split. apply appendsSignals_refl.
  - exists w, database, (Text i text). repeat split. apply appendsSignals_refl.
Qed.

End TreeWalk.

(** X17: on a tree without hole in any attribute array,
    [interpolateAttributes] returns; the tree it returns has the same
    nodes in the same places (the same identities in document order) and
    the same comments, so every content marker is still there for node
    interpolation; signals are only appended. *)
Theorem interpolateAttributes_keeps_the_tree (n : Node) :
  (forall c, In c (nodesOf n) -> hasNoHole c) ->
  forall (w : World) (database : Database),
  exists w' database' n',
    interpolateAttributes w database n = Returned (w', database', n') /\
    treeIds n' = treeIds n /\
    (forall p, findComments p n' = findComments p n) /\
    appendsSignals w w'.
Proof.
  intros Hdense w database.
  destruct (walk_dense_tree n Hdense w database)
    as (w' & database' & n' & E & Hi & Hc & Hw & _).
  exists w', database', n'. auto.
Qed.

(** The tree of [<a x="1"><!--::0--></a>]. *)
Lemma interpolateAttributes_keeps_the_tree_witness :
  exists w' database' n',
    interpolateAttributes initialWorld []
      (Element 0 "root" []
         [Element 1 "a" [Some (mkAttribute "x" (VString "1"))] [Comment 2 "::0"]])
    = Returned (w', database', n') /\
    treeIds n' = [0; 1; 2].
Proof.
  destruct (interpolateAttributes_keeps_the_tree
              (Element 0 "root" []
                 [Element 1 "a" [Some (mkAttribute "x" (VString "1"))] [Comment 2 "::0"]])
              ltac:(cbn; intros c Hc; intuition (subst; cbn; discriminate || exact I))
              initialWorld [])
    as (w' & db' & n' & E & Hi & _ & _).
  exists w', db', n'. split; [exact E|exact Hi].
Defined.

(** X18: attribute interpolation cannot be run a second time on a node
    that had a spread marker: the first run leaves the emptied cell of the
    marker in the attribute array, and reading the name of that cell
    throws. *)
Theorem second_run_after_spread_throws
        (w : World) (database : Database) (attributes : list Attribute)
        (index : nat) (attribute : Attribute) :
  nth_error attributes index = Some attribute ->
  JsString.startsWithColons (name attribute) = true ->
  forall (w2 : World) (database2 : Database) (i : nat) (t : string) (cs : list Node),
    interpolateAttributes w2 database2
      (Element i t (snd (interpolateNodeAttributes w database attributes)) cs)
    = Thrown TypeError.
Proof.
  intros Hnth Hspread w2 database2 i t cs.
  rewrite interpolateAttributes_Element, In_None_not_dense; [reflexivity|].
  apply nth_error_split in Hnth as (pre & post & -> & Hlen).
  unfold interpolateNodeAttributes. cbn [snd].
  set (st0 := mkScan w database (map Some (pre ++ attribute :: post)) []).
  rewrite scanFrom_app. cbn [Nat.add scanFrom]. rewrite Hlen.
  set (st1 := scanFrom 0 pre st0).
  pose proof (scanFrom_preserves pre 0 st0) as (_ & _ & _ & _ & Hl1).
  fold st1 in Hl1.
  assert (Hlen1 : index < List.length (scanAttributes st1)).
  { rewrite Hl1. subst st0. cbn. rewrite length_map, length_app. cbn. lia. }
  set (st2 := scanAttribute st1 index attribute).
  pose proof (scanFrom_preserves post (S index) st2) as (_ & _ & _ & Hc3 & _).
  apply In_applySplices. apply nth_error_In with (n := index).
  rewrite Hc3 by lia. subst st2. unfold scanAttribute. rewrite Hspread.
  unfold expandSpread. cbn [scanAttributes]. apply nth_error_setCell_same.
  cbn [negb].
  destruct (JsMap.get (scanDatabase st1) (name attribute)) as [packet|]; [|exact Hlen1].
  destruct (isObjectType packet); [|exact Hlen1].
  destruct (expandEntries_preserves (name attribute) index 1
              (objectEntries (content packet)) st1 0 0 Hspread) as [_ E].
  now rewrite E.
Qed.

(** The node [<VGroup left="10" ${"checked"}>], interpolated twice. *)
Lemma second_run_after_spread_throws_witness :
  interpolateAttributes initialWorld []
    (Element 1 "VGroup"
       (snd (interpolateNodeAttributes initialWorld
               [("::1", newRecordDecoded "::1" (VString "checked") "<VGroup ")]%string
               [mkAttribute "left" (VString "10"); mkAttribute "::1" (VString "")]))
       [])
  = Thrown TypeError.
Proof.
  apply (second_run_after_spread_throws initialWorld
           [("::1", newRecordDecoded "::1" (VString "checked") "<VGroup ")]%string
           [mkAttribute "left" (VString "10"); mkAttribute "::1" (VString "")] 1
           (mkAttribute "::1" (VString "")) eq_refl eq_refl).
Defined.

Section NodeImportEdges.


Lemma importMarkers_no_record (ms : list (nat * string)) (h : Heap)
      (database : Database) (tree : Node) (warnings : list nat) :
  (forall i text, In (i, text) ms -> JsMap.get database text = None) ->
  importMarkers ms (mkNodesState database h tree warnings)
  = Returned (mkNodesState database h tree (warnings ++ map fst ms)).
Proof.
  revert warnings. induction ms as [|[i text] ms IH]; intros warnings Hnone;
    cbn [importMarkers map].
  - now rewrite app_nil_r.
  - unfold importMarker, importFor. cbn [nsHeap nsDatabase nsRoot nsWarnings fst snd].
    rewrite (Hnone i text (or_introl eq_refl)). cbn [bind List.length Nat.ltb Nat.leb].
    rewrite IH; [|intros j t Hin; apply (Hnone j t); now right].
    now rewrite <- app_assoc.
Qed.

Lemma importRecord_no_map (h : Heap) (database : Database) (record : RecordT) :
  (forall m, property (content record) "context" <> VMap m) ->
  importRecord h database record = Thrown TypeError.
Proof.
  intros Hno. unfold importRecord.
  destruct (notNullish (content record)); [|reflexivity].
  destruct (property (content record) "context") eqn:E; try reflexivity.
  now destruct (Hno ref).
Qed.

End NodeImportEdges.

(** ** Node interpolation: nested results that share a slot id *)

(** C9: node interpolation does not import the nested result of every
    marker.  Every template numbers its slots from [::0], so the database
    of a nested result can hold a record under the id of a later marker of
    the parent.  The import of the first marker copies that record over the
    parent's record: when the second marker is reached, the database no
    longer holds the nested result that was filed for it but the nested
    record, whose content has no database, and the call throws a
    [TypeError]; the nodes of the second result are not inserted and no
    marker is removed. *)
Theorem nested_slot_id_hides_later_marker
        (h : Heap) (database : Database) (root : Node)
        (first second : nat * string) (post : list (nat * string))
        (record1 record2 inner : RecordT)
        (m1 r1 m2 r2 : nat) (nested1 nested2 : Database) (root1 root2 : Node) :
  findComments JsString.startsWithColons root = first :: second :: post ->
  JsMap.get database (snd first) = Some record1 ->
  property (content record1) "context" = VMap m1 ->
  property (content record1) "root" = VNode r1 ->
  nth_error (maps h) m1 = Some nested1 ->
  nth_error (roots h) r1 = Some root1 ->
  JsMap.get database (snd second) = Some record2 ->
  property (content record2) "context" = VMap m2 ->
  property (content record2) "root" = VNode r2 ->
  nth_error (maps h) m2 = Some nested2 ->
  nth_error (roots h) r2 = Some root2 ->
  NoDup (JsMap.keys nested1) ->
  JsMap.get nested1 (snd second) = Some inner ->
  (forall m, property (content inner) "context" <> VMap m) ->
  interpolateNodes h database root = Thrown TypeError.
Proof.
  intros Hmarkers Hget1 Hctx1 Hroot1 Hm1 Hr1 _ _ _ _ _ Hnd Hinner Hno.
  unfold interpolateNodes. rewrite Hmarkers. cbn [importMarkers].
  unfold importMarker at 1. cbn [nsHeap nsDatabase nsRoot nsWarnings].
  unfold importFor. rewrite Hget1. unfold importRecord.
  assert (Hnn : notNullish (content record1) = true).
  { destruct (content record1); try reflexivity; discriminate. }
  rewrite Hnn, Hctx1, Hm1, Hroot1, Hr1. cbn [bind].
  assert (Hget : JsMap.get (mergeInto database nested1) (snd second) = Some inner).
  { now rewrite (get_mergeInto nested1 database (snd second) Hnd), Hinner. }
  destruct (Nat.ltb 0 (List.length (childrenOf root1)));
    unfold importMarker; cbn [nsHeap nsDatabase nsRoot nsWarnings bind];
    unfold importFor; rewrite Hget;
    now rewrite (importRecord_no_map _ _ inner Hno).
Qed.

(** The parent [<a>${first}${second}</a>] of the nested templates
    [<b x=${1} y=${2}/>] and [<c/>]: both markers have the result of a
    nested template on file, and the call throws. *)
Lemma nested_slot_id_hides_later_marker_witness :
  interpolateNodes collidingHeapExample collidingDatabaseExample collidingRootExample
  = Thrown TypeError.
Proof.
  apply (nested_slot_id_hides_later_marker
           collidingHeapExample collidingDatabaseExample collidingRootExample
           (2, "::0") (3, "::1") []
           (newRecordDecoded "::0"
              (VObject [("root", VNode 0); ("unsubscribe", VFunction 0);
                        ("context", VMap 0)]) "<a>")
           (newRecordDecoded "::1"
              (VObject [("root", VNode 1); ("unsubscribe", VFunction 0);
                        ("context", VMap 1)]) "")
           (newRecordDecoded "::1" (VNumber (Decimal "2")) " y=")
           0 0 1 1
           (nth 0 (maps collidingHeapExample) []) []
           (nth 0 (roots collidingHeapExample) (Text 0 ""))
           (nth 1 (roots collidingHeapExample) (Text 0 ""))
           eq_refl eq_refl eq_refl eq_refl eq_refl eq_refl
           eq_refl eq_refl eq_refl eq_refl eq_refl).
  - cbn. repeat constructor; cbn; intuition discriminate.
  - reflexivity.
  - intros m. vm_compute. discriminate.
Defined.

(** X19: when no content marker of the tree has a record in the database,
    node interpolation throws nothing, leaves the database and the nested
    results alone, imports nothing, warns once for every marker, in document
    order, and removes the markers from the tree. *)
Theorem interpolateNodes_markers_without_record
        (h : Heap) (database : Database) (root : Node) :
  (forall i text, In (i, text) (findComments JsString.startsWithColons root) ->
                  JsMap.get database text = None) ->
  interpolateNodes h database root
  = Returned
      (mkNodesState database h
         (removeMarkers (map fst (findComments JsString.startsWithColons root)) root)
         (map fst (findComments JsString.startsWithColons root))).
Proof.
  intros Hnone. unfold interpolateNodes.
  destruct (findComments JsString.startsWithColons root) as [|m ms] eqn:E.
  - reflexivity.
  - rewrite (importMarkers_no_record (m :: ms) h database root [] Hnone).
    reflexivity.
Qed.

(** The tree of [<a><!--::0-->x<!--::1--></a>] with an empty database. *)
Lemma interpolateNodes_markers_without_record_witness :
  interpolateNodes (mkHeap [] []) []
    (Element 0 "root" []
       [Element 1 "a" [] [Comment 2 "::0"; Text 3 "x"; Comment 4 "::1"]])
  = Returned
      (mkNodesState [] (mkHeap [] [])
         (Element 0 "root" [] [Element 1 "a" [] [Text 3 "x"]])
         [2; 4]).
Proof.
  apply (interpolateNodes_markers_without_record (mkHeap [] []) []
           (Element 0 "root" []
              [Element 1 "a" [] [Comment 2 "::0"; Text 3 "x"; Comment 4 "::1"]])).
  intros i text _. reflexivity.
Defined.



Section PlainNodes.

Lemma collectAttribute_plain (st : Binding) (pending : list ToProcess)
      (index : nat) (a : Attribute) :
  plainAttribute a -> collectAttribute st pending index a = CollectOk st pending.
Proof.
  intros (Hname & text & Hvalue & Htext). unfold collectAttribute.
  now rewrite Hname, Hvalue, Htext.
Qed.

Lemma collectFrom_plain_prefix (before rest : list (option Attribute))
      (index : nat) (st : Binding) (pending : list ToProcess) :
  plainCells before ->
  collectFrom index (before ++ rest) st pending
  = collectFrom (index + List.length before) rest st pending.
Proof.
  revert index. induction before as [|[a|] before IH]; intros index Hplain;
    cbn [app collectFrom List.length].
  - now rewrite Nat.add_0_r.
  - rewrite (collectAttribute_plain st pending index a (Hplain a (or_introl eq_refl))).
    rewrite IH; [f_equal; lia|]. intros b Hb. apply Hplain. now right.
  - rewrite IH; [f_equal; lia|]. intros b Hb. apply Hplain. now right.
Qed.

Lemma collectFrom_plain (cells : list (option Attribute))
      (index : nat) (st : Binding) (pending : list ToProcess) :
  plainCells cells -> collectFrom index cells st pending = CollectOk st pending.
Proof.
  intros Hplain. rewrite <- (app_nil_r cells).
  now rewrite collectFrom_plain_prefix.
Qed.

Lemma leave_enter (sh : Shared) (n : LiveNode) : leave (enter sh n) = sh.
Proof. now destruct sh. Qed.

End PlainNodes.

(** X21: nodes without marker are left as they are: when no attribute of
    the nodes has a name or a value that starts with two colons, the walk
    of [interpolateAttributes2] finishes and changes neither a node nor the
    signals, the subscribed functions or the database. *)
Theorem plain_nodes_untouched `{Host} (sh : Shared) (nodes : list LiveNode) :
  Forall (fun n => plainCells (liveCells n)) nodes ->
  interpolateAttributes2 sh nodes = Finished sh nodes.
Proof.
  induction 1 as [|n nodes Hn _ IH]; cbn [interpolateAttributes2]; [reflexivity|].
  unfold interpolateNode2. rewrite (collectFrom_plain _ 0 _ [] Hn).
  cbn [processAll]. rewrite leave_enter. cbn [enter bNode]. now rewrite IH.
Qed.

(** A node [<Text id="123" content="hello">]. *)
Lemma plain_nodes_untouched_witness :
  interpolateAttributes2 (H := sampleHost) (mkShared [] [] 0 [])
    [mkLiveNode 1 [Some (mkAttribute "id" (VString "123"));
                   Some (mkAttribute "content" (VString "hello"))] [] [] [] [] []]
  = Finished (mkShared [] [] 0 [])
      [mkLiveNode 1 [Some (mkAttribute "id" (VString "123"));
                     Some (mkAttribute "content" (VString "hello"))] [] [] [] [] []].
Proof.
  apply (plain_nodes_untouched (H := sampleHost) (mkShared [] [] 0 [])).
  apply Forall_cons; [|apply Forall_nil].
  intros a [E|[E|[]]]; injection E as <-;
    (split; [reflexivity|eexists; split; reflexivity]).
Defined.



Section SignalBinding.
Context `{Host}.
Variables (sh : Shared) (n : LiveNode) (before after : list (option Attribute)).
Variables (a : Attribute) (text : string) (record : RecordT) (ref : nat) (s : Signal.t).

Lemma setCell_same {A} (index : nat) (x : A) (l : list A) :
  nth_error l index = Some x -> setCell index x l = l.
Proof.
  revert index. induction l as [|y l IH]; intros [|index]; cbn; try discriminate.
  - now intros [= ->].
  - intros E. now rewrite IH.
Qed.

Lemma setCell_setCell {A} (index : nat) (x y : A) (l : list A) :
  setCell index x (setCell index y l) = setCell index x l.
Proof.
  revert index. induction l as [|z l IH]; intros [|index]; cbn; try reflexivity.
  now rewrite IH.
Qed.

Lemma hasToken_In (tokens : list string) (token : string) :
  hasToken tokens token = true <-> In token tokens.
Proof.
  unfold hasToken. rewrite existsb_exists. split.
  - intros (x & Hx & E). apply String.eqb_eq in E. now subst.
  - intros Hin. exists token. split; [exact Hin|apply String.eqb_refl].
Qed.

End SignalBinding.

(** What the callback computes for a node with one marker, in the value of
    an attribute, whose record holds a signal and is no style attribute. *)
Lemma interpolateNode2_signal_marker `{Host}
        (sh : Shared) (n : LiveNode) (before after : list (option Attribute))
        (a : Attribute) (text : string) (record : RecordT) (ref : nat)
        (s : Signal.t) :
  liveCells n = before ++ Some a :: after ->
  plainCells before ->
  plainCells after ->
  JsString.startsWithColons (name a) = false ->
  value a = VString text ->
  JsString.startsWithColons text = true ->
  JsMap.get (shDatabase sh) text = Some record ->
  rId record = text ->
  content record = VSignal ref ->
  isStyleAttribute record = false ->
  nth_error (shSignals sh) ref = Some s ->
  let fn := shFirstFunction sh + List.length (shClosures sh) in
  let emptied := setCells n (before ++ None :: after) in
  interpolateNode2 sh n
  = inr (mkShared
           (setCell ref (fst (Signal.subscribe s fn)) (shSignals sh))
           (shClosures sh ++ [AttributeObserver (liveId n) (name a)])
           (shFirstFunction sh)
           (JsMap.set (shDatabase sh) text
              (mkRecord text (VSignal ref)
                        (unsubscribe record ++ [mkHandle ref fn])
                        (placement record))),
         if notNullish (Signal.value s)
         then setAttribute emptied (name a) (stringOf (Signal.value s))
         else emptied).
Proof.
  intros Hcells Hbefore Hafter Hname Hvalue Hmarker Hrecord Hid Hcontent Hstyle
         Hsignal fn emptied.
  unfold interpolateNode2.
  rewrite Hcells, collectFrom_plain_prefix by exact Hbefore.
  cbn [collectFrom Nat.add]. unfold collectAttribute.
  rewrite Hname, Hvalue, Hmarker. cbn [enter bDatabase]. rewrite Hrecord.
  rewrite collectFrom_plain by exact Hafter. cbn [app processAll].
  unfold processAttribute. cbn [attributePayload attributeName].
  assert (Hsig : hasType record "Signal" = true).
  { unfold hasType. now rewrite Hcontent. }
  assert (Harr : hasType record "Array" = false).
  { unfold hasType. now rewrite Hcontent. }
  rewrite Hsig, Hstyle, Harr, Hcontent. cbn [andb]. rewrite andb_false_r.
  unfold subscribeClosure, deleteCell, withNode, enter.
  cbn [bSignals bClosures bFirstFunction bDatabase bNode liveId setCells liveCells].
  rewrite Hsignal. unfold runAttributeObserver, withNode.
  rewrite Hcells, setCell_middle.
  destruct (notNullish (Signal.value s));
    cbn [bSignals bClosures bFirstFunction bDatabase bNode liveId setCells liveCells];
    rewrite Hsignal; unfold pushUnsubscribe; cbn [bDatabase];
    rewrite Hid, Hrecord; cbv beta iota; rewrite Hid, Hcontent; reflexivity.
Qed.


(** X23: a marker in the value of an attribute whose record holds a signal
    (and is no style attribute) binds the attribute to the signal: the
    callback subscribes a new function to the signal, sets the attribute to
    the string of the signal's value when that value is neither null nor
    undefined (and does not touch it otherwise), files the handle returned
    by [subscribe] on the record, and empties the cell of the marker
    attribute; the style, the class list, the properties of the node and the
    other signals stay as they are. *)
Theorem signal_marker_binds_attribute `{Host}
        (sh : Shared) (n : LiveNode) (before after : list (option Attribute))
        (a : Attribute) (text : string) (record : RecordT) (ref : nat)
        (s : Signal.t) :
  liveCells n = before ++ Some a :: after ->
  plainCells before ->
  plainCells after ->
  JsString.startsWithColons (name a) = false ->
  value a = VString text ->
  JsString.startsWithColons text = true ->
  JsMap.get (shDatabase sh) text = Some record ->
  rId record = text ->
  content record = VSignal ref ->
  isStyleAttribute record = false ->
  nth_error (shSignals sh) ref = Some s ->
  let fn := shFirstFunction sh + List.length (shClosures sh) in
  exists sh' n',
    interpolateNode2 sh n = inr (sh', n') /\
    liveCells n' = before ++ None :: after /\
    liveAttributes n'
    = (if notNullish (Signal.value s)
       then JsMap.set (liveAttributes n) (name a) (stringOf (Signal.value s))
       else liveAttributes n) /\
    liveStyle n' = liveStyle n /\
    liveClassList n' = liveClassList n /\
    liveProperties n' = liveProperties n /\
    option_map Signal.subscribers (nth_error (shSignals sh') ref)
    = Some (JsSet.add (Signal.subscribers s) fn) /\
    (forall j, j <> ref -> nth_error (shSignals sh') j = nth_error (shSignals sh) j) /\
    shClosures sh' = shClosures sh ++ [AttributeObserver (liveId n) (name a)] /\
    option_map unsubscribe (JsMap.get (shDatabase sh') text)
    = Some (unsubscribe record ++ [mkHandle ref fn]).
Proof.
  intros Hcells Hbefore Hafter Hname Hvalue Hmarker Hrecord Hid Hcontent Hstyle
         Hsignal fn.
  eexists. eexists.
  split; [exact (interpolateNode2_signal_marker sh n before after a text record ref s
                   Hcells Hbefore Hafter Hname Hvalue Hmarker Hrecord Hid Hcontent
                   Hstyle Hsignal)|].
  cbn [shSignals shClosures shDatabase].
  assert (Hlt : ref < List.length (shSignals sh)).
  { apply nth_error_Some. congruence. }
  split; [now destruct (notNullish (Signal.value s))|].
  split; [now destruct (notNullish (Signal.value s))|].
  split; [now destruct (notNullish (Signal.value s))|].
  split; [now destruct (notNullish (Signal.value s))|].
  split; [now destruct (notNullish (Signal.value s))|].
  split; [now rewrite nth_error_setCell_same|].
  split; [intros j Hj; now apply nth_error_setCell_other|].
  split; [reflexivity|].
  now rewrite get_set_same.
Qed.

(** The node [<Text color=${signal}>] with the signal holding [red]. *)
Lemma signal_marker_binds_attribute_witness :
  exists sh' n',
    interpolateNode2 (H := sampleHost)
      (mkShared [Signal.new "id1" (VString "red")] [] 100
                [("::0", newRecordDecoded "::0" (VSignal 0) "<Text color=")])
      (mkLiveNode 1 [Some (mkAttribute "color" (VString "::0"))] [] [] [] [] [])
    = inr (sh', n') /\
    liveCells n' = [None] /\
    liveAttributes n' = [("color", "red")] /\
    option_map Signal.subscribers (nth_error (shSignals sh') 0) = Some [100].
Proof.
  destruct (signal_marker_binds_attribute (H := sampleHost)
              (mkShared [Signal.new "id1" (VString "red")] [] 100
                        [("::0", newRecordDecoded "::0" (VSignal 0) "<Text color=")])
              (mkLiveNode 1 [Some (mkAttribute "color" (VString "::0"))] [] [] [] [] [])
              [] [] (mkAttribute "color" (VString "::0")) "::0"
              (newRecordDecoded "::0" (VSignal 0) "<Text color=") 0
              (Signal.new "id1" (VString "red"))
              eq_refl (fun _ (F : In _ []) => match F with end)
              (fun _ (F : In _ []) => match F with end)
              eq_refl eq_refl eq_refl eq_refl eq_refl eq_refl eq_refl eq_refl)
    as (sh' & n' & E & Hc & Ha & _ & _ & _ & Hs & _).
  exists sh', n'. split; [exact E|]. split; [exact Hc|]. split; [exact Ha|exact Hs].
Defined.

(** X24: binding and cleanup form a round trip: after the callback has
    bound an attribute to a signal through a record that had no handle,
    calling the handles filed on the record gives back the signals as they
    were before the node was visited.  The function subscribed is a new
    object, so it is not among the subscribers before. *)
Theorem binding_undone_by_record_handles `{Host}
        (sh : Shared) (n : LiveNode) (before after : list (option Attribute))
        (a : Attribute) (text : string) (record : RecordT) (ref : nat)
        (s : Signal.t) :
  liveCells n = before ++ Some a :: after ->
  plainCells before ->
  plainCells after ->
  JsString.startsWithColons (name a) = false ->
  value a = VString text ->
  JsString.startsWithColons text = true ->
  JsMap.get (shDatabase sh) text = Some record ->
  rId record = text ->
  content record = VSignal ref ->
  isStyleAttribute record = false ->
  nth_error (shSignals sh) ref = Some s ->
  unsubscribe record = [] ->
  JsSet.has (Signal.subscribers s)
            (shFirstFunction sh + List.length (shClosures sh)) = false ->
  exists sh' n' record',
    interpolateNode2 sh n = inr (sh', n') /\
    JsMap.get (shDatabase sh') text = Some record' /\
    unsubscribe record' <> [] /\
    fold_left callHandle (unsubscribe record') (shSignals sh') = shSignals sh.
Proof.
  intros Hcells Hbefore Hafter Hname Hvalue Hmarker Hrecord Hid Hcontent Hstyle
         Hsignal Hnone Hfresh.
  eexists. eexists. eexists.
  split; [exact (interpolateNode2_signal_marker sh n before after a text record ref s
                   Hcells Hbefore Hafter Hname Hvalue Hmarker Hrecord Hid Hcontent
                   Hstyle Hsignal)|].
  cbn [shSignals shDatabase].
  split; [apply get_set_same|]. cbn [unsubscribe]. rewrite Hnone.
  split; [discriminate|].
  cbn [app fold_left]. unfold callHandle. cbn [hSignal hSubscriber].
  rewrite nth_error_setCell_same by (apply nth_error_Some; congruence).
  rewrite setCell_setCell. apply setCell_same. rewrite Hsignal. f_equal.
  unfold Signal.subscribe, Signal.unsubscribe. cbn [fst Signal.subscribers Signal.id Signal.value Signal.v].
  rewrite add_delete, delete_absent by exact Hfresh. now destruct s.
Qed.

(** The node [<Text color=${signal}>], bound and cleaned up. *)
Lemma binding_undone_by_record_handles_witness :
  exists sh' n' record',
    interpolateNode2 (H := sampleHost)
      (mkShared [Signal.new "id1" (VString "red")] [] 100
                [("::0", newRecordDecoded "::0" (VSignal 0) "<Text color=")])
      (mkLiveNode 1 [Some (mkAttribute "color" (VString "::0"))] [] [] [] [] [])
    = inr (sh', n') /\
    JsMap.get (shDatabase sh') "::0" = Some record' /\
    fold_left callHandle (unsubscribe record') (shSignals sh')
    = [Signal.new "id1" (VString "red")].
Proof.
  destruct (binding_undone_by_record_handles (H := sampleHost)
              (mkShared [Signal.new "id1" (VString "red")] [] 100
                        [("::0", newRecordDecoded "::0" (VSignal 0) "<Text color=")])
              (mkLiveNode 1 [Some (mkAttribute "color" (VString "::0"))] [] [] [] [] [])
              [] [] (mkAttribute "color" (VString "::0")) "::0"
              (newRecordDecoded "::0" (VSignal 0) "<Text color=") 0
              (Signal.new "id1" (VString "red"))
              eq_refl (fun _ (F : In _ []) => match F with end)
              (fun _ (F : In _ []) => match F with end)
              eq_refl eq_refl eq_refl eq_refl eq_refl eq_refl eq_refl eq_refl
              eq_refl eq_refl)
    as (sh' & n' & record' & E & Hg & _ & Hr).
  exists sh', n', record'. split; [exact E|]. split; [exact Hg|exact Hr].
Defined.

Section ClassArray.
Context `{Host}.



End ClassArray.







Lemma nth_error_snoc {A} (l : list A) (x : A) :
  nth_error (l ++ [x]) (List.length l) = Some x.
Proof. induction l as [|y l IH]; cbn; [reflexivity|exact IH]. Qed.

(** X28: a template without value in element content.  When the markup is
    built, the tree of the parser has no hole and no content marker, [xml]
    returns; the root and the database it returns are new objects (the
    nested results that existed are untouched), the root has the nodes of
    the parsed tree, and the database holds, for every defined value, the
    record made for its slot: the value and the decoder's answer for the
    literal segment before it. *)
Theorem xml_returns_without_content_marker
        (parse : string -> Node) (w : World) (h : Heap)
        (strings : list string) (values : list Value) (html : string) :
  createIntermediateHtml (fst (createStream [] strings values))
                         (snd (createStream [] strings values)) = Some html ->
  (forall c, In c (nodesOf (parse html)) -> hasNoHole c) ->
  findComments JsString.startsWithColons (parse html) = [] ->
  exists result root' database',
    xml parse w h strings values = Returned result /\
    nth_error (roots (xmlHeap result)) (rootRef result) = Some root' /\
    nth_error (maps (xmlHeap result)) (contextRef result) = Some database' /\
    rootRef result = List.length (roots h) /\
    contextRef result = List.length (maps h) /\
    roots (xmlHeap result) = roots h ++ [root'] /\
    maps (xmlHeap result) = maps h ++ [database'] /\
    treeIds root' = treeIds (parse html) /\
    appendsSignals w (xmlWorld result) /\
    (forall k, k < List.length strings ->
       JsMap.get database' (slotId k)
       = if isUndefined (valueAt values k) then None
         else Some (newRecordDecoded (slotId k) (valueAt values k)
                                     (nth k strings ""%string))).
Proof.
  intros Hhtml Hdense Hmarkers. unfold xml.
  destruct (createStream [] strings values) as [stream context] eqn:Es.
  cbn [fst snd] in Hhtml. rewrite Hhtml.
  assert (Hget : forall k, k < List.length strings ->
             JsMap.get context (slotId k)
             = if isUndefined (valueAt values k) then None
               else Some (slotRecord values k (nth k strings ""%string))).
  { unfold createStream in Es.
    rewrite createStreamFrom_spec in Es by (intros j _; reflexivity).
    injection Es as _ <-. cbn [app]. intros k Hk.
    exact (recordsOf_get values strings 0 k Hk). }
  destruct (walk_dense_tree (parse html) Hdense w context)
    as (w1 & context1 & root1 & E & Hids & Hcomments & Hw & Hslots).
  rewrite E. cbn [bind]. unfold interpolateNodes.
  rewrite Hcomments, Hmarkers. cbn [bind nsHeap nsDatabase nsRoot].
  eexists. exists root1, context1.
  split; [reflexivity|]. cbn [xmlHeap rootRef contextRef roots maps xmlWorld].
  split; [apply nth_error_snoc|]. split; [apply nth_error_snoc|].
  repeat (split; [reflexivity|]).
  split; [exact Hids|]. split; [exact Hw|].
  intros k Hk. rewrite Hslots. now apply Hget.
Qed.

(** The template [<Text id="123" content=${"hello"}>], parsed to one
    element with the attributes [id] and [content]. *)
Lemma xml_returns_without_content_marker_witness :
  exists result root' database',
    xml (fun _ => Element 0 "root" []
                    [Element 1 "Text"
                       [Some (mkAttribute "id" (VString "123"));
                        Some (mkAttribute "content" (VString "::0"))] []])
        initialWorld (mkHeap [] [])
        [("<Text id=" ++ String JsString.dquote ("123" ++ String JsString.dquote
                      (" content=" ++ String JsString.dquote "")))%string;
         String JsString.dquote ">"]
        [VString "hello"]
    = Returned result /\
    nth_error (roots (xmlHeap result)) (rootRef result) = Some root' /\
    nth_error (maps (xmlHeap result)) (contextRef result) = Some database' /\
    treeIds root' = [0; 1] /\
    option_map content (JsMap.get database' "::0") = Some (VString "hello").
Proof.
  destruct (xml_returns_without_content_marker
              (fun _ => Element 0 "root" []
                    [Element 1 "Text"
                       [Some (mkAttribute "id" (VString "123"));
                        Some (mkAttribute "content" (VString "::0"))] []])
              initialWorld (mkHeap [] [])
              [("<Text id=" ++ String JsString.dquote ("123" ++ String JsString.dquote
                      (" content=" ++ String JsString.dquote "")))%string;
               String JsString.dquote ">"]
              [VString "hello"] _ eq_refl)
    as (result & root' & database' & E & Hr & Hm & _ & _ & _ & _ & Hi & _ & Hg).
  - cbn. intros c Hc. intuition (subst; cbn; discriminate || exact I).
  - reflexivity.
  - exists result, root', database'.
    split; [exact E|]. split; [exact Hr|]. split; [exact Hm|]. split; [exact Hi|].
    specialize (Hg 0 ltac:(cbn; lia)). change (slotId 0) with "::0"%string in Hg.
    now rewrite Hg.
Defined.


Section HandleOrder.

Lemma In_handlesFor (hs : list Handle) (j k : nat) :
  In k (handlesFor j hs) <-> In (mkHandle j k) hs.
Proof.
  unfold handlesFor. rewrite in_map_iff. split.
  - intros ([r x] & E & Hin). apply filter_In in Hin as [Hin Hj].
    cbn in E, Hj. apply Nat.eqb_eq in Hj. now subst.
  - intros Hin. exists (mkHandle j k). split; [reflexivity|].
    apply filter_In. split; [exact Hin|]. cbn. apply Nat.eqb_refl.
Qed.

Lemma existsb_same_members (x : nat) (l l' : list nat) :
  (forall k, In k l <-> In k l') ->
  existsb (Nat.eqb x) l = existsb (Nat.eqb x) l'.
Proof.
  intros Hsame. apply eq_true_iff_eq. rewrite !existsb_exists.
  split; intros (k & Hk & E); exists k; (split; [now apply Hsame|exact E]).
Qed.

Lemma filter_same {A} (f g : A -> bool) (l : list A) :
  (forall x, f x = g x) -> filter f l = filter g l.
Proof.
  intros E. induction l as [|x l IH]; cbn; [reflexivity|]. now rewrite E, IH.
Qed.

End HandleOrder.

(** X29: calling a list of unsubscribe handles, one after the other,
    deletes from every signal the subscribers whose handles are in the
    list and nothing else: the other subscribers keep their order, and
    values and ids stay.  So the result does not depend on the order of
    the handles nor on how often a handle occurs, and calling the whole
    list again changes nothing. *)
Theorem handles_delete_their_subscribers (hs : list Handle) (signals : list Signal.t) :
  (forall j,
      nth_error (fold_left callHandle hs signals) j
      = option_map
          (fun s => Signal.mk (Signal.id s) (Signal.value s) (Signal.v s)
                      (filter (fun x => negb (existsb (Nat.eqb x) (handlesFor j hs)))
                              (Signal.subscribers s)))
          (nth_error signals j)) /\
  (forall hs',
      (forall handle, In handle hs <-> In handle hs') ->
      fold_left callHandle hs' signals = fold_left callHandle hs signals) /\
  fold_left callHandle hs (fold_left callHandle hs signals)
  = fold_left callHandle hs signals.
Proof.
  split; [|split].
  - intros j. rewrite nth_error_callHandles.
    destruct (nth_error signals j) as [s|]; cbn [option_map]; [|reflexivity].
    now rewrite unsubscribe_all_subscribers.
  - intros hs' Hsame. apply nth_error_ext. intros j.
    rewrite !nth_error_callHandles.
    destruct (nth_error signals j) as [s|]; cbn [option_map]; [|reflexivity].
    rewrite !unsubscribe_all_subscribers. do 2 f_equal.
    apply filter_same. intros x. f_equal. apply existsb_same_members.
    intros k. rewrite !In_handlesFor. symmetry. apply Hsame.
  - apply callHandles_twice.
Qed.


(** X6: a marker in the value of an attribute whose record holds a
    string, a number or a boolean sets the attribute once: the callback
    calls [setAttribute] with the string of the value and empties the cell
    of the marker attribute; it subscribes nothing and leaves the signals
    and the database as they are. *)
Theorem primitive_marker_sets_attribute `{Host}
        (sh : Shared) (n : LiveNode) (before after : list (option Attribute))
        (a : Attribute) (text : string) (record : RecordT) :
  liveCells n = before ++ Some a :: after ->
  plainCells before ->
  plainCells after ->
  JsString.startsWithColons (name a) = false ->
  value a = VString text ->
  JsString.startsWithColons text = true ->
  JsMap.get (shDatabase sh) text = Some record ->
  match content record with
  | VString _ | VNumber _ | VBoolean _ => True
  | _ => False
  end ->
  interpolateNode2 sh n
  = inr (sh, setAttribute (setCells n (before ++ None :: after)) (name a)
                          (stringOf (content record))).
Proof.
  intros Hcells Hbefore Hafter Hname Hvalue Hmarker Hrecord Hprimitive.
  unfold interpolateNode2.
  rewrite Hcells, collectFrom_plain_prefix by exact Hbefore.
  cbn [collectFrom Nat.add]. unfold collectAttribute.
  rewrite Hname, Hvalue, Hmarker. cbn [enter bDatabase]. rewrite Hrecord.
  rewrite collectFrom_plain by exact Hafter. cbn [app processAll].
  unfold processAttribute, deleteCell, withNode, enter.
  cbn [attributePayload attributeName bSignals bClosures bFirstFunction bDatabase
       bNode liveId setCells liveCells].
  rewrite Hcells, setCell_middle.
  unfold hasType, isObjectType.
  destruct sh as [sigs closures first db].
  destruct (content record) eqn:E; try contradiction;
    cbn [typeName]; rewrite ?andb_false_r; reflexivity.
Qed.

(** The node [<Text id="123" content=${"hello"}>]. *)
Lemma primitive_marker_sets_attribute_witness :
  interpolateNode2 (H := sampleHost)
    (mkShared [] [] 0
              [("::0", newRecordDecoded "::0" (VString "hello") "<Text content=")])
    (mkLiveNode 1 [Some (mkAttribute "id" (VString "123"));
                   Some (mkAttribute "content" (VString "::0"))] [] [] [] [] [])
  = inr (mkShared [] [] 0
              [("::0", newRecordDecoded "::0" (VString "hello") "<Text content=")],
         mkLiveNode 1 [Some (mkAttribute "id" (VString "123")); None]
                    [("content", "hello")] [] [] [] []).
Proof.
  apply (primitive_marker_sets_attribute (H := sampleHost)
           (mkShared [] [] 0
              [("::0", newRecordDecoded "::0" (VString "hello") "<Text content=")])
           (mkLiveNode 1 [Some (mkAttribute "id" (VString "123"));
                          Some (mkAttribute "content" (VString "::0"))] [] [] [] [] [])
           [Some (mkAttribute "id" (VString "123"))] []
           (mkAttribute "content" (VString "::0")) "::0"
           (newRecordDecoded "::0" (VString "hello") "<Text content=")
           eq_refl).
  - intros b [E|[]]. injection E as <-.
    split; [reflexivity|eexists; split; reflexivity].
  - intros b [].
  - reflexivity.
  - reflexivity.
  - reflexivity.
  - reflexivity.
  - exact I.
Defined.
